(** * newClient.py: the BirdNET batch upload client

    A shallow embedding of [newClient.py] and of the parts of the Python
    runtime it calls ([str.endswith], [os.path], [os.listdir],
    [os.makedirs], [json.loads], [json.dump], [requests.post]), followed by
    the properties of the client that the specification states.

    Python values are modelled as follows.
    - [str]: a list of code points ([pystr]); [py "..."] turns a literal
      into one.
    - [int]: [Z]; indices returned by [rfind] are [Z] (-1 when absent).
    - [float]: an abstract type of finite doubles with its [repr] and its
      literal parser (class [PyFloat]), plus NaN and the infinities.
    - exceptions: the [Raise] outcome of the [io] monad; nothing in
      [newClient.py] catches one. *)

From Stdlib Require Import List String Ascii Bool Arith NArith ZArith Lia.
Import ListNotations.

Local Open Scope Z_scope.

(** ** Python strings *)

Definition codepoint := N.
Definition pystr := list codepoint.

(** A string literal of the source, as the sequence of its code points. *)
Definition py (s : string) : pystr :=
  map N_of_ascii (list_ascii_of_string s).

Fixpoint pystr_eqb (s t : pystr) : bool :=
  match s, t with
  | [], [] => true
  | a :: s', b :: t' => N.eqb a b && pystr_eqb s' t'
  | _, _ => false
  end.

(** [len(s)] *)
Definition len (s : pystr) : Z := Z.of_nat (List.length s).

(** [s[:i]] and [s[i:]] for an index [0 <= i]. *)
Definition slice_to (s : pystr) (i : Z) : pystr := firstn (Z.to_nat i) s.
Definition slice_from (s : pystr) (i : Z) : pystr := skipn (Z.to_nat i) s.
(** [s[i:j]] for [0 <= i]. *)
Definition slice (s : pystr) (i j : Z) : pystr :=
  slice_from (slice_to s j) i.

(** [s.startswith(prefix)] *)
Fixpoint startswith (s prefix : pystr) : bool :=
  match prefix, s with
  | [], _ => true
  | a :: prefix', b :: s' => N.eqb a b && startswith s' prefix'
  | _ :: _, [] => false
  end.

(** [s.endswith(suffix)] *)
Definition endswith (s suffix : pystr) : bool :=
  (List.length suffix <=? List.length s)%nat
  && pystr_eqb (skipn (List.length s - List.length suffix) s) suffix.

(** [s.rfind(c)] for a one-character [c]: the highest index of [c] in [s],
    -1 when [c] does not occur. *)
Fixpoint rfind_from (s : pystr) (c : codepoint) (i found : Z) : Z :=
  match s with
  | [] => found
  | a :: s' => rfind_from s' c (i + 1) (if N.eqb a c then i else found)
  end.
Definition rfind (s : pystr) (c : codepoint) : Z := rfind_from s c 0 (-1).

(** [s.rstrip(c)] for a one-character [c]. *)
Fixpoint rstrip (s : pystr) (c : codepoint) : pystr :=
  match s with
  | [] => []
  | a :: s' =>
      match rstrip s' c with
      | [] => if N.eqb a c then [] else [a]
      | r => a :: r
      end
  end.

(** ** [os.path] on POSIX ([posixpath.py], [genericpath.py]) *)

Module os_path.

Definition sep : codepoint := 47%N.     (* "/" *)
Definition extsep : codepoint := 46%N.  (* "." *)

(** [os.path.join(a, b)] *)
Definition join (a b : pystr) : pystr :=
  if startswith b [sep] then b
  else if (match a with [] => true | _ => false end) || endswith a [sep]
       then a ++ b
       else a ++ sep :: b.

(** [os.path.split(p)]: head is everything up to the last slash, with
    trailing slashes removed unless it consists of slashes only. *)
Definition split (p : pystr) : pystr * pystr :=
  let i := rfind p sep + 1 in
  let head := slice_to p i in
  let tail := slice_from p i in
  let head :=
    if match head with [] => false | _ => true end
       && negb (pystr_eqb head (repeat sep (List.length head)))
    then rstrip head sep else head in
  (head, tail).

(** [os.path.dirname(p)] *)
Definition dirname (p : pystr) : pystr := fst (split p).

(** [os.path.basename(p)] *)
Definition basename (p : pystr) : pystr := slice_from p (rfind p sep + 1).

(** [os.path.splitext(p)] ([genericpath._splitext] with [sep = "/"], no
    [altsep], [extsep = "."]): the extension starts at the last dot of the
    last component, unless only dots precede it in that component. *)
Definition splitext (p : pystr) : pystr * pystr :=
  let sepIndex := rfind p sep in
  let dotIndex := rfind p extsep in
  if sepIndex <? dotIndex then
    (* the loop over filenameIndex: skip all leading dots *)
    if forallb (fun c => N.eqb c extsep) (slice p (sepIndex + 1) dotIndex)
    then (p, [])
    else (slice_to p dotIndex, slice_from p dotIndex)
  else (p, []).

End os_path.

(** ** The pure parts of the main loop of [newClient.py] *)

(** The test of line 133:
    [audio_file.endswith(".wav") or audio_file.endswith(".mp3")]. *)
Definition is_audio_file (audio_file : pystr) : bool :=
  endswith audio_file (py ".wav") || endswith audio_file (py ".mp3").

(** The f-string of line 143:
    [f"{os.path.splitext(audio_file)[0]}.BirdNET.results.json"]. *)
Definition result_file_name (audio_file : pystr) : pystr :=
  fst (os_path.splitext audio_file) ++ py ".BirdNET.results.json".

(** [result_file_path] of lines 141-144. *)
Definition result_file_path (output_directory audio_file : pystr) : pystr :=
  os_path.join output_directory (result_file_name audio_file).

(** [audio_file_path] of line 135. *)
Definition audio_file_path (input_directory audio_file : pystr) : pystr :=
  os_path.join input_directory audio_file.


(** ** Numbers as text: [int.__repr__], [int(str)], and [NUMBER_RE] *)

(** A character of the source, as a code point. *)
Definition ch (a : ascii) : codepoint := N_of_ascii a.

Definition is_digit (c : codepoint) : bool := (48 <=? c)%N && (c <=? 57)%N.

(** The decimal digits of [n], most significant first, prepended to [acc];
    [fuel] bounds the number of digits. *)
Fixpoint digits_of (fuel : nat) (n : N) (acc : pystr) : pystr :=
  match fuel with
  | O => acc
  | S fuel' =>
      let acc' := (48 + n mod 10)%N :: acc in
      if (n / 10 =? 0)%N then acc' else digits_of fuel' (n / 10) acc'
  end.

Definition N_digits (n : N) : pystr := digits_of (S (N.to_nat (N.log2 n))) n [].

(** [int.__repr__] *)
Definition intstr (z : Z) : pystr :=
  match z with
  | Z0 => [48%N]
  | Zpos p => N_digits (Npos p)
  | Zneg p => ch "-" :: N_digits (Npos p)
  end.

(** The value of a run of decimal digits. *)
Definition digits_value (d : pystr) : N :=
  fold_left (fun acc c => (10 * acc + (c - 48))%N) d 0%N.

(** [int(s)] for [s] matching [-?[0-9]+]. *)
Definition parse_int (s : pystr) : Z :=
  match s with
  | c :: d => if N.eqb c (ch "-") then - Z.of_N (digits_value d)
              else Z.of_N (digits_value s)
  | [] => 0
  end.

(** [[0-9]*], greedy: the digits matched and the rest. *)
Fixpoint span_digits (s : pystr) : pystr * pystr :=
  match s with
  | c :: s' =>
      if is_digit c then let (d, r) := span_digits s' in (c :: d, r)
      else ([], s)
  | [] => ([], [])
  end.

(** Group 1 of [NUMBER_RE]: an optional minus sign, then either 0 or a
    nonzero digit followed by digits. *)
Definition match_integer (s : pystr) : option (pystr * pystr) :=
  let (sign, s1) :=
    match s with
    | c :: s' => if N.eqb c (ch "-") then ([c], s') else ([], s)
    | [] => ([], s)
    end in
  match s1 with
  | c :: s2 =>
      if N.eqb c (ch "0") then Some (sign ++ [c], s2)
      else if is_digit c
           then let (d, r) := span_digits s2 in Some (sign ++ c :: d, r)
           else None
  | [] => None
  end.

(** Group 2 of [NUMBER_RE]: [(\.[0-9]+)?]. *)
Definition match_frac (s : pystr) : pystr * pystr :=
  match s with
  | c :: s' =>
      if N.eqb c (ch ".")
      then match span_digits s' with
           | ([], _) => ([], s)
           | (d, r) => (c :: d, r)
           end
      else ([], s)
  | [] => ([], s)
  end.

(** Group 3 of [NUMBER_RE]: [([eE][-+]?[0-9]+)?]. *)
Definition match_exp (s : pystr) : pystr * pystr :=
  match s with
  | c :: s' =>
      if N.eqb c (ch "e") || N.eqb c (ch "E")
      then
        let (sign, s'') :=
          match s' with
          | c2 :: t =>
              if N.eqb c2 (ch "-") || N.eqb c2 (ch "+") then ([c2], t)
              else ([], s')
          | [] => ([], s')
          end in
        match span_digits s'' with
        | ([], _) => ([], s)
        | (d, r) => (c :: sign ++ d, r)
        end
      else ([], s)
  | [] => ([], s)
  end.

(** [NUMBER_RE.match]: the groups [(integer, frac, exp)] and the rest of
    the text, [None] when the text does not start with a number. *)
Definition match_number (s : pystr)
  : option (pystr * pystr * pystr * pystr) :=
  match match_integer s with
  | None => None
  | Some (integer, s1) =>
      let (frac, s2) := match_frac s1 in
      let (exp, s3) := match_exp s2 in
      Some (integer, frac, exp, s3)
  end.

Definition nonempty (s : pystr) : bool :=
  match s with [] => false | _ => true end.

(** The texts that the scanner reads as one float literal. *)
Definition is_float_literal (s : pystr) : bool :=
  match match_number s with
  | Some (_, frac, exp, []) => nonempty frac || nonempty exp
  | _ => false
  end.

(** ** Python floats *)

Inductive pyfloat (F : Type) : Type :=
| FNaN
| FInf (negative : bool)
| FFinite (x : F).
Arguments FNaN {F}.
Arguments FInf {F} negative.
Arguments FFinite {F} x.

(** The finite doubles, as far as [json] uses them: [float(s)] on a number
    literal and [float.__repr__]. *)
Class PyFloat := {
  finite : Type;
  float_of_string : pystr -> pyfloat finite;
  float_repr : finite -> pystr
}.

(** The two facts about [repr] that Python documents: it is a decimal
    literal with a fraction or an exponent, and [float(repr(x)) == x]. *)
Class PyFloatLaws (FL : PyFloat) : Prop := {
  float_repr_literal : forall x, is_float_literal (float_repr x) = true;
  float_repr_roundtrip : forall x, float_of_string (float_repr x) = FFinite x
}.

(** ** [json]: values, [json.dumps] and [json.loads] *)

Module json.
#[local] Set Warnings "-register-all".

(** The outcome of scanning one value: the value and the rest of the text,
    a [JSONDecodeError], or the recursion bound of the model reached. *)
Inductive scanned (A : Type) : Type :=
| Scanned (v : A) (rest : pystr)
| DecodeError
| OutOfFuel.
Arguments Scanned {A} v rest.
Arguments DecodeError {A}.
Arguments OutOfFuel {A}.

Section WithFloat.
Context {FL : PyFloat}.

(** The Python values that [json.loads] builds.  A [dict] is the list of
    its items in insertion order; its keys are distinct. *)
Inductive value : Type :=
| JNull
| JBool (b : bool)
| JInt (z : Z)
| JFloat (f : pyfloat finite)
| JStr (s : pystr)
| JList (l : list value)
| JDict (d : list (pystr * value)).

(** *** Encoder ([json/encoder.py], [ensure_ascii=True]) *)

Definition hex_digit (n : N) : codepoint :=
  (if n <? 10 then 48 + n else 87 + n)%N.

(** ['{0:04x}'.format(n)] for [n < 0x10000]. *)
Definition hex4 (n : N) : pystr :=
  [hex_digit (N.shiftr n 12 mod 16); hex_digit (N.shiftr n 8 mod 16);
   hex_digit (N.shiftr n 4 mod 16); hex_digit (n mod 16)]%N.

(** [replace] of [py_encode_basestring_ascii], applied by [ESCAPE_ASCII]
    to a backslash, a double quote and every character outside [' '..'~']. *)
Definition escape_char (c : codepoint) : pystr :=
  if N.eqb c (ch "\") then [ch "\"; ch "\"]
  else if N.eqb c 34 then [ch "\"; 34%N]
  else if N.eqb c 8 then [ch "\"; ch "b"]
  else if N.eqb c 12 then [ch "\"; ch "f"]
  else if N.eqb c 10 then [ch "\"; ch "n"]
  else if N.eqb c 13 then [ch "\"; ch "r"]
  else if N.eqb c 9 then [ch "\"; ch "t"]
  else if (c <? 0x10000)%N then ch "\" :: ch "u" :: hex4 c
  else
    let n := (c - 0x10000)%N in
    let s1 := N.lor 0xd800 (N.land (N.shiftr n 10) 0x3ff) in
    let s2 := N.lor 0xdc00 (N.land n 0x3ff) in
    (ch "\" :: ch "u" :: hex4 s1) ++ (ch "\" :: ch "u" :: hex4 s2).

Definition encode_char (c : codepoint) : pystr :=
  if N.eqb c (ch "\") || N.eqb c 34
     || negb ((32 <=? c)%N && (c <=? 126)%N)
  then escape_char c else [c].

Definition encode_basestring_ascii (s : pystr) : pystr :=
  34%N :: flat_map encode_char s ++ [34%N].

(** [floatstr], with [allow_nan=True]. *)
Definition floatstr (o : pyfloat finite) : pystr :=
  match o with
  | FNaN => py "NaN"
  | FInf false => py "Infinity"
  | FInf true => py "-Infinity"
  | FFinite x => float_repr x
  end.

(** ['\n' + _indent * level] when an indent is given. *)
Definition newline_indent (indent : option nat) (level : nat) : pystr :=
  match indent with
  | Some n => 10%N :: repeat 32%N (n * level)
  | None => []
  end.

(** The separators [json.dumps] picks: [(',', ': ')] with an indent,
    [(', ', ': ')] without. *)
Definition item_separator (indent : option nat) : pystr :=
  match indent with Some _ => py "," | None => py ", " end.
Definition key_separator : pystr := py ": ".

(** The chunks of a container, with [sep] between consecutive ones. *)
Fixpoint join_chunks (sep : pystr) (chunks : list pystr) : pystr :=
  match chunks with
  | [] => []
  | [c] => c
  | c :: cs => c ++ sep ++ join_chunks sep cs
  end.

(** [_iterencode], [_iterencode_list] and [_iterencode_dict], with the
    chunks concatenated. *)
Fixpoint iterencode (indent : option nat) (level : nat) (o : value) : pystr :=
  match o with
  | JStr s => encode_basestring_ascii s
  | JNull => py "null"
  | JBool true => py "true"
  | JBool false => py "false"
  | JInt z => intstr z
  | JFloat f => floatstr f
  | JList [] => py "[]"
  | JList lst =>
      py "[" ++ newline_indent indent (S level)
      ++ join_chunks (item_separator indent ++ newline_indent indent (S level))
           (map (iterencode indent (S level)) lst)
      ++ newline_indent indent level ++ py "]"
  | JDict [] => py "{}"
  | JDict dct =>
      py "{" ++ newline_indent indent (S level)
      ++ join_chunks (item_separator indent ++ newline_indent indent (S level))
           (map (fun kv =>
                   match kv with
                   | (key, v) =>
                       encode_basestring_ascii key ++ key_separator
                       ++ iterencode indent (S level) v
                   end) dct)
      ++ newline_indent indent level ++ py "}"
  end.

(** [json.dumps(obj, indent=indent)]; [json.dump(obj, f, indent=indent)]
    writes the same text to [f]. *)
Definition dumps (indent : option nat) (obj : value) : pystr :=
  iterencode indent 0 obj.

(** *** Decoder ([json/decoder.py], [json/scanner.py], [strict=True]) *)

(** [WHITESPACE.match(s).end()]: skip spaces, tabs, newlines, returns. *)
Definition is_ws (c : codepoint) : bool :=
  N.eqb c 32 || N.eqb c 9 || N.eqb c 10 || N.eqb c 13.

Fixpoint skip_ws (s : pystr) : pystr :=
  match s with
  | c :: s' => if is_ws c then skip_ws s' else s
  | [] => []
  end.

Definition hex_value (c : codepoint) : option N :=
  if is_digit c then Some (c - 48)%N
  else if (97 <=? c)%N && (c <=? 102)%N then Some (c - 87)%N
  else if (65 <=? c)%N && (c <=? 70)%N then Some (c - 55)%N
  else None.

(** [_decode_uXXXX]: the value of four hexadecimal digits. *)
Definition decode_uXXXX (a b c d : codepoint) : option N :=
  match hex_value a, hex_value b, hex_value c, hex_value d with
  | Some x, Some y, Some z, Some w => Some (((x * 16 + y) * 16 + z) * 16 + w)%N
  | _, _, _, _ => None
  end.

(** The table [BACKSLASH]. *)
Definition backslash (esc : codepoint) : option codepoint :=
  if N.eqb esc 34 then Some 34%N
  else if N.eqb esc (ch "\") then Some (ch "\")
  else if N.eqb esc (ch "/") then Some (ch "/")
  else if N.eqb esc (ch "b") then Some 8%N
  else if N.eqb esc (ch "f") then Some 12%N
  else if N.eqb esc (ch "n") then Some 10%N
  else if N.eqb esc (ch "r") then Some 13%N
  else if N.eqb esc (ch "t") then Some 9%N
  else None.

Definition is_high_surrogate (c : codepoint) : bool :=
  (0xd800 <=? c)%N && (c <=? 0xdbff)%N.
Definition is_low_surrogate (c : codepoint) : bool :=
  (0xdc00 <=? c)%N && (c <=? 0xdfff)%N.

Definition push (c : codepoint) (r : option (pystr * pystr))
  : option (pystr * pystr) :=
  match r with
  | Some (str, rest) => Some (c :: str, rest)
  | None => None
  end.

(** [scanstring(s, end)], from the character after the opening quote: the
    decoded string and the text after the closing quote, [None] where the
    decoder raises [JSONDecodeError]. *)
Fixpoint scanstring (s : pystr) : option (pystr * pystr) :=
  match s with
  | [] => None                         (* unterminated string *)
  | c :: s1 =>
      if N.eqb c 34 then Some ([], s1)
      else if N.eqb c (ch "\") then
        match s1 with
        | [] => None                   (* unterminated string *)
        | esc :: s2 =>
            if N.eqb esc (ch "u") then
              match s2 with
              | h1 :: h2 :: h3 :: h4 :: s3 =>
                  match decode_uXXXX h1 h2 h3 h4 with
                  | None => None       (* invalid \uXXXX escape *)
                  | Some uni =>
                      let single := push uni (scanstring s3) in
                      if is_high_surrogate uni then
                        match s3 with
                        | b :: u :: k1 :: k2 :: k3 :: k4 :: s4 =>
                            if N.eqb b (ch "\") && N.eqb u (ch "u") then
                              match decode_uXXXX k1 k2 k3 k4 with
                              | None => None
                              | Some uni2 =>
                                  if is_low_surrogate uni2
                                  then push (0x10000 +
                                             N.lor (N.shiftl (uni - 0xd800) 10)
                                                   (uni2 - 0xdc00))%N
                                            (scanstring s4)
                                  else single
                              end
                            else single
                        | _ => single
                        end
                      else single
                  end
              | _ => None              (* invalid \uXXXX escape *)
              end
            else
              match backslash esc with
              | Some char => push char (scanstring s2)
              | None => None           (* invalid \escape *)
              end
        end
      else if (c <? 32)%N then None    (* invalid control character *)
      else push c (scanstring s1)
  end.

(** [dict(pairs)]: a later pair replaces the value of an equal earlier key
    and keeps its place. *)
Fixpoint dict_set (d : list (pystr * value)) (k : pystr) (v : value)
  : list (pystr * value) :=
  match d with
  | [] => [(k, v)]
  | (k', v') :: d' =>
      if pystr_eqb k' k then (k', v) :: d' else (k', v') :: dict_set d' k v
  end.

Definition dict (pairs : list (pystr * value)) : list (pystr * value) :=
  fold_left (fun d kv => dict_set d (fst kv) (snd kv)) pairs [].

(** The last branches of [_scan_once]: the literals, the numbers and the
    three constants. *)
Definition scan_atom (s : pystr) : scanned value :=
  if startswith s (py "null") then Scanned JNull (skipn 4 s)
  else if startswith s (py "true") then Scanned (JBool true) (skipn 4 s)
  else if startswith s (py "false") then Scanned (JBool false) (skipn 5 s)
  else
    match match_number s with
    | Some (integer, frac, exp, rest) =>
        if nonempty frac || nonempty exp
        then Scanned (JFloat (float_of_string (integer ++ frac ++ exp))) rest
        else Scanned (JInt (parse_int integer)) rest
    | None =>
        if startswith s (py "NaN") then Scanned (JFloat FNaN) (skipn 3 s)
        else if startswith s (py "Infinity") then
          Scanned (JFloat (FInf false)) (skipn 8 s)
        else if startswith s (py "-Infinity") then
          Scanned (JFloat (FInf true)) (skipn 9 s)
        else DecodeError               (* expecting value *)
    end.

(** [_scan_once], [JSONArray] (its loop, from the first element) and
    [JSONObject] (its loop, from the character after the opening quote of a
    key).  Where the source tests the next character before it skips
    whitespace, the model skips whitespace at once: the tested characters
    are not whitespace.  [fuel] bounds the number of nested calls. *)
Fixpoint scan_once (fuel : nat) (s : pystr) {struct fuel} : scanned value :=
  match fuel with
  | O => OutOfFuel
  | S fuel' =>
      match s with
      | [] => DecodeError              (* expecting value *)
      | nextchar :: s1 =>
          if N.eqb nextchar 34 then
            match scanstring s1 with
            | Some (str, rest) => Scanned (JStr str) rest
            | None => DecodeError
            end
          else if N.eqb nextchar (ch "{") then
            match skip_ws s1 with
            | c :: s3 =>
                if N.eqb c (ch "}") then Scanned (JDict []) s3
                else if N.eqb c 34 then JSONObject fuel' s3 []
                else DecodeError       (* expecting property name *)
            | [] => DecodeError
            end
          else if N.eqb nextchar (ch "[") then
            match skip_ws s1 with
            | c :: s3 =>
                if N.eqb c (ch "]") then Scanned (JList []) s3
                else JSONArray fuel' (c :: s3) []
            | [] => DecodeError        (* expecting value *)
            end
          else scan_atom s
      end
  end

with JSONArray (fuel : nat) (s : pystr) (values : list value) {struct fuel}
  : scanned value :=
  match fuel with
  | O => OutOfFuel
  | S fuel' =>
      match scan_once fuel' s with
      | Scanned v s1 =>
          match skip_ws s1 with
          | c :: s2 =>
              if N.eqb c (ch "]") then Scanned (JList (values ++ [v])) s2
              else if N.eqb c (ch ",")
                   then JSONArray fuel' (skip_ws s2) (values ++ [v])
                   else DecodeError    (* expecting ',' delimiter *)
          | [] => DecodeError
          end
      | DecodeError => DecodeError
      | OutOfFuel => OutOfFuel
      end
  end

with JSONObject (fuel : nat) (s : pystr) (pairs : list (pystr * value))
  {struct fuel} : scanned value :=
  match fuel with
  | O => OutOfFuel
  | S fuel' =>
      match scanstring s with
      | None => DecodeError
      | Some (key, s1) =>
          match skip_ws s1 with
          | c :: s2 =>
              if N.eqb c (ch ":") then
                match scan_once fuel' (skip_ws s2) with
                | Scanned v s3 =>
                    match skip_ws s3 with
                    | c' :: s4 =>
                        if N.eqb c' (ch "}")
                        then Scanned (JDict (dict (pairs ++ [(key, v)]))) s4
                        else if N.eqb c' (ch ",") then
                          match skip_ws s4 with
                          | q :: s5 =>
                              if N.eqb q 34
                              then JSONObject fuel' s5 (pairs ++ [(key, v)])
                              else DecodeError
                          | [] => DecodeError
                          end
                        else DecodeError  (* expecting ',' delimiter *)
                    | [] => DecodeError
                    end
                | DecodeError => DecodeError
                | OutOfFuel => OutOfFuel
                end
              else DecodeError         (* expecting ':' delimiter *)
          | [] => DecodeError
          end
      end
  end.

(** [json.loads(s)] for a [str]: [None] where it raises [JSONDecodeError]
    (a leading byte order mark, no value, or extra data after the value).
    The recursion bound is never reached (lemma [loads_fuel]). *)
Definition loads_fuel (s : pystr) : nat := S (2 * List.length s).

Definition loads (s : pystr) : option value :=
  if startswith s [0xfeff%N] then None
  else
    match scan_once (loads_fuel s) (skip_ws s) with
    | Scanned obj rest =>
        match skip_ws rest with
        | [] => Some obj
        | _ :: _ => None               (* extra data *)
        end
    | DecodeError => None
    | OutOfFuel => None
    end.

(** *** Well-formed values *)

(** The code points of a [str] are below 0x110000. *)
Definition valid_str (s : pystr) : bool :=
  forallb (fun c => (c <? 0x110000)%N) s.


Fixpoint distinct (keys : list pystr) : bool :=
  match keys with
  | [] => true
  | k :: keys' => negb (existsb (pystr_eqb k) keys') && distinct keys'
  end.

(** Every string of the value is a [str] and the keys of every [dict] are
    distinct. *)
Fixpoint well_formed (v : value) : bool :=
  match v with
  | JStr s => valid_str s
  | JList l => forallb well_formed l
  | JDict d =>
      forallb (fun kv => match kv with
                         | (k, x) => valid_str k && well_formed x
                         end) d
      && distinct (map fst d)
  | _ => true
  end.


(** A well-formed item of a [dict]. *)
Definition item_ok (kv : pystr * value) : bool :=
  match kv with (k, x) => valid_str k && well_formed x end.


End WithFloat.
End json.

(** ** Exceptions and outcomes *)

Inductive exn : Type :=
| FileNotFoundError
| FileExistsError
| NotADirectoryError
| IsADirectoryError
| ConnectionError
| JSONDecodeError.

Inductive outcome (A : Type) : Type :=
| Return (a : A)
| Raise (e : exn).
Arguments Return {A} a.
Arguments Raise {A} e.

(** ** [os]: a POSIX file tree without symbolic links or permissions *)

Module os.
#[local] Set Warnings "-register-all".

(** A directory lists its entries in the order [os.listdir] yields them. *)
Inductive node : Type :=
| File (data : pystr)
| Dir (entries : list (pystr * node)).

(** The names from the root down to a node. *)
Definition key := list pystr.

Record filesystem : Type := { root : node; cwd : key }.

Fixpoint find_entry (entries : list (pystr * node)) (name : pystr)
  : option node :=
  match entries with
  | [] => None
  | (n, x) :: es => if pystr_eqb n name then Some x else find_entry es name
  end.

Fixpoint lookup (n : node) (k : key) : option node :=
  match k with
  | [] => Some n
  | name :: k' =>
      match n with
      | Dir es =>
          match find_entry es name with
          | Some c => lookup c k'
          | None => None
          end
      | File _ => None
      end
  end.

(** Replace the entry [name], or add it after the others. *)
Fixpoint set_entry (entries : list (pystr * node)) (name : pystr) (new : node)
  : list (pystr * node) :=
  match entries with
  | [] => [(name, new)]
  | (n, x) :: es =>
      if pystr_eqb n name then (n, new) :: es
      else (n, x) :: set_entry es name new
  end.

(** Put [new] at [k]; the directory that holds [k] must exist. *)
Fixpoint update (n : node) (k : key) (new : node) : node :=
  match k with
  | [] => new
  | name :: k' =>
      match n with
      | File _ => n
      | Dir es =>
          match find_entry es name, k' with
          | Some c, _ => Dir (set_entry es name (update c k' new))
          | None, [] => Dir (set_entry es name new)
          | None, _ :: _ => n
          end
      end
  end.

Definition is_dir (r : node) (k : key) : bool :=
  match lookup r k with Some (Dir _) => true | _ => false end.

(** [p.split('/')] *)
Fixpoint split_sep (p : pystr) : list pystr :=
  match p with
  | [] => [[]]
  | c :: p' =>
      if N.eqb c os_path.sep then [] :: split_sep p'
      else match split_sep p' with
           | h :: t => (c :: h) :: t
           | [] => [[c]]
           end
  end.

(** One step of path resolution from the directory [cur]. *)
Definition walk1 (r : node) (cur : key) (name : pystr) : outcome key :=
  match lookup r cur with
  | Some (Dir _) =>
      if pystr_eqb name [] || pystr_eqb name (py ".") then Return cur
      else if pystr_eqb name (py "..") then Return (removelast cur)
      else Return (cur ++ [name])
  | Some (File _) => Raise NotADirectoryError
  | None => Raise FileNotFoundError
  end.

Fixpoint walk (r : node) (cur : key) (names : list pystr) : outcome key :=
  match names with
  | [] => Return cur
  | name :: names' =>
      match walk1 r cur name with
      | Return cur' => walk r cur' names'
      | Raise e => Raise e
      end
  end.

(** Where resolution of [p] starts. *)
Definition start (fs : filesystem) (p : pystr) : key :=
  if startswith p [os_path.sep] then [] else cwd fs.

(** The key that the path [p] names; the node there need not exist, every
    directory on the way does. *)
Definition resolve (fs : filesystem) (p : pystr) : outcome key :=
  match p with
  | [] => Raise FileNotFoundError
  | _ => walk (root fs) (start fs p) (split_sep p)
  end.

(** [os.stat(p)], as far as the node it finds. *)
Definition stat (fs : filesystem) (p : pystr) : outcome node :=
  match resolve fs p with
  | Return k =>
      match lookup (root fs) k with
      | Some n => Return n
      | None => Raise FileNotFoundError
      end
  | Raise e => Raise e
  end.

(** [os.path.isdir(p)] *)
Definition isdir (fs : filesystem) (p : pystr) : bool :=
  match stat fs p with Return (Dir _) => true | _ => false end.

(** [os.path.exists(p)] *)
Definition exists_ (fs : filesystem) (p : pystr) : bool :=
  match stat fs p with Return _ => true | Raise _ => false end.

(** [os.listdir(p)] *)
Definition listdir (fs : filesystem) (p : pystr) : outcome (list pystr) :=
  match stat fs p with
  | Return (Dir es) => Return (map fst es)
  | Return (File _) => Raise NotADirectoryError
  | Raise e => Raise e
  end.

(** [open(p, "rb").read()] *)
Definition read (fs : filesystem) (p : pystr) : outcome pystr :=
  match stat fs p with
  | Return (File data) => Return data
  | Return (Dir _) => Raise IsADirectoryError
  | Raise e => Raise e
  end.

(** The directory that holds the last component of [p], and that
    component. *)
Definition locate (fs : filesystem) (p : pystr) : outcome (key * pystr) :=
  match p with
  | [] => Raise FileNotFoundError
  | _ =>
      let names := split_sep p in
      match walk (root fs) (start fs p) (removelast names) with
      | Return dir =>
          match lookup (root fs) dir with
          | Some (Dir _) => Return (dir, last names [])
          | Some (File _) => Raise NotADirectoryError
          | None => Raise FileNotFoundError
          end
      | Raise e => Raise e
      end
  end.

(** [with open(p, "w") as f: f.write(data)]: create or truncate the file
    and write [data]. *)
Definition write (fs : filesystem) (p : pystr) (data : pystr)
  : outcome unit * filesystem :=
  match locate fs p with
  | Return (dir, name) =>
      if pystr_eqb name [] || pystr_eqb name (py ".")
         || pystr_eqb name (py "..")
      then (Raise IsADirectoryError, fs)
      else
        match lookup (root fs) (dir ++ [name]) with
        | Some (Dir _) => (Raise IsADirectoryError, fs)
        | _ =>
            (Return tt,
             {| root := update (root fs) (dir ++ [name]) (File data);
                cwd := cwd fs |})
        end
  | Raise e => (Raise e, fs)
  end.

(** [os.makedirs(p, exist_ok=True)], by its contract: walk down [p] and
    make every directory that is missing; a file on the way is an error,
    an existing directory is not.  Directories made before an error
    stay. *)
Fixpoint makedirs_walk (r : node) (cur : key) (names : list pystr)
  : outcome unit * node :=
  match lookup r cur with
  | Some (Dir _) =>
      match names with
      | [] => (Return tt, r)
      | name :: names' =>
          if pystr_eqb name [] || pystr_eqb name (py ".")
          then makedirs_walk r cur names'
          else if pystr_eqb name (py "..")
          then makedirs_walk r (removelast cur) names'
          else
            match lookup r (cur ++ [name]) with
            | Some _ => makedirs_walk r (cur ++ [name]) names'
            | None =>
                makedirs_walk (update r (cur ++ [name]) (Dir []))
                              (cur ++ [name]) names'
            end
      end
  | Some (File _) =>
      match names with
      | [] => (Raise FileExistsError, r)
      | _ :: _ => (Raise NotADirectoryError, r)
      end
  | None => (Raise FileNotFoundError, r)
  end.

Definition makedirs (fs : filesystem) (p : pystr)
  : outcome unit * filesystem :=
  match p with
  | [] => (Raise FileNotFoundError, fs)
  | _ =>
      let (res, r) := makedirs_walk (root fs) (start fs p) (split_sep p) in
      (res, {| root := r; cwd := cwd fs |})
  end.

End os.

(** ** The world the client runs in *)

(** A request as [requests.post(url, files=...)] sends it: the file part
    [audio] with its file name and content, and the form field [meta]. *)
Record request : Type := {
  url : pystr;
  audio_filename : pystr;
  audio_content : pystr;
  meta : pystr
}.

Record response : Type := { status_code : Z; text : pystr }.

(** The two lines that [sendRequest] prints; the elapsed time that ends the
    second one is left out. *)
Inductive line : Type :=
| Requesting (fpath : pystr)
| Response (text : pystr).

Record world : Type := {
  fs : os.filesystem;
  posted : list request;          (* the requests sent so far, oldest first *)
  stdout : list line
}.

(** Computations that read and change the world and may raise. *)
Definition io (A : Type) : Type := world -> outcome A * world.

Definition ret {A} (a : A) : io A := fun w => (Return a, w).

Definition bind {A B} (m : io A) (f : A -> io B) : io B :=
  fun w =>
    match m w with
    | (Return a, w') => f a w'
    | (Raise e, w') => (Raise e, w')
    end.

Declare Scope io_scope.
Delimit Scope io_scope with io.
Notation "x <- m ;; f" := (bind m (fun x => f))
  (at level 61, m at next level, right associativity) : io_scope.
Notation "m ;; f" := (bind m (fun _ => f))
  (at level 61, right associativity) : io_scope.
Local Open Scope io_scope.

Definition raise {A} (e : exn) : io A := fun w => (Raise e, w).

Definition of_outcome {A} (r : outcome A) : io A := fun w => (r, w).

Definition print (l : line) : io unit :=
  fun w => (Return tt,
            {| fs := fs w; posted := posted w; stdout := stdout w ++ [l] |}).

Definition with_fs {A} (op : os.filesystem -> outcome A * os.filesystem)
  : io A :=
  fun w =>
    let (r, fs') := op (fs w) in
    (r, {| fs := fs'; posted := posted w; stdout := stdout w |}).

(** [for x in l: body(x)] *)
Fixpoint for_each {A} (l : list A) (body : A -> io unit) : io unit :=
  match l with
  | [] => ret tt
  | x :: l' => body x ;; for_each l' body
  end.

(** ** [newClient.py] *)

Section Client.
Context {FL : PyFloat}.

(** The server, as the client sees it: for the requests it got before and
    the one it gets now, a response, or none when the transport fails. *)
Variable server : list request -> request -> option response.

(** [requests.post(url, files={"audio": ..., "meta": (None, mdata)})] *)
Definition requests_post (url : pystr) (audio : pystr * pystr) (mdata : pystr)
  : io response :=
  fun w =>
    let req := {| url := url; audio_filename := fst audio;
                  audio_content := snd audio; meta := mdata |} in
    let w' := {| fs := fs w; posted := posted w ++ [req];
                 stdout := stdout w |} in
    match server (posted w) req with
    | Some resp => (Return resp, w')
    | None => (Raise ConnectionError, w')
    end.

Definition json_loads (s : pystr) : io json.value :=
  match json.loads s with
  | Some data => ret data
  | None => raise JSONDecodeError
  end.

(** [sendRequest(host, port, fpath, mdata)], lines 13-46. *)
Definition sendRequest (host : pystr) (port : Z) (fpath : pystr)
    (mdata : pystr) : io json.value :=
  let url := py "http://" ++ host ++ py ":" ++ intstr port ++ py "/analyze" in
  print (Requesting fpath) ;;
  (* Make payload *)
  audio_file <- with_fs (fun fs => (os.read fs fpath, fs)) ;;
  (* Send request *)
  response <- requests_post url (os_path.basename fpath, audio_file) mdata ;;
  print (Response (text response)) ;;
  (* Convert to dict *)
  data <- json_loads (text response) ;;
  ret data.

(** [saveResult(data, fpath)], lines 49-62. *)
Definition saveResult (data : json.value) (fpath : pystr) : io unit :=
  (* Make directory *)
  let dir_path := os_path.dirname fpath in
  with_fs (fun fs => os.makedirs fs dir_path) ;;
  (* Save result *)
  with_fs (fun fs => os.write fs fpath (json.dumps (Some 4%nat) data)).

(** The options given on the command line, as [argparse] converted them;
    [None] for an option that was not given. *)
Record command_line : Type := {
  cl_host : option pystr;
  cl_port : option Z;
  cl_i : option pystr;
  cl_o : option pystr;
  cl_lat : option (pyfloat finite);
  cl_lon : option (pyfloat finite);
  cl_week : option Z;
  cl_overlap : option (pyfloat finite);
  cl_sensitivity : option (pyfloat finite);
  cl_pmode : option pystr;
  cl_num_results : option Z;
  cl_sf_thresh : option (pyfloat finite);
  cl_save : bool
}.

(** [args], the namespace that [parser.parse_args()] returns.  [lat] and
    [lon] are a [float] when given and the [int] default -1 otherwise. *)
Record Namespace : Type := {
  args_host : pystr;
  args_port : Z;
  args_i : pystr;
  args_o : pystr;
  args_lat : json.value;
  args_lon : json.value;
  args_week : Z;
  args_overlap : pyfloat finite;
  args_sensitivity : pyfloat finite;
  args_pmode : pystr;
  args_num_results : Z;
  args_sf_thresh : pyfloat finite;
  args_save : bool
}.

Definition default {A} (d : A) (given : option A) : A :=
  match given with Some a => a | None => d end.

(** Lines 70-109. *)
Definition parse_args (argv : command_line) : Namespace := {|
  args_host := default (py "localhost") (cl_host argv);
  args_port := default 8080 (cl_port argv);
  args_i := default (py "example/") (cl_i argv);
  args_o := default (py "") (cl_o argv);
  args_lat := default (json.JInt (-1)) (option_map json.JFloat (cl_lat argv));
  args_lon := default (json.JInt (-1)) (option_map json.JFloat (cl_lon argv));
  args_week := default (-1) (cl_week argv);
  args_overlap := default (float_of_string (py "0.0")) (cl_overlap argv);
  args_sensitivity :=
    default (float_of_string (py "1.0")) (cl_sensitivity argv);
  args_pmode := default (py "avg") (cl_pmode argv);
  args_num_results := default 5 (cl_num_results argv);
  args_sf_thresh := default (float_of_string (py "0.03")) (cl_sf_thresh argv);
  args_save := cl_save argv
|}.

(** [mdata], lines 112-122. *)
Definition make_mdata (args : Namespace) : json.value :=
  json.JDict [
    (py "lat", args_lat args);
    (py "lon", args_lon args);
    (py "week", json.JInt (args_week args));
    (py "overlap", json.JFloat (args_overlap args));
    (py "sensitivity", json.JFloat (args_sensitivity args));
    (py "sf_thresh", json.JFloat (args_sf_thresh args));
    (py "pmode", json.JStr (args_pmode args));
    (py "num_results", json.JInt (args_num_results args));
    (py "save", json.JBool (args_save args))
  ].

(** [output_directory], line 128. *)
Definition output_directory_of (args : Namespace) : pystr :=
  if nonempty (args_o args) then args_o args else args_i args.

(** The body of the loop, lines 132-147, for one entry of the listing. *)
Definition loop_body (args : Namespace) (audio_file : pystr) : io unit :=
  let mdata := make_mdata args in
  let input_directory := args_i args in
  let output_directory := output_directory_of args in
  (* Only process audio files with supported extensions *)
  if is_audio_file audio_file then
    data <- sendRequest (args_host args) (args_port args)
              (audio_file_path input_directory audio_file)
              (json.dumps None mdata) ;;
    saveResult data (result_file_path output_directory audio_file)
  else ret tt.

(** The script from line 109 on, for the parsed arguments. *)
Definition run (args : Namespace) : io unit :=
  listing <- with_fs (fun fs => (os.listdir fs (args_i args), fs)) ;;
  for_each listing (loop_body args).

Definition main (argv : command_line) : io unit := run (parse_args argv).

End Client.

(** ** The specification's wording, for comparison with the code *)

(** "only the final extension is stripped": the name without its part from
    the last dot on. *)
Definition spec_strip_final_extension (name : pystr) : pystr :=
  let dotIndex := rfind name os_path.extsep in
  if dotIndex <? 0 then name else slice_to name dotIndex.

(** "<basename-without-extension>.BirdNET.results.json" *)
Definition spec_result_file_name (name : pystr) : pystr :=
  spec_strip_final_extension name ++ py ".BirdNET.results.json".

(** A name that [os.listdir] can yield has no slash in it. *)
Definition entry_name (name : pystr) : Prop := ~ In os_path.sep name.

(** The order of [sorted] on [str]: lexicographic on code points. *)
Fixpoint pystr_leb (s t : pystr) : bool :=
  match s, t with
  | [], _ => true
  | _ :: _, [] => false
  | a :: s', b :: t' =>
      if (a <? b)%N then true
      else if (b <? a)%N then false
      else pystr_leb s' t'
  end.

Fixpoint sorted (l : list pystr) : bool :=
  match l with
  | a :: (b :: _) as l' => pystr_leb a b && sorted l'
  | _ => true
  end.

(** "The result file name is obtained by stripping only the final
    extension", for every candidate. *)
Definition strips_final_extension_of_every_candidate : Prop :=
  forall name,
    entry_name name -> is_audio_file name = true ->
    result_file_name name = spec_result_file_name name.

(** ** Auxiliary notions for the proofs *)

(** One step of reading a decimal number. *)
Definition horner (acc c : N) : N := (10 * acc + (c - 48))%N.

(** A text after which a run of digits ends. *)
Definition ends_digits (rest : pystr) : Prop :=
  match rest with
  | [] => True
  | c :: _ => is_digit c = false
  end.

(** A text after which a number cannot go on. *)
Definition ends_number (rest : pystr) : Prop :=
  match rest with
  | [] => True
  | c :: _ =>
      is_digit c = false /\ c <> ch "." /\ c <> ch "e" /\ c <> ch "E"
      /\ c <> ch "+" /\ c <> ch "-"
  end.



(** *** For the round trip through [json] *)

Section RoundTripNotions.
Context {FL : PyFloat}.
Import json.
Local Open Scope N_scope.





End RoundTripNotions.

(** *** For the file tree *)

Section FileTreeNotions.
Import os.

(** What is seen of a node from outside: nothing, a file with its data,
    or a directory. *)
Definition shape (o : option node) : option (option pystr) :=
  match o with
  | None => None
  | Some (File d) => Some (Some d)
  | Some (Dir _) => Some None
  end.

Definition leaf (n : node) : Prop :=
  match n with File _ => True | Dir es => es = [] end.

(** [r'] has every directory and every file of [r]. *)
Definition grows (r r' : node) : Prop :=
  (forall k, is_dir r k = true -> is_dir r' k = true)
  /\ (forall k d, lookup r k = Some (File d) -> lookup r' k = Some (File d)).

(** [r] and [r'] hold the same files. *)
Definition same_files (r r' : node) : Prop :=
  forall k d, lookup r k = Some (File d) <-> lookup r' k = Some (File d).

End FileTreeNotions.

(** ** A small model of [PyFloat]: the doubles of integral value

    Enough to run the client on examples: a literal is read exactly and
    truncated toward zero, and [repr] writes the integer followed by
    [".0"], as Python does for such doubles below 1e16. *)

(** The value of the exponent group of [NUMBER_RE]. *)
Definition exponent_value (e : pystr) : Z :=
  match e with
  | _ :: c :: d =>
      if N.eqb c (ch "-") then - Z.of_N (digits_value d)
      else if N.eqb c (ch "+") then Z.of_N (digits_value d)
      else Z.of_N (digits_value (c :: d))
  | _ => 0
  end.

Definition integral_of_string (s : pystr) : pyfloat Z :=
  match match_number s with
  | Some (integer, frac, exp, _) =>
      let negative := startswith integer [ch "-"] in
      let int_digits := if negative then tl integer else integer in
      let frac_digits := tl frac in
      let m := Z.of_N (digits_value (int_digits ++ frac_digits)) in
      let scale := exponent_value exp - Z.of_nat (List.length frac_digits) in
      let a := if 0 <=? scale then m * 10 ^ scale else m / 10 ^ (- scale) in
      FFinite (if negative then - a else a)
  | None => FNaN
  end.

Definition integral_repr (z : Z) : pystr := intstr z ++ py ".0".

(** The instance used to run the client on examples. *)
Definition integral_floats : PyFloat := {|
  finite := Z;
  float_of_string := integral_of_string;
  float_repr := integral_repr
|}.
(** ** Requests and traces of a run *)

(** The request that [sendRequest] builds. *)
Definition request_for (host : pystr) (port : Z) (fpath mdata audio : pystr)
  : request :=
  {| url := py "http://" ++ host ++ py ":" ++ intstr port ++ py "/analyze";
     audio_filename := os_path.basename fpath;
     audio_content := audio;
     meta := mdata |}.

(** The paths announced on the output, in order. *)
Definition requesting_lines (lines : list line) : list pystr :=
  flat_map (fun l => match l with
                     | Requesting fpath => [fpath]
                     | Response _ => []
                     end) lines.

(** The entries of a listing that the loop processes. *)
Definition candidates (listing : list pystr) : list pystr :=
  filter is_audio_file listing.

(** The URL of every request of a run. *)
Definition analyze_url `{PyFloat} (args : Namespace) : pystr :=
  py "http://" ++ args_host args ++ py ":" ++ intstr (args_port args)
  ++ py "/analyze".


(** ** Sample directories, servers and command lines *)

(** A string in double quotes. *)
Definition quoted (s : pystr) : pystr := 34%N :: s ++ [34%N].

(** A directory [example] under the root, which is the working
    directory, holding the given entries in the given order. *)
Definition example_directory (entries : list (pystr * os.node))
  : os.filesystem :=
  {| os.root := os.Dir [(py "example", os.Dir entries)]; os.cwd := [] |}.

Definition fresh_world (files : os.filesystem) : world :=
  {| fs := files; posted := []; stdout := [] |}.

(** Two recordings and a file that is not one. *)
Definition recordings : world :=
  fresh_world (example_directory [
    (py "clip1.wav", os.File (py "RIFF"));
    (py "notes.txt", os.File (py "field notes"));
    (py "clip2.mp3", os.File (py "ID3"))
  ]).

(** Two recordings whose names differ in the extension only. *)
Definition twins : world :=
  fresh_world (example_directory [
    (py "a.wav", os.File (py "RIFF"));
    (py "a.mp3", os.File (py "ID3"))
  ]).

(** A directory that lists [b.wav] before [a.wav]. *)
Definition unsorted : world :=
  fresh_world (example_directory [
    (py "b.wav", os.File (py "RIFF b"));
    (py "a.wav", os.File (py "RIFF a"))
  ]).

(** Three recordings. *)
Definition three_recordings : world :=
  fresh_world (example_directory [
    (py "clip1.wav", os.File (py "RIFF"));
    (py "clip2.mp3", os.File (py "ID3"));
    (py "clip3.wav", os.File (py "RIFF"))
  ]).

(** A server that answers every request with the same status and body. *)
Definition answering (code : Z) (body : pystr)
  : list request -> request -> option response :=
  fun _ _ => Some {| status_code := code; text := body |}.

(** A server that answers [[1]] for [a.wav] and [[2]] for any other
    file. *)
Definition numbering : list request -> request -> option response :=
  fun _ req =>
    Some {| status_code := 200;
            text := if pystr_eqb (audio_filename req) (py "a.wav")
                    then py "[1]" else py "[2]" |}.

(** A server that answers 500 with a page of HTML for [clip2.mp3], and an
    empty list of detections for any other file. *)
Definition failing_on_clip2 : list request -> request -> option response :=
  fun _ req =>
    if pystr_eqb (audio_filename req) (py "clip2.mp3")
    then Some {| status_code := 500; text := py "<html>Server Error</html>" |}
    else Some {| status_code := 200; text := py "[]" |}.

(** The same server, with the status of every response replaced. *)
Definition with_status (code : Z)
    (server : list request -> request -> option response)
  : list request -> request -> option response :=
  fun history req =>
    option_map (fun resp => {| status_code := code; text := text resp |})
               (server history req).


(** A body with one detection. *)
Definition detection_body : pystr :=
  py "{" ++ quoted (py "msg") ++ py ": " ++ quoted (py "success") ++ py ", "
  ++ quoted (py "results") ++ py ": [[" ++ quoted (py "Parus major")
  ++ py ", 7]]}".

Section Samples.
Context {FL : PyFloat}.

(** No option given. *)
Definition no_options : command_line := {|
  cl_host := None; cl_port := None; cl_i := None; cl_o := None;
  cl_lat := None; cl_lon := None; cl_week := None; cl_overlap := None;
  cl_sensitivity := None; cl_pmode := None; cl_num_results := None;
  cl_sf_thresh := None; cl_save := false
|}.

(** Only [--o], with the given path. *)
Definition only_o (o : pystr) : command_line := {|
  cl_host := None; cl_port := None; cl_i := None; cl_o := Some o;
  cl_lat := None; cl_lon := None; cl_week := None; cl_overlap := None;
  cl_sensitivity := None; cl_pmode := None; cl_num_results := None;
  cl_sf_thresh := None; cl_save := false
|}.

End Samples.

(** ** Further notions *)

(** The last component of a path. *)
Definition last_name (p : pystr) : pystr := last (os.split_sep p) [].

(** A text of ASCII characters only. *)
Definition ascii_only (s : pystr) : bool := forallb (fun c => (c <? 128)%N) s.

(** A directory with no recording in it. *)
Definition only_notes : world :=
  fresh_world (example_directory [
    (py "notes.txt", os.File (py "field notes"));
    (py "README", os.File (py "recordings of May"))
  ]).

(** A directory where one entry with the name of a recording is a
    directory itself. *)
Definition directory_named_as_recording : world :=
  fresh_world (example_directory [
    (py "takes.wav", os.Dir [(py "take1.wav", os.File (py "RIFF"))])
  ]).

(** Between the tree at the start of a run and the tree later: the
    directories are still there, and a file named as a recording is there
    with some content only if it was there with that content. *)
Definition recordings_kept (r0 r : os.node) : Prop :=
  (forall k, os.is_dir r0 k = true -> os.is_dir r k = true)
  /\ (forall k d, is_audio_file (last k []) = true ->
                  os.lookup r k = Some (os.File d) ->
                  os.lookup r0 k = Some (os.File d)).

(** A server that never answers. *)
Definition unreachable : list request -> request -> option response :=
  fun _ _ => None.

(** A server that answers with the name of the file it was sent, as a JSON
    string (for names that need no escape). *)
Definition echoing_name : list request -> request -> option response :=
  fun _ req =>
    Some {| status_code := 200; text := quoted (audio_filename req) |}.

Section MoreSamples.
Context {FL : PyFloat}.

(** The arguments with another input directory. *)
Definition with_i (i : pystr) (args : Namespace) : Namespace := {|
  args_host := args_host args; args_port := args_port args;
  args_i := i; args_o := args_o args;
  args_lat := args_lat args; args_lon := args_lon args;
  args_week := args_week args; args_overlap := args_overlap args;
  args_sensitivity := args_sensitivity args; args_pmode := args_pmode args;
  args_num_results := args_num_results args;
  args_sf_thresh := args_sf_thresh args; args_save := args_save args
|}.

End MoreSamples.

(** * Properties *)

Local Open Scope Z_scope.

(** ** Strings *)

Lemma pystr_eqb_eq (s t : pystr) : pystr_eqb s t = true <-> s = t.
Proof.
  revert t; induction s as [|a s IH]; intros [|b t]; simpl; split;
    try congruence; try reflexivity.
  - rewrite andb_true_iff, N.eqb_eq, IH. intros [-> ->]; reflexivity.
  - intros [= -> ->]. rewrite N.eqb_refl. simpl. apply IH; reflexivity.
Qed.

Lemma pystr_eqb_refl (s : pystr) : pystr_eqb s s = true.
Proof. apply pystr_eqb_eq; reflexivity. Qed.

Lemma pystr_eqb_neq (s t : pystr) : pystr_eqb s t = false <-> s <> t.
Proof.
  rewrite <- pystr_eqb_eq. destruct (pystr_eqb s t); split; congruence.
Qed.

Lemma endswith_spec (s suffix : pystr) :
  endswith s suffix = true <-> exists r, s = r ++ suffix.
Proof.
  unfold endswith. rewrite andb_true_iff, Nat.leb_le, pystr_eqb_eq. split.
  - intros [Hle Heq].
    exists (firstn (List.length s - List.length suffix) s).
    rewrite <- Heq at 2. symmetry; apply firstn_skipn.
  - intros [r ->]. rewrite length_app. split; [lia|].
    replace (List.length r + List.length suffix - List.length suffix)%nat
      with (List.length r + 0)%nat by lia.
    rewrite skipn_app, Nat.add_comm; simpl.
    rewrite skipn_all. replace (_ - _)%nat with 0%nat by lia. reflexivity.
Qed.

Lemma rfind_from_notin (s : pystr) (c : codepoint) (i found : Z) :
  ~ In c s -> rfind_from s c i found = found.
Proof.
  revert i found; induction s as [|a s IH]; simpl; intros i found H; [reflexivity|].
  destruct (N.eqb_spec a c) as [->|Hne]; [tauto|].
  apply IH; tauto.
Qed.

Lemma rfind_from_last (pre post : pystr) (c : codepoint) (i found : Z) :
  ~ In c post ->
  rfind_from (pre ++ c :: post) c i found = i + len pre.
Proof.
  intros Hpost. revert i found; induction pre as [|a pre IH]; simpl; intros i found.
  - rewrite N.eqb_refl, rfind_from_notin by assumption. unfold len; simpl; lia.
  - rewrite IH. unfold len; simpl List.length. lia.
Qed.

Lemma rfind_notin (s : pystr) (c : codepoint) : ~ In c s -> rfind s c = -1.
Proof. apply rfind_from_notin. Qed.

Lemma rfind_last (pre post : pystr) (c : codepoint) :
  ~ In c post -> rfind (pre ++ c :: post) c = len pre.
Proof. intros H; unfold rfind; rewrite rfind_from_last by assumption; lia. Qed.

Lemma slice_to_app (pre post : pystr) : slice_to (pre ++ post) (len pre) = pre.
Proof.
  unfold slice_to, len. rewrite Nat2Z.id, firstn_app, Nat.sub_diag, firstn_all.
  simpl. apply app_nil_r.
Qed.

Lemma slice_from_app (pre post : pystr) :
  slice_from (pre ++ post) (len pre) = post.
Proof.
  unfold slice_from, len. rewrite Nat2Z.id, skipn_app, Nat.sub_diag, skipn_all.
  reflexivity.
Qed.

(** ** [os.path] *)

Lemma splitext_root_ext (p : pystr) :
  fst (os_path.splitext p) ++ snd (os_path.splitext p) = p.
Proof.
  unfold os_path.splitext.
  destruct (_ <? _); [destruct (forallb _ _)|]; simpl; try apply app_nil_r.
  apply firstn_skipn.
Qed.

(** The extension of a directory entry [root ++ "." ++ ext]. *)
Lemma splitext_entry (root ext : pystr) :
  ~ In os_path.sep (root ++ os_path.extsep :: ext) ->
  ~ In os_path.extsep ext ->
  os_path.splitext (root ++ os_path.extsep :: ext) =
    if forallb (fun c => N.eqb c os_path.extsep) root
    then (root ++ os_path.extsep :: ext, [])
    else (root, os_path.extsep :: ext).
Proof.
  intros Hsep Hext. unfold os_path.splitext.
  rewrite (rfind_notin _ os_path.sep) by assumption.
  rewrite rfind_last by assumption.
  replace (-1 <? len root) with true by (symmetry; apply Z.ltb_lt; unfold len; lia).
  unfold slice. replace (-1 + 1) with 0 by lia.
  rewrite slice_to_app, slice_from_app. reflexivity.
Qed.

Lemma join_relative (a b : pystr) :
  startswith b [os_path.sep] = false ->
  os_path.join a b =
    if nonempty a && negb (endswith a [os_path.sep])
    then a ++ os_path.sep :: b else a ++ b.
Proof.
  intros H. unfold os_path.join. rewrite H.
  destruct a; simpl; [reflexivity|].
  destruct (endswith _ _); reflexivity.
Qed.

Lemma join_inj (a b b' : pystr) :
  startswith b [os_path.sep] = false ->
  startswith b' [os_path.sep] = false ->
  os_path.join a b = os_path.join a b' -> b = b'.
Proof.
  intros H H'. rewrite !join_relative by assumption.
  destruct (_ && _); intros E; apply app_inv_head in E; congruence.
Qed.

Lemma startswith_sep_notin (s : pystr) :
  ~ In os_path.sep s -> startswith s [os_path.sep] = false.
Proof.
  destruct s as [|a s]; [reflexivity|]. intros H. cbn [startswith].
  destruct (N.eqb_spec os_path.sep a) as [E|E]; [|reflexivity].
  exfalso; apply H; left; symmetry; exact E.
Qed.

Lemma splitext_root_notin (p : pystr) (c : codepoint) :
  ~ In c p -> ~ In c (fst (os_path.splitext p)).
Proof.
  intros H Hin. apply H. rewrite <- (splitext_root_ext p).
  apply in_or_app; left; assumption.
Qed.

Lemma result_file_name_notin_sep (audio_file : pystr) :
  ~ In os_path.sep audio_file -> ~ In os_path.sep (result_file_name audio_file).
Proof.
  intros H Hin. unfold result_file_name in Hin.
  apply in_app_or in Hin as [Hin|Hin].
  - revert Hin. apply splitext_root_notin, H.
  - vm_compute in Hin. repeat (destruct Hin as [Hin|Hin]; [discriminate Hin|]).
    exact Hin.
Qed.

Lemma result_file_path_eq_iff (output_directory a b : pystr) :
  ~ In os_path.sep a -> ~ In os_path.sep b ->
  result_file_path output_directory a = result_file_path output_directory b
  <-> fst (os_path.splitext a) = fst (os_path.splitext b).
Proof.
  intros Ha Hb. unfold result_file_path. split.
  - intros E. apply join_inj in E;
      try (apply startswith_sep_notin, result_file_name_notin_sep; assumption).
    unfold result_file_name in E. apply app_inv_tail in E. exact E.
  - intros E. unfold result_file_name. rewrite E. reflexivity.
Qed.

(** ** Result file names *)

Lemma audio_file_split (name : pystr) :
  is_audio_file name = true ->
  exists root ext,
    name = root ++ os_path.extsep :: ext /\ ~ In os_path.extsep ext.
Proof.
  unfold is_audio_file. rewrite orb_true_iff, !endswith_spec.
  intros [[r ->]|[r ->]]; exists r; eexists; (split; [reflexivity|]);
    vm_compute; intuition discriminate.
Qed.

Lemma spec_strip_entry (root ext : pystr) :
  ~ In os_path.extsep ext ->
  spec_strip_final_extension (root ++ os_path.extsep :: ext) = root.
Proof.
  intros H. unfold spec_strip_final_extension.
  rewrite rfind_last by assumption.
  replace (len root <? 0) with false
    by (symmetry; apply Z.ltb_ge; unfold len; lia).
  apply slice_to_app.
Qed.

(** C2, as stated, fails at the candidate [".wav"]: nothing is stripped. *)
Lemma strips_final_extension_counterexample :
  ~ strips_final_extension_of_every_candidate.
Proof.
  intros H. specialize (H (py ".wav")).
  assert (E : result_file_name (py ".wav") = spec_result_file_name (py ".wav")).
  { apply H; [|reflexivity]. vm_compute. intuition discriminate. }
  vm_compute in E. discriminate E.
Qed.

(** C2 (amended): for every candidate entry that has a character other
    than a dot before its last dot, the result file name is the name with
    only its final extension stripped, followed by
    [.BirdNET.results.json]; so [soundscape.wav] yields
    [soundscape.BirdNET.results.json] and [a.b.mp3] yields
    [a.b.BirdNET.results.json]. *)
Theorem result_file_name_strips_final_extension :
  (forall name,
      entry_name name -> is_audio_file name = true ->
      existsb (fun c => negb (N.eqb c os_path.extsep))
              (spec_strip_final_extension name) = true ->
      result_file_name name = spec_result_file_name name)
  /\ result_file_name (py "soundscape.wav")
     = py "soundscape.BirdNET.results.json"
  /\ result_file_name (py "a.b.mp3") = py "a.b.BirdNET.results.json".
Proof.
  split; [|split; reflexivity].
  intros name Hentry Haudio Hdots.
  destruct (audio_file_split name Haudio) as (root & ext & -> & Hext).
  unfold result_file_name, spec_result_file_name.
  rewrite spec_strip_entry in * by assumption.
  rewrite splitext_entry by assumption.
  replace (forallb (fun c => N.eqb c os_path.extsep) root) with false;
    [reflexivity|].
  symmetry. apply not_true_is_false. intros Hall.
  apply existsb_exists in Hdots as (c & Hin & Hc).
  rewrite forallb_forall in Hall. rewrite (Hall c Hin) in Hc. discriminate Hc.
Qed.

Lemma result_file_name_strips_final_extension_witness :
  result_file_name (py "clip1.wav") = spec_result_file_name (py "clip1.wav").
Proof.
  apply (proj1 result_file_name_strips_final_extension).
  - vm_compute. intuition discriminate.
  - reflexivity.
  - reflexivity.
Defined.

(** C10: a file named [.wav] or [.mp3] passes the filter of the loop, and
    [os.path.splitext] finds no extension in it, so the result file is
    [.wav.BirdNET.results.json] (or [.mp3.BirdNET.results.json]): here the
    final extension is not stripped. *)
Theorem leading_dot_name_keeps_its_extension :
  is_audio_file (py ".wav") = true
  /\ is_audio_file (py ".mp3") = true
  /\ os_path.splitext (py ".wav") = (py ".wav", py "")
  /\ os_path.splitext (py ".mp3") = (py ".mp3", py "")
  /\ result_file_name (py ".wav") = py ".wav.BirdNET.results.json"
  /\ result_file_name (py ".mp3") = py ".mp3.BirdNET.results.json"
  /\ result_file_name (py ".wav") <> spec_result_file_name (py ".wav")
  /\ result_file_name (py ".mp3") <> spec_result_file_name (py ".mp3").
Proof. repeat split; try reflexivity; vm_compute; discriminate. Qed.

(** Two entries get the same result file exactly when [os.path.splitext]
    gives them the same root. *)
Lemma same_extension_no_collision (output_directory a b : pystr) :
  entry_name a -> entry_name b ->
  snd (os_path.splitext a) = snd (os_path.splitext b) ->
  a <> b ->
  result_file_path output_directory a <> result_file_path output_directory b.
Proof.
  intros Ha Hb Hext Hne E. apply Hne.
  apply result_file_path_eq_iff in E; try assumption.
  rewrite <- (splitext_root_ext a), <- (splitext_root_ext b). congruence.
Qed.

(** ** Numbers as text *)


(** Name the quotients and remainders, for [lia]. *)
Ltac name_divmod :=
  repeat match goal with
    | |- context [N.modulo ?a ?b] =>
        let m := fresh "m" in set (m := N.modulo a b) in *; clearbody m
    | |- context [N.div ?a ?b] =>
        let q := fresh "q" in set (q := N.div a b) in *; clearbody q
    | H : context [N.modulo ?a ?b] |- _ =>
        let m := fresh "m" in set (m := N.modulo a b) in *; clearbody m
    | H : context [N.div ?a ?b] |- _ =>
        let q := fresh "q" in set (q := N.div a b) in *; clearbody q
    end.

Section Numbers.
Local Open Scope N_scope.

Lemma is_digit_spec (c : codepoint) :
  is_digit c = true <-> (48 <= c <= 57)%N.
Proof. unfold is_digit. rewrite andb_true_iff, !N.leb_le. tauto. Qed.

Lemma digit_of_mod (n : N) : is_digit (48 + n mod 10) = true.
Proof.
  apply is_digit_spec. pose proof (N.mod_lt n 10 ltac:(discriminate)).
  name_divmod. lia.
Qed.

Lemma digits_value_fold (d : pystr) : digits_value d = fold_left horner d 0%N.
Proof. reflexivity. Qed.

(** What [digits_of] yields: digits in front of [acc], with the value [n],
    and no leading zero when [n] is not zero. *)
Lemma digits_of_spec (fuel : nat) (n : N) (acc : pystr) :
  (n < 2 ^ N.of_nat fuel)%N ->
  exists ds,
    digits_of fuel n acc = ds ++ acc
    /\ Forall (fun c => is_digit c = true) ds
    /\ (forall a, fold_left horner (ds ++ acc) a
                  = fold_left horner acc (10 ^ N.of_nat (List.length ds) * a + n)%N)
    /\ (n <> 0%N -> exists c t, ds = c :: t /\ c <> 48%N).
Proof.
  revert n acc. induction fuel as [|fuel IH]; intros n acc Hn.
  - assert (n = 0%N) by (change (2 ^ N.of_nat 0)%N with 1%N in Hn; lia). subst.
    exists []. repeat split; auto.
    + intros a. cbn [app List.length]. f_equal.
      change (N.of_nat 0) with 0%N. rewrite N.pow_0_r. lia.
    + congruence.
  - cbn [digits_of].
    assert (Hdm := N.div_mod n 10 ltac:(discriminate)).
    assert (Hm := N.mod_lt n 10 ltac:(discriminate)).
    destruct (N.eqb_spec (n / 10) 0) as [Hz|Hnz].
    + exists [(48 + n mod 10)%N]. repeat split.
      * constructor; [apply digit_of_mod|constructor].
      * intros a. cbn [app fold_left List.length]. f_equal. unfold horner.
        change (10 ^ N.of_nat 1)%N with 10%N. name_divmod. lia.
      * intros Hn0. eexists _, []. split; [reflexivity|]. name_divmod. lia.
    + destruct (IH (n / 10)%N ((48 + n mod 10)%N :: acc)) as (ds & E & Hd & Hv & Hh).
      { rewrite Nat2N.inj_succ, N.pow_succ_r' in Hn.
        apply N.Div0.div_lt_upper_bound. lia. }
      exists (ds ++ [(48 + n mod 10)%N]). repeat split.
      * rewrite E, <- app_assoc. reflexivity.
      * apply Forall_app; split; [exact Hd|].
        constructor; [apply digit_of_mod|constructor].
      * intros a. rewrite <- app_assoc. cbn [app]. rewrite Hv.
        cbn [fold_left]. f_equal. unfold horner.
        rewrite length_app. cbn [List.length].
        rewrite Nat.add_1_r, Nat2N.inj_succ, N.pow_succ_r'.
        set (pw := (10 ^ N.of_nat (List.length ds))%N). name_divmod. nia.
      * intros _. destruct (Hh Hnz) as (c & t & -> & Hc).
        exists c, (t ++ [(48 + n mod 10)%N]). split; [reflexivity|exact Hc].
Qed.

Lemma N_digits_spec (n : N) :
  Forall (fun c => is_digit c = true) (N_digits n)
  /\ digits_value (N_digits n) = n
  /\ (n <> 0%N -> exists c t, N_digits n = c :: t /\ c <> 48%N).
Proof.
  unfold N_digits.
  destruct (digits_of_spec (S (N.to_nat (N.log2 n))) n [])
    as (ds & E & Hd & Hv & Hh).
  { rewrite Nat2N.inj_succ, N2Nat.id.
    destruct n as [|p]; [reflexivity|].
    apply N.log2_spec. reflexivity. }
  rewrite E, app_nil_r in *. repeat split; auto.
  rewrite digits_value_fold. specialize (Hv 0%N).
  rewrite Hv. cbn [fold_left]. lia.
Qed.



Lemma ends_number_digits (rest : pystr) : ends_number rest -> ends_digits rest.
Proof. destruct rest; [trivial|]. intros (H & _). exact H. Qed.

Lemma span_digits_app_digits (s rest : pystr) :
  ends_digits rest ->
  span_digits (s ++ rest) = (fst (span_digits s), snd (span_digits s) ++ rest).
Proof.
  intros Hrest. induction s as [|c s IH]; cbn [app span_digits].
  - destruct rest as [|c rest]; [reflexivity|].
    cbn [span_digits]. cbn [ends_digits] in Hrest. rewrite Hrest. reflexivity.
  - destruct (is_digit c); [|reflexivity].
    rewrite IH. destruct (span_digits s). reflexivity.
Qed.

Lemma span_digits_app (s rest : pystr) :
  ends_number rest ->
  span_digits (s ++ rest) = (fst (span_digits s), snd (span_digits s) ++ rest).
Proof. intros H. apply span_digits_app_digits, ends_number_digits, H. Qed.

Lemma span_digits_eq (s : pystr) :
  s = fst (span_digits s) ++ snd (span_digits s).
Proof.
  induction s as [|c s IH]; cbn [span_digits]; [reflexivity|].
  destruct (is_digit c); [|reflexivity].
  destruct (span_digits s); simpl in *. congruence.
Qed.

Lemma span_digits_all (ds rest : pystr) :
  Forall (fun c => is_digit c = true) ds -> ends_digits rest ->
  span_digits (ds ++ rest) = (ds, rest).
Proof.
  intros Hd Hrest. rewrite span_digits_app_digits by assumption.
  assert (E : span_digits ds = (ds, [])).
  { induction Hd as [|c ds Hc _ IH]; cbn [span_digits]; [reflexivity|].
    rewrite Hc, IH. reflexivity. }
  rewrite E. reflexivity.
Qed.

Lemma match_integer_app (s rest i r : pystr) :
  ends_digits rest ->
  match_integer s = Some (i, r) ->
  match_integer (s ++ rest) = Some (i, r ++ rest) /\ s = i ++ r.
Proof.
  intros Hrest. unfold match_integer.
  assert (Hcore : forall sign s1,
    match s1 with
    | c :: s2 =>
        if N.eqb c (ch "0") then Some (sign ++ [c], s2)
        else if is_digit c
             then let (d, r) := span_digits s2 in Some (sign ++ c :: d, r)
             else None
    | [] => None
    end = Some (i, r) ->
    match s1 ++ rest with
    | c :: s2 =>
        if N.eqb c (ch "0") then Some (sign ++ [c], s2)
        else if is_digit c
             then let (d, r) := span_digits s2 in Some (sign ++ c :: d, r)
             else None
    | [] => None
    end = Some (i, r ++ rest) /\ sign ++ s1 = i ++ r).
  { intros sign [|c s2]; [discriminate|]. cbn [app].
    destruct (N.eqb c (ch "0")).
    - intros [= <- <-]. rewrite <- app_assoc. split; reflexivity.
    - destruct (is_digit c); [|discriminate].
      rewrite span_digits_app_digits by assumption.
      pose proof (span_digits_eq s2) as E.
      destruct (span_digits s2) as [d r']; simpl in *.
      intros [= <- <-]. rewrite <- app_assoc. split; [reflexivity|].
      simpl. rewrite E at 1. reflexivity. }
  destruct s as [|c s']; [discriminate|]. cbn [app].
  destruct (N.eqb c (ch "-")).
  - intros H. apply (Hcore [c] s') in H. exact H.
  - intros H. apply (Hcore [] (c :: s')) in H. exact H.
Qed.

Lemma match_frac_app (s rest : pystr) :
  ends_number rest ->
  match_frac (s ++ rest) = (fst (match_frac s), snd (match_frac s) ++ rest)
  /\ s = fst (match_frac s) ++ snd (match_frac s).
Proof.
  intros Hrest. destruct s as [|c s']; cbn [app match_frac].
  - split; [|reflexivity]. destruct rest as [|c rest]; [reflexivity|].
    cbn [match_frac]. destruct Hrest as (_ & Hdot & _).
    apply N.eqb_neq in Hdot. rewrite Hdot. reflexivity.
  - destruct (N.eqb c (ch ".")); [|split; reflexivity].
    rewrite span_digits_app by assumption.
    pose proof (span_digits_eq s') as E.
    destruct (span_digits s') as [[|d ds] r]; simpl in *;
      (split; [reflexivity|first [reflexivity|rewrite E at 1; reflexivity]]).
Qed.

Lemma match_exp_app (s rest : pystr) :
  ends_number rest ->
  match_exp (s ++ rest) = (fst (match_exp s), snd (match_exp s) ++ rest)
  /\ s = fst (match_exp s) ++ snd (match_exp s).
Proof.
  intros Hrest. destruct s as [|c s']; cbn [app match_exp].
  - split; [|reflexivity]. destruct rest as [|c rest]; [reflexivity|].
    cbn [match_exp]. destruct Hrest as (_ & _ & He & HE & _).
    apply N.eqb_neq in He, HE. rewrite He, HE. reflexivity.
  - destruct (N.eqb c (ch "e") || N.eqb c (ch "E")); [|split; reflexivity].
    destruct s' as [|c2 t]; cbn [app].
    + split; [|reflexivity].
      assert (Es : span_digits rest = ([], rest))
        by (apply (span_digits_app [] rest Hrest)).
      destruct rest as [|c2 t]; [reflexivity|].
      destruct Hrest as (_ & _ & _ & _ & Hp & Hm).
      apply N.eqb_neq in Hp, Hm. rewrite Hp, Hm. cbn [orb].
      rewrite Es. reflexivity.
    + destruct (N.eqb c2 (ch "-") || N.eqb c2 (ch "+")).
      * rewrite span_digits_app by assumption.
        pose proof (span_digits_eq t) as E.
        destruct (span_digits t) as [[|d ds] r]; simpl in *;
          (split; [reflexivity|first [reflexivity|rewrite E at 1; reflexivity]]).
      * change (c2 :: t ++ rest) with ((c2 :: t) ++ rest).
        rewrite span_digits_app by assumption.
        pose proof (span_digits_eq (c2 :: t)) as E.
        destruct (span_digits (c2 :: t)) as [[|d ds] r]; simpl in *;
          (split; [reflexivity|first [reflexivity|rewrite E at 1; reflexivity]]).
Qed.

Lemma match_number_app (s rest i f e r : pystr) :
  ends_number rest ->
  match_number s = Some (i, f, e, r) ->
  match_number (s ++ rest) = Some (i, f, e, r ++ rest)
  /\ s = i ++ f ++ e ++ r.
Proof.
  intros Hrest. unfold match_number.
  destruct (match_integer s) as [[i' s1]|] eqn:Ei; [|discriminate].
  destruct (match_integer_app _ _ _ _ (ends_number_digits _ Hrest) Ei)
    as (-> & ->).
  destruct (match_frac_app s1 rest Hrest) as (-> & E1).
  destruct (match_frac s1) as [f' s2]; simpl in *. subst s1.
  destruct (match_exp_app s2 rest Hrest) as (-> & E2).
  destruct (match_exp s2) as [e' s3]; simpl in *. subst s2.
  intros [= <- <- <- <-]. split; reflexivity.
Qed.


Lemma match_integer_intstr (z : Z) (rest : pystr) :
  ends_digits rest ->
  match_integer (intstr z ++ rest) = Some (intstr z, rest).
Proof.
  intros Hrest.
  assert (Ei : match_integer (intstr z) = Some (intstr z, [])).
  { assert (Hpos : forall p sign,
      N.eqb (hd 0%N (N_digits (Npos p))) (ch "-") = false /\
      match N_digits (Npos p) with
      | c :: s2 =>
          if N.eqb c (ch "0") then Some (sign ++ [c], s2)
          else if is_digit c
               then let (d, r) := span_digits s2 in Some (sign ++ c :: d, r)
               else None
      | [] => None
      end = Some (sign ++ N_digits (Npos p), [])).
    { intros p sign.
      destruct (N_digits_spec (Npos p)) as (Hd & _ & Hh).
      destruct Hh as (c & t & E & Hc); [discriminate|]. rewrite E in *.
      inversion Hd as [|? ? Hdc Hdt]; subst.
      split.
      - simpl. apply N.eqb_neq. intros ->. discriminate Hdc.
      - apply N.eqb_neq in Hc. change (ch "0") with 48%N. rewrite Hc, Hdc.
        pose proof (span_digits_all t [] Hdt I) as Es.
        rewrite app_nil_r in Es. rewrite Es. reflexivity. }
    destruct z as [|p|p]; [reflexivity| |].
    - unfold match_integer. cbn [intstr].
      destruct (Hpos p []) as (Hm & Hr).
      destruct (N_digits (Npos p)) as [|c t]; [discriminate Hr|].
      cbn [hd] in Hm. rewrite Hm. exact Hr.
    - unfold match_integer. cbn [intstr]. rewrite N.eqb_refl.
      destruct (Hpos p [ch "-"]) as (_ & Hr). exact Hr. }
  apply (match_integer_app _ rest) in Ei; [|assumption]. apply Ei.
Qed.


Lemma float_literal_app (s rest : pystr) :
  is_float_literal s = true -> ends_number rest ->
  exists i f e,
    match_number (s ++ rest) = Some (i, f, e, rest)
    /\ s = i ++ f ++ e
    /\ nonempty f || nonempty e = true.
Proof.
  unfold is_float_literal. intros H Hrest.
  destruct (match_number s) as [[[[i f] e] r]|] eqn:E; [|discriminate].
  destruct r; [|discriminate].
  destruct (match_number_app _ _ _ _ _ _ Hrest E) as (E1 & E2).
  exists i, f, e. rewrite app_nil_r in E2. auto.
Qed.

End Numbers.

(** ** JSON strings: the decoder reads back what the encoder writes *)

Section JsonStrings.
Local Open Scope N_scope.
Import json.



Lemma lor_mul_pow2 (x y k : N) :
  N.lor (x * 2 ^ k) (y mod 2 ^ k) = x * 2 ^ k + y mod 2 ^ k.
Proof.
  assert (H : N.land (x * 2 ^ k) (y mod 2 ^ k) = 0).
  { apply N.bits_inj. intros i. rewrite N.land_spec, N.bits_0.
    destruct (N.lt_ge_cases i k) as [Hlt|Hge].
    - rewrite N.mul_pow2_bits_low by assumption. reflexivity.
    - rewrite N.mod_pow2_bits_high by assumption. apply andb_false_r. }
  rewrite <- N.lxor_lor by assumption. symmetry. apply N.add_nocarry_lxor, H.
Qed.


Lemma join_surrogates (h l : N) :
  h < 1024 -> l < 1024 ->
  N.lor (N.shiftl (0xd800 + h - 0xd800) 10) (0xdc00 + l - 0xdc00)
  = h * 1024 + l.
Proof.
  intros Hh Hl. replace (0xd800 + h - 0xd800) with h by lia.
  replace (0xdc00 + l - 0xdc00) with l by lia.
  rewrite N.shiftl_mul_pow2. rewrite <- (N.mod_small l (2 ^ 10)) by exact Hl.
  rewrite lor_mul_pow2. reflexivity.
Qed.

(** How [scanstring] goes on after each kind of character. *)


Lemma scanstring_escape (esc char : codepoint) (s : pystr) :
  esc <> 117 -> backslash esc = Some char ->
  scanstring (92 :: esc :: s) = push char (scanstring s).
Proof.
  intros H1 H2. cbn [scanstring].
  change (N.eqb 92 34) with false. change (N.eqb 92 (ch "\")) with true.
  cbv iota. change (ch "u") with 117. apply N.eqb_neq in H1. rewrite H1, H2.
  reflexivity.
Qed.







End JsonStrings.

(** ** The scanner: what it consumes and what it builds *)

Section ScanHelpers.
Context {FL : PyFloat}.
Import json.

Lemma skip_ws_length (s : pystr) :
  (List.length (skip_ws s) <= List.length s)%nat.
Proof.
  induction s as [|c s IH]; cbn [skip_ws]; [lia|].
  destruct (is_ws c); cbn [List.length]; lia.
Qed.



Lemma valid_str_app (s t : pystr) :
  valid_str (s ++ t) = valid_str s && valid_str t.
Proof. apply forallb_app. Qed.

Lemma valid_str_skip_ws (s : pystr) :
  valid_str s = true -> valid_str (skip_ws s) = true.
Proof.
  induction s as [|c s IH]; cbn [skip_ws]; [reflexivity|].
  intros H. destruct (is_ws c); [|exact H].
  cbn [valid_str forallb] in H. apply andb_prop in H as [_ H]. apply IH, H.
Qed.

Lemma valid_str_skipn (n : nat) (s : pystr) :
  valid_str s = true -> valid_str (skipn n s) = true.
Proof.
  revert s; induction n as [|n IH]; intros [|c s] H; cbn [skipn]; auto.
  cbn [valid_str forallb] in H. apply andb_prop in H as [_ H]. apply IH, H.
Qed.

Lemma push_some (c : codepoint) (r : option (pystr * pystr)) str rest :
  push c r = Some (str, rest) ->
  exists str', r = Some (str', rest) /\ str = c :: str'.
Proof.
  destruct r as [[str' rest']|]; cbn [push]; [|discriminate].
  intros [= <- <-]. eauto.
Qed.

Lemma hex_value_bound (c : codepoint) (v : N) :
  hex_value c = Some v -> (v < 16)%N.
Proof.
  unfold hex_value, is_digit.
  destruct ((48 <=? c)%N && (c <=? 57)%N) eqn:E1.
  { apply andb_prop in E1 as [H1 H2]. apply N.leb_le in H1, H2.
    intros [= <-]. lia. }
  destruct ((97 <=? c)%N && (c <=? 102)%N) eqn:E2.
  { apply andb_prop in E2 as [H1 H2]. apply N.leb_le in H1, H2.
    intros [= <-]. lia. }
  destruct ((65 <=? c)%N && (c <=? 70)%N) eqn:E3; [|discriminate].
  apply andb_prop in E3 as [H1 H2]. apply N.leb_le in H1, H2.
  intros [= <-]. lia.
Qed.

Lemma decode_uXXXX_bound (a b c d : codepoint) (n : N) :
  decode_uXXXX a b c d = Some n -> (n < 65536)%N.
Proof.
  unfold decode_uXXXX.
  destruct (hex_value a) as [x|] eqn:Ex; [|discriminate].
  destruct (hex_value b) as [y|] eqn:Ey; [|discriminate].
  destruct (hex_value c) as [z|] eqn:Ez; [|discriminate].
  destruct (hex_value d) as [w|] eqn:Ew; [|discriminate].
  apply hex_value_bound in Ex, Ey, Ez, Ew. intros [= <-]. lia.
Qed.

Lemma backslash_bound (esc char : codepoint) :
  backslash esc = Some char -> (char < 0x110000)%N.
Proof.
  unfold backslash.
  repeat match goal with
         | |- context [if ?b then _ else _] => destruct b
         end; intros [= <-]; reflexivity.
Qed.

Lemma joined_bound (uni uni2 : N) :
  is_high_surrogate uni = true -> is_low_surrogate uni2 = true ->
  (0x10000 + N.lor (N.shiftl (uni - 0xd800) 10) (uni2 - 0xdc00) < 0x110000)%N.
Proof.
  unfold is_high_surrogate, is_low_surrogate. intros Hh Hl.
  apply andb_prop in Hh as [H1 H2]. apply andb_prop in Hl as [H3 H4].
  apply N.leb_le in H1, H2, H3, H4.
  replace uni with (0xd800 + (uni - 0xd800))%N at 1 by lia.
  replace uni2 with (0xdc00 + (uni2 - 0xdc00))%N at 1 by lia.
  rewrite join_surrogates by lia. lia.
Qed.

(** [scanstring] consumes at least the closing quote, and decodes a [str]
    from a [str]. *)
Lemma scanstring_consumes (n : nat) :
  forall s str r,
    (List.length s <= n)%nat ->
    scanstring s = Some (str, r) ->
    (List.length r < List.length s)%nat
    /\ (valid_str s = true -> valid_str str = true /\ valid_str r = true).
Proof.
  induction n as [|n IH]; intros s str r Hlen.
  { destruct s; [discriminate|cbn [List.length] in Hlen; lia]. }
  assert (Hrec : forall c s' str' pre,
             (List.length s' <= n)%nat ->
             s = pre ++ s' -> pre <> [] ->
             (valid_str s = true -> (c < 0x110000)%N) ->
             push c (scanstring s') = Some (str', r) ->
             (List.length r < List.length s)%nat
             /\ (valid_str s = true ->
                 valid_str str' = true /\ valid_str r = true)).
  { intros c s' str' pre Hl -> Hpre Hc Hp.
    apply push_some in Hp as (str0 & E & ->).
    destruct (IH _ _ _ Hl E) as (H1 & H2).
    rewrite length_app. split.
    - destruct pre; [congruence|cbn [List.length]; lia].
    - intros Hv. specialize (Hc Hv). rewrite valid_str_app in Hv.
      apply andb_prop in Hv as [_ Hv].
      destruct (H2 Hv) as (H3 & H4). split; [|exact H4].
      cbn [valid_str forallb]. apply N.ltb_lt in Hc. rewrite Hc. exact H3. }
  destruct s as [|c s1]; [discriminate|]. cbn [List.length] in Hlen.
  cbn [scanstring].
  destruct (N.eqb c 34).
  { intros [= <- <-]. cbn [List.length]. split; [lia|].
    cbn [valid_str forallb]. intros H. apply andb_prop in H as [_ H].
    split; [reflexivity|exact H]. }
  destruct (N.eqb c (ch "\")).
  - destruct s1 as [|esc s2]; [discriminate|].
    destruct (N.eqb esc (ch "u")).
    + destruct s2 as [|h1 [|h2 [|h3 [|h4 s3]]]]; try discriminate.
      destruct (decode_uXXXX h1 h2 h3 h4) as [uni|] eqn:Ed; [|discriminate].
      pose proof (decode_uXXXX_bound _ _ _ _ _ Ed) as Hu.
      assert (Hsingle :
                push uni (scanstring s3) = Some (str, r) ->
                (List.length r
                 < List.length (c :: esc :: h1 :: h2 :: h3 :: h4 :: s3))%nat
                /\ (valid_str (c :: esc :: h1 :: h2 :: h3 :: h4 :: s3) = true ->
                    valid_str str = true /\ valid_str r = true)).
      { apply (Hrec uni s3 str [c; esc; h1; h2; h3; h4]);
          [cbn [List.length] in *; lia|reflexivity|discriminate|intros _; lia]. }
      cbv zeta.
      destruct (is_high_surrogate uni) eqn:Hh; [|exact Hsingle].
      destruct s3 as [|b [|u [|k1 [|k2 [|k3 [|k4 s4]]]]]]; try exact Hsingle.
      destruct (N.eqb b (ch "\") && N.eqb u (ch "u")); [|exact Hsingle].
      destruct (decode_uXXXX k1 k2 k3 k4) as [uni2|] eqn:Ed2; [|discriminate].
      destruct (is_low_surrogate uni2) eqn:Hl; [|exact Hsingle].
      apply (Hrec _ s4 str [c; esc; h1; h2; h3; h4; b; u; k1; k2; k3; k4]);
        [cbn [List.length] in *; lia|reflexivity|discriminate|].
      intros _. apply joined_bound; assumption.
    + destruct (backslash esc) as [char|] eqn:Eb; [|discriminate].
      apply (Hrec char s2 str [c; esc]);
        [cbn [List.length] in *; lia|reflexivity|discriminate|].
      intros _. eapply backslash_bound, Eb.
  - destruct (c <? 32)%N; [discriminate|].
    apply (Hrec c s1 str [c]); [lia|reflexivity|discriminate|].
    cbn [valid_str forallb]. intros H. apply andb_prop in H as [H _].
    apply N.ltb_lt, H.
Qed.

Lemma scanstring_length (s str r : pystr) :
  scanstring s = Some (str, r) -> (List.length r < List.length s)%nat.
Proof. intros H. eapply scanstring_consumes; [reflexivity|exact H]. Qed.

Lemma scanstring_valid (s str r : pystr) :
  scanstring s = Some (str, r) -> valid_str s = true ->
  valid_str str = true /\ valid_str r = true.
Proof. intros H. eapply scanstring_consumes; [reflexivity|exact H]. Qed.

End ScanHelpers.

(** ** The scanner: recursion bound, consumption, and well-formed values *)

Section ScanFuel.
Context {FL : PyFloat}.
Import json.






Lemma existsb_dict_set (d : list (pystr * value)) (k k' : pystr) (v : value) :
  existsb (pystr_eqb k') (map fst (dict_set d k v))
  = existsb (pystr_eqb k') (map fst d) || pystr_eqb k' k.
Proof.
  induction d as [|[k0 v0] d IH]; cbn [dict_set map fst existsb].
  - apply orb_comm.
  - destruct (pystr_eqb k0 k) eqn:E; cbn [map fst existsb].
    + apply pystr_eqb_eq in E. subst k0.
      destruct (pystr_eqb k' k); [reflexivity|]. rewrite orb_false_r.
      reflexivity.
    + rewrite IH, orb_assoc. reflexivity.
Qed.

Lemma dict_set_ok (d : list (pystr * value)) (k : pystr) (v : value) :
  forallb item_ok d = true -> distinct (map fst d) = true ->
  item_ok (k, v) = true ->
  forallb item_ok (dict_set d k v) = true
  /\ distinct (map fst (dict_set d k v)) = true.
Proof.
  intros Hd Hdis Hkv. induction d as [|[k0 v0] d IH]; cbn [dict_set].
  - cbn [forallb map fst distinct existsb]. rewrite Hkv. auto.
  - cbn [forallb] in Hd. apply andb_prop in Hd as [H0 Hd].
    cbn [map fst distinct] in Hdis. apply andb_prop in Hdis as [Hn Hdis].
    destruct (pystr_eqb k0 k) eqn:E.
    + apply pystr_eqb_eq in E. subst k0.
      cbn [forallb map fst distinct]. rewrite Hkv, Hd, Hn, Hdis. auto.
    + destruct (IH Hd Hdis) as (I1 & I2).
      cbn [forallb map fst distinct]. rewrite H0, I1, I2.
      rewrite existsb_dict_set. apply negb_true_iff in Hn. rewrite Hn, E. auto.
Qed.

Lemma dict_ok (pairs : list (pystr * value)) :
  forallb item_ok pairs = true ->
  forallb item_ok (dict pairs) = true
  /\ distinct (map fst (dict pairs)) = true.
Proof.
  unfold dict.
  assert (H : forall l acc,
             forallb item_ok acc = true -> distinct (map fst acc) = true ->
             forallb item_ok l = true ->
             forallb item_ok
               (fold_left (fun d kv => dict_set d (fst kv) (snd kv)) l acc)
             = true
             /\ distinct (map fst
                  (fold_left (fun d kv => dict_set d (fst kv) (snd kv)) l acc))
                = true).
  { induction l as [|[k v] l IH]; intros acc Ha Hd Hl; cbn [fold_left];
      [auto|].
    cbn [forallb] in Hl. apply andb_prop in Hl as [Hkv Hl].
    destruct (dict_set_ok acc k v Ha Hd Hkv) as (H1 & H2).
    apply IH; assumption. }
  intros Hp. apply H; [reflexivity|reflexivity|exact Hp].
Qed.

Lemma well_formed_dict (d : list (pystr * value)) :
  well_formed (JDict d) = forallb item_ok d && distinct (map fst d).
Proof. reflexivity. Qed.

(** [scan_atom] *)

Lemma startswith_nonempty (s p : pystr) :
  startswith s p = true -> p <> [] -> s <> [].
Proof. destruct p; [congruence|]. destruct s; [discriminate|congruence]. Qed.

Lemma skipn_shorter (n : nat) (s : pystr) :
  s <> [] -> (0 < n)%nat -> (List.length (skipn n s) < List.length s)%nat.
Proof.
  intros Hs Hn. rewrite length_skipn. destruct s; [congruence|].
  cbn [List.length]. lia.
Qed.

Lemma match_integer_nonempty (s i r : pystr) :
  match_integer s = Some (i, r) -> i <> [].
Proof.
  unfold match_integer.
  destruct (match s with
            | [] => ([], s)
            | c :: s' => if N.eqb c (ch "-") then ([c], s') else ([], s)
            end) as [sign s1].
  destruct s1 as [|c s2]; [discriminate|].
  destruct (N.eqb c (ch "0")).
  - intros [= <- _] E. apply app_eq_nil in E as [_ E]. discriminate E.
  - destruct (is_digit c); [|discriminate].
    destruct (span_digits s2). intros [= <- _] E.
    apply app_eq_nil in E as [_ E]. discriminate E.
Qed.

Lemma match_number_consumes (s i f e r : pystr) :
  match_number s = Some (i, f, e, r) ->
  (List.length r < List.length s)%nat
  /\ (valid_str s = true -> valid_str r = true).
Proof.
  intros H.
  destruct (match_number_app s [] i f e r I H) as (_ & E).
  assert (Hi : i <> []).
  { unfold match_number in H.
    destruct (match_integer s) as [[i' s1]|] eqn:Ei; [|discriminate].
    destruct (match_frac s1), (match_exp _). injection H as <- _ _ _.
    eapply match_integer_nonempty, Ei. }
  split.
  - rewrite E, !length_app. destruct i; [congruence|cbn [List.length]; lia].
  - rewrite E, !valid_str_app. intros Hv.
    apply andb_prop in Hv as [_ Hv]. apply andb_prop in Hv as [_ Hv].
    apply andb_prop in Hv as [_ Hv]. exact Hv.
Qed.

Lemma scan_atom_consumes (s : pystr) (v : value) (r : pystr) :
  scan_atom s = Scanned v r ->
  (List.length r < List.length s)%nat
  /\ (valid_str s = true -> valid_str r = true)
  /\ well_formed v = true.
Proof.
  unfold scan_atom.
  assert (Hskip : forall p n v0,
             startswith s p = true -> p <> [] -> (0 < n)%nat ->
             well_formed v0 = true ->
             Scanned v0 (skipn n s) = Scanned v r ->
             (List.length r < List.length s)%nat
             /\ (valid_str s = true -> valid_str r = true)
             /\ well_formed v = true).
  { intros p n v0 Hp Hne Hn Hw [= <- <-]. repeat split.
    - apply skipn_shorter; [eapply startswith_nonempty; eassumption|exact Hn].
    - apply valid_str_skipn.
    - exact Hw. }
  destruct (startswith s (py "null")) eqn:E1;
    [apply (Hskip _ _ _ E1); [discriminate|lia|reflexivity]|].
  destruct (startswith s (py "true")) eqn:E2;
    [apply (Hskip _ _ _ E2); [discriminate|lia|reflexivity]|].
  destruct (startswith s (py "false")) eqn:E3;
    [apply (Hskip _ _ _ E3); [discriminate|lia|reflexivity]|].
  destruct (match_number s) as [[[[i f] e] rest]|] eqn:En.
  - destruct (match_number_consumes _ _ _ _ _ En) as (H1 & H2).
    destruct (nonempty f || nonempty e); intros [= <- <-]; auto.
  - destruct (startswith s (py "NaN")) eqn:E4;
      [apply (Hskip _ _ _ E4); [discriminate|lia|reflexivity]|].
    destruct (startswith s (py "Infinity")) eqn:E5;
      [apply (Hskip _ _ _ E5); [discriminate|lia|reflexivity]|].
    destruct (startswith s (py "-Infinity")) eqn:E6;
      [apply (Hskip _ _ _ E6); [discriminate|lia|reflexivity]|].
    discriminate.
Qed.

Lemma scan_atom_fuel (s : pystr) : scan_atom s <> OutOfFuel.
Proof.
  unfold scan_atom.
  repeat match goal with
         | |- context [if ?b then _ else _] => destruct b
         | |- context [match ?x with Some _ => _ | None => _ end] =>
             destruct x as [[[[? ?] ?] ?]|]
         end; discriminate.
Qed.

(** What a successful scan consumes and builds. *)
Lemma scan_consumes (fuel : nat) :
  (forall s v r,
      scan_once fuel s = Scanned v r ->
      (List.length r < List.length s)%nat
      /\ (valid_str s = true -> valid_str r = true /\ well_formed v = true))
  /\ (forall s values v r,
         JSONArray fuel s values = Scanned v r ->
         (List.length r < List.length s)%nat
         /\ (valid_str s = true -> forallb well_formed values = true ->
             valid_str r = true /\ well_formed v = true))
  /\ (forall s pairs v r,
         JSONObject fuel s pairs = Scanned v r ->
         (List.length r < List.length s)%nat
         /\ (valid_str s = true -> forallb item_ok pairs = true ->
             valid_str r = true /\ well_formed v = true)).
Proof.
  induction fuel as [|fuel (IHs & IHa & IHo)];
    [repeat split; intros; discriminate|].
  split; [|split].
  - (* scan_once *)
    intros [|c s] v r; cbn [scan_once]; [discriminate|].
    destruct (N.eqb c 34).
    { destruct (scanstring s) as [[str rest]|] eqn:E; [|discriminate].
      intros [= <- <-]. split.
      - apply scanstring_length in E. cbn [List.length]. lia.
      - cbn [valid_str forallb]. intros H. apply andb_prop in H as [_ H].
        destruct (scanstring_valid _ _ _ E H). auto. }
    destruct (N.eqb c (ch "{")).
    { pose proof (skip_ws_length s) as Hl.
      pose proof (valid_str_skip_ws s) as Hv.
      destruct (skip_ws s) as [|c0 s3]; [discriminate|].
      cbn [List.length] in Hl.
      assert (Hv3 : valid_str (c :: s) = true -> valid_str s3 = true).
      { cbn [valid_str forallb]. intros H. apply andb_prop in H as [_ H].
        apply Hv in H. cbn [valid_str forallb] in H.
        apply andb_prop in H as [_ H]. exact H. }
      destruct (N.eqb c0 (ch "}")).
      { intros [= <- <-]. cbn [List.length]. split; [lia|auto]. }
      destruct (N.eqb c0 34); [|discriminate].
      intros H. apply IHo in H as (H1 & H2). cbn [List.length].
      split; [lia|]. intros Hvs. apply H2; [auto|reflexivity]. }
    destruct (N.eqb c (ch "[")).
    { pose proof (skip_ws_length s) as Hl.
      pose proof (valid_str_skip_ws s) as Hv.
      destruct (skip_ws s) as [|c0 s3]; [discriminate|].
      destruct (N.eqb c0 (ch "]")).
      { intros [= <- <-]. cbn [List.length] in *. split; [lia|].
        cbn [valid_str forallb]. intros H. apply andb_prop in H as [_ H].
        apply Hv in H. cbn [valid_str forallb] in H.
        apply andb_prop in H as [_ H]. auto. }
      intros H. apply IHa in H as (H1 & H2). cbn [List.length] in *.
      split; [lia|]. cbn [valid_str forallb]. intros Hvs.
      apply andb_prop in Hvs as [_ Hvs]. apply H2; [auto|reflexivity]. }
    intros H. apply scan_atom_consumes in H as (H1 & H2 & H3). auto.
  - (* JSONArray *)
    intros s values v r. cbn [JSONArray].
    destruct (scan_once fuel s) as [v1 s1| |] eqn:E; try discriminate.
    apply IHs in E as (E1 & E2).
    pose proof (skip_ws_length s1) as Hl.
    pose proof (valid_str_skip_ws s1) as Hv.
    destruct (skip_ws s1) as [|c s2]; [discriminate|]. cbn [List.length] in Hl.
    assert (Hacc : valid_str s = true -> forallb well_formed values = true ->
                   valid_str s2 = true
                   /\ forallb well_formed (values ++ [v1]) = true).
    { intros Hs Hvals. destruct (E2 Hs) as (Hs1 & Hw1).
      apply Hv in Hs1. cbn [valid_str forallb] in Hs1.
      apply andb_prop in Hs1 as [_ Hs2]. split; [exact Hs2|].
      rewrite forallb_app, Hvals. cbn [forallb]. rewrite Hw1. reflexivity. }
    destruct (N.eqb c (ch "]")).
    { intros [= <- <-]. split; [lia|]. intros Hs Hvals.
      destruct (Hacc Hs Hvals). auto. }
    destruct (N.eqb c (ch ",")); [|discriminate].
    intros H. apply IHa in H as (H1 & H2).
    pose proof (skip_ws_length s2). split; [lia|].
    intros Hs Hvals. destruct (Hacc Hs Hvals) as (Hs2 & Hvals').
    apply H2; [apply valid_str_skip_ws, Hs2|exact Hvals'].
  - (* JSONObject *)
    intros s pairs v r. cbn [JSONObject].
    destruct (scanstring s) as [[key s1]|] eqn:Ek; [|discriminate].
    pose proof (scanstring_length _ _ _ Ek) as Lk.
    pose proof (scanstring_valid _ _ _ Ek) as Vk.
    pose proof (skip_ws_length s1) as Hl1.
    pose proof (valid_str_skip_ws s1) as Hv1.
    destruct (skip_ws s1) as [|c s2]; [discriminate|].
    cbn [List.length] in Hl1.
    destruct (N.eqb c (ch ":")); [|discriminate].
    pose proof (skip_ws_length s2) as Hl2.
    pose proof (valid_str_skip_ws s2) as Hv2.
    destruct (scan_once fuel (skip_ws s2)) as [v1 s3| |] eqn:E;
      try discriminate.
    apply IHs in E as (E1 & E2).
    pose proof (skip_ws_length s3) as Hl3.
    pose proof (valid_str_skip_ws s3) as Hv3.
    destruct (skip_ws s3) as [|c' s4]; [discriminate|].
    cbn [List.length] in Hl3.
    assert (Hacc : valid_str s = true -> forallb item_ok pairs = true ->
                   valid_str s4 = true
                   /\ forallb item_ok (pairs ++ [(key, v1)]) = true).
    { intros Hs Hp. destruct (Vk Hs) as (Hkey & Hs1).
      apply Hv1 in Hs1. cbn [valid_str forallb] in Hs1.
      apply andb_prop in Hs1 as [_ Hs2]. apply Hv2 in Hs2.
      destruct (E2 Hs2) as (Hs3 & Hw1). apply Hv3 in Hs3.
      cbn [valid_str forallb] in Hs3. apply andb_prop in Hs3 as [_ Hs4].
      split; [exact Hs4|].
      rewrite forallb_app, Hp. cbn [forallb item_ok]. rewrite Hkey, Hw1.
      reflexivity. }
    destruct (N.eqb c' (ch "}")).
    { intros [= <- <-]. split; [lia|]. intros Hs Hp.
      destruct (Hacc Hs Hp) as (Hs4 & Hp'). split; [exact Hs4|].
      rewrite well_formed_dict. destruct (dict_ok _ Hp') as (D1 & D2).
      rewrite D1, D2. reflexivity. }
    destruct (N.eqb c' (ch ",")); [|discriminate].
    pose proof (skip_ws_length s4) as Hl4.
    pose proof (valid_str_skip_ws s4) as Hv4.
    destruct (skip_ws s4) as [|q s5]; [discriminate|].
    cbn [List.length] in Hl4.
    destruct (N.eqb q 34); [|discriminate].
    intros H. apply IHo in H as (H1 & H2). split; [lia|].
    intros Hs Hp. destruct (Hacc Hs Hp) as (Hs4 & Hp').
    apply H2; [|exact Hp']. apply Hv4 in Hs4.
    cbn [valid_str forallb] in Hs4. apply andb_prop in Hs4 as [_ Hs5].
    exact Hs5.
Qed.


(** Fuel above twice the length of the text is never used up. *)
Lemma scan_fuel (fuel : nat) :
  (forall s, (2 * List.length s < fuel)%nat -> scan_once fuel s <> OutOfFuel)
  /\ (forall s values, (2 * List.length s + 1 < fuel)%nat ->
         JSONArray fuel s values <> OutOfFuel)
  /\ (forall s pairs, (2 * List.length s + 1 < fuel)%nat ->
         JSONObject fuel s pairs <> OutOfFuel).
Proof.
  induction fuel as [|fuel (IHs & IHa & IHo)];
    [repeat split; intros; lia|].
  destruct (scan_consumes fuel) as (Cs & _ & _).
  split; [|split].
  - intros [|c s] Hf; cbn [scan_once]; [discriminate|].
    cbn [List.length] in Hf.
    destruct (N.eqb c 34); [destruct (scanstring s) as [[? ?]|]; discriminate|].
    pose proof (skip_ws_length s) as Hl.
    destruct (N.eqb c (ch "{")).
    { destruct (skip_ws s) as [|c0 s3]; [discriminate|].
      cbn [List.length] in Hl.
      destruct (N.eqb c0 (ch "}")); [discriminate|].
      destruct (N.eqb c0 34); [|discriminate].
      apply IHo. lia. }
    destruct (N.eqb c (ch "[")); [|apply scan_atom_fuel].
    destruct (skip_ws s) as [|c0 s3]; [discriminate|].
    destruct (N.eqb c0 (ch "]")); [discriminate|].
    apply IHa. lia.
  - intros s values Hf. cbn [JSONArray].
    pose proof (IHs s ltac:(lia)) as Hs.
    destruct (scan_once fuel s) as [v1 s1| |] eqn:E;
      [|discriminate|congruence].
    apply Cs in E as (E1 & _).
    pose proof (skip_ws_length s1) as Hl.
    destruct (skip_ws s1) as [|c s2]; [discriminate|].
    cbn [List.length] in Hl.
    destruct (N.eqb c (ch "]")); [discriminate|].
    destruct (N.eqb c (ch ",")); [|discriminate].
    pose proof (skip_ws_length s2). apply IHa. lia.
  - intros s pairs Hf. cbn [JSONObject].
    destruct (scanstring s) as [[key s1]|] eqn:Ek; [|discriminate].
    apply scanstring_length in Ek.
    pose proof (skip_ws_length s1) as Hl1.
    destruct (skip_ws s1) as [|c s2]; [discriminate|].
    cbn [List.length] in Hl1.
    destruct (N.eqb c (ch ":")); [|discriminate].
    pose proof (skip_ws_length s2) as Hl2.
    pose proof (IHs (skip_ws s2) ltac:(lia)) as Hs.
    destruct (scan_once fuel (skip_ws s2)) as [v1 s3| |] eqn:E;
      [|discriminate|congruence].
    apply Cs in E as (E1 & _).
    pose proof (skip_ws_length s3) as Hl3.
    destruct (skip_ws s3) as [|c' s4]; [discriminate|].
    cbn [List.length] in Hl3.
    destruct (N.eqb c' (ch "}")); [discriminate|].
    destruct (N.eqb c' (ch ",")); [|discriminate].
    pose proof (skip_ws_length s4) as Hl4.
    destruct (skip_ws s4) as [|q s5]; [discriminate|].
    cbn [List.length] in Hl4.
    destruct (N.eqb q 34); [|discriminate].
    apply IHo. lia.
Qed.

(** [json.loads] never stops for lack of fuel. *)
Lemma loads_fuel_enough (s : pystr) :
  scan_once (loads_fuel s) (skip_ws s) <> OutOfFuel.
Proof.
  apply scan_fuel. unfold loads_fuel. pose proof (skip_ws_length s). lia.
Qed.



End ScanFuel.

(** ** [json.loads] reads back what [json.dumps] writes *)

Section RoundTrip.
Context {FL : PyFloat} {FLL : PyFloatLaws FL}.
Import json.
Local Open Scope N_scope.

(** Induction on values, with the hypothesis for every element of a list
    and every value of a dict. *)
Lemma value_induction (P : value -> Prop) :
  P JNull -> (forall b, P (JBool b)) -> (forall z, P (JInt z)) ->
  (forall f, P (JFloat f)) -> (forall s, P (JStr s)) ->
  (forall l, Forall P l -> P (JList l)) ->
  (forall d, Forall (fun kv => P (snd kv)) d -> P (JDict d)) ->
  forall v, P v.
Proof.
  intros HN HB HI HF HS HL HD. fix IH 1. intros [ |b|z|f|s|l|d].
  - exact HN.
  - apply HB.
  - apply HI.
  - apply HF.
  - apply HS.
  - apply HL. induction l as [|x l IHl]; constructor; [apply IH|exact IHl].
  - apply HD. induction d as [|[k x] d IHd]; constructor;
      [apply IH|exact IHd].
Qed.




(** The shape of what the encoder writes. *)















(** One turn of the loops of [JSONArray] and [JSONObject]. *)














End RoundTrip.

(** ** The model of integral doubles satisfies [PyFloat] *)

Lemma match_number_integral_repr (z : Z) :
  match_number (integral_repr z) = Some (intstr z, py ".0", [], []).
Proof.
  unfold match_number, integral_repr.
  rewrite match_integer_intstr by reflexivity. reflexivity.
Qed.

Lemma integral_repr_literal (z : Z) :
  is_float_literal (integral_repr z) = true.
Proof.
  unfold is_float_literal. rewrite match_number_integral_repr. reflexivity.
Qed.

Lemma digits_value_snoc (d : pystr) (c : codepoint) :
  digits_value (d ++ [c]) = (10 * digits_value d + (c - 48))%N.
Proof. unfold digits_value. rewrite fold_left_app. reflexivity. Qed.

Lemma integral_repr_roundtrip (z : Z) :
  integral_of_string (integral_repr z) = FFinite z.
Proof.
  unfold integral_of_string. rewrite match_number_integral_repr. cbv zeta.
  assert (Hmag : forall p,
             Z.of_N (digits_value (N_digits (Npos p) ++ tl (py ".0")))
             / 10 ^ (- (exponent_value [] - Z.of_nat (List.length (tl (py ".0")))))
             = Zpos p).
  { intros p. change (tl (py ".0")) with [48%N]. rewrite digits_value_snoc.
    destruct (N_digits_spec (Npos p)) as (_ & -> & _).
    change (- (exponent_value [] - Z.of_nat (List.length [48%N]))) with 1.
    change (10 ^ 1) with 10. rewrite N2Z.inj_add, N2Z.inj_mul.
    change (Z.of_N (48 - 48)) with 0. change (Z.of_N 10) with 10.
    rewrite Z.add_0_r, Z.mul_comm, Z.div_mul by discriminate. reflexivity. }
  change (0 <=? exponent_value [] - Z.of_nat (List.length (tl (py ".0"))))
    with false. cbv iota.
  destruct z as [|p|p]; [reflexivity| |].
  - cbn [intstr].
    destruct (N_digits_spec (Npos p)) as (Hd & _ & Hh).
    destruct Hh as (c & t & E & _); [discriminate|].
    replace (startswith (N_digits (Npos p)) [ch "-"]) with false.
    + cbv iota. f_equal. apply Hmag.
    + rewrite E in *. inversion Hd as [|? ? Hc _]; subst.
      apply is_digit_spec in Hc. cbn [startswith]. symmetry.
      apply andb_false_intro1, N.eqb_neq. change (ch "-") with 45%N. lia.
  - cbn [intstr].
    replace (startswith (ch "-" :: N_digits (Npos p)) [ch "-"]) with true
      by (cbn [startswith]; rewrite N.eqb_refl;
          destruct (N_digits (Npos p)); reflexivity).
    cbv iota. cbn [tl]. f_equal.
    change (Z.neg p) with (- Z.pos p). f_equal. apply Hmag.
Qed.

(** The doubles of integral value satisfy the two facts about [repr]. *)
Lemma integral_floats_laws : PyFloatLaws integral_floats.
Proof.
  split; [exact integral_repr_literal|exact integral_repr_roundtrip].
Qed.

(** ** The file tree *)

Section FileTree.
Import os.

Lemma find_entry_set_same (es : list (pystr * node)) (name : pystr)
    (new : node) :
  find_entry (set_entry es name new) name = Some new.
Proof.
  induction es as [|[n x] es IH]; cbn [set_entry find_entry].
  - rewrite pystr_eqb_refl. reflexivity.
  - destruct (pystr_eqb n name) eqn:E; cbn [find_entry]; rewrite E;
      [reflexivity|exact IH].
Qed.

Lemma find_entry_set_other (es : list (pystr * node)) (name name' : pystr)
    (new : node) :
  name' <> name ->
  find_entry (set_entry es name new) name' = find_entry es name'.
Proof.
  intros Hne. induction es as [|[n x] es IH]; cbn [set_entry find_entry].
  - replace (pystr_eqb name name') with false; [reflexivity|].
    symmetry. apply pystr_eqb_neq. congruence.
  - destruct (pystr_eqb n name) eqn:E; cbn [find_entry].
    + apply pystr_eqb_eq in E. subst n.
      replace (pystr_eqb name name') with false; [reflexivity|].
      symmetry. apply pystr_eqb_neq. congruence.
    + rewrite IH. reflexivity.
Qed.

Lemma is_dir_lookup (r : node) (k : key) :
  is_dir r k = true <-> exists es, lookup r k = Some (Dir es).
Proof.
  unfold is_dir. destruct (lookup r k) as [[d|es]|]; split;
    try discriminate; eauto; intros (es' & E); discriminate E.
Qed.

(** A node below a directory was reached through it. *)
Lemma lookup_app (r : node) (k1 k2 : key) :
  lookup r (k1 ++ k2)
  = match lookup r k1 with Some n => lookup n k2 | None => None end.
Proof.
  revert r. induction k1 as [|name k1 IH]; intros r; cbn [app lookup];
    [reflexivity|].
  destruct r as [d|es]; [reflexivity|].
  destruct (find_entry es name); [apply IH|reflexivity].
Qed.

(** The node put at [k] is found there. *)
Lemma lookup_update_same (k : key) :
  forall (r new : node),
    k <> [] -> is_dir r (removelast k) = true ->
    lookup (update r k new) k = Some new.
Proof.
  induction k as [|name k IH]; intros r new Hne Hdir; [congruence|].
  destruct k as [|name2 k'].
  - cbn [removelast] in Hdir. apply is_dir_lookup in Hdir as (es & E).
    cbn [lookup] in E. injection E as ->. cbn [update].
    destruct (find_entry es name); cbn [update lookup];
      rewrite find_entry_set_same; reflexivity.
  - change (removelast (name :: name2 :: k'))
      with (name :: removelast (name2 :: k')) in Hdir.
    apply is_dir_lookup in Hdir as (es' & E). cbn [lookup] in E.
    destruct r as [d|es]; [discriminate|].
    destruct (find_entry es name) as [c|] eqn:Ef; [|discriminate].
    cbn [update]. rewrite Ef. cbn [lookup]. rewrite find_entry_set_same.
    apply IH; [discriminate|]. apply is_dir_lookup. eauto.
Qed.

Lemma lookup_leaf (n : node) (name : pystr) (k : key) :
  leaf n -> lookup n (name :: k) = None.
Proof. destruct n as [d|es]; cbn [leaf lookup]; [reflexivity|intros ->; reflexivity]. Qed.

(** Putting a leaf where no directory is changes the shape of no other
    node. *)
Lemma lookup_update_other (k : key) :
  forall (r new : node) (k' : key),
    leaf new -> is_dir r k = false -> k' <> k ->
    shape (lookup (update r k new) k') = shape (lookup r k').
Proof.
  induction k as [|name k IH]; intros r new k' Hleaf Hdir Hne.
  - cbn [update]. destruct k' as [|n' k'']; [congruence|].
    rewrite lookup_leaf by exact Hleaf.
    unfold is_dir in Hdir. cbn [lookup] in Hdir.
    destruct r as [d|es]; [reflexivity|discriminate].
  - destruct r as [d|es]; [reflexivity|]. cbn [update].
    unfold is_dir in Hdir. cbn [lookup] in Hdir.
    destruct (find_entry es name) as [c|] eqn:Ef.
    + destruct k' as [|n' k'']; [reflexivity|]. cbn [lookup].
      destruct (pystr_eqb n' name) eqn:En.
      * apply pystr_eqb_eq in En. subst n'.
        rewrite find_entry_set_same, Ef.
        apply IH; [exact Hleaf|exact Hdir|congruence].
      * apply pystr_eqb_neq in En.
        rewrite find_entry_set_other by exact En. reflexivity.
    + destruct k as [|name2 k2]; [|reflexivity].
      destruct k' as [|n' k'']; [reflexivity|]. cbn [lookup].
      destruct (pystr_eqb n' name) eqn:En.
      * apply pystr_eqb_eq in En. subst n'.
        rewrite find_entry_set_same, Ef.
        destruct k'' as [|n2 k3]; [congruence|].
        rewrite lookup_leaf by exact Hleaf. reflexivity.
      * apply pystr_eqb_neq in En.
        rewrite find_entry_set_other by exact En. reflexivity.
Qed.

Lemma shape_dir (o1 o2 : option node) :
  shape o1 = shape o2 ->
  match o1 with Some (Dir _) => true | _ => false end
  = match o2 with Some (Dir _) => true | _ => false end.
Proof. destruct o1 as [[?|?]|], o2 as [[?|?]|]; cbn; congruence. Qed.

Lemma shape_file (o1 o2 : option node) (d : pystr) :
  shape o1 = shape o2 -> o1 = Some (File d) -> o2 = Some (File d).
Proof. destruct o1 as [[?|?]|], o2 as [[?|?]|]; cbn; congruence. Qed.

Lemma grows_refl (r : node) : grows r r.
Proof. split; auto. Qed.

Lemma grows_trans (r1 r2 r3 : node) : grows r1 r2 -> grows r2 r3 -> grows r1 r3.
Proof. intros (A1 & B1) (A2 & B2). split; auto. Qed.

Lemma same_files_refl (r : node) : same_files r r.
Proof. intros k d. tauto. Qed.

Lemma same_files_trans (r1 r2 r3 : node) :
  same_files r1 r2 -> same_files r2 r3 -> same_files r1 r3.
Proof. intros H1 H2 k d. rewrite (H1 k d). apply H2. Qed.

Lemma mkdir_grows (r : node) (cur : key) (name : pystr) :
  is_dir r cur = true -> lookup r (cur ++ [name]) = None ->
  grows r (update r (cur ++ [name]) (Dir []))
  /\ same_files r (update r (cur ++ [name]) (Dir []))
  /\ is_dir (update r (cur ++ [name]) (Dir [])) (cur ++ [name]) = true.
Proof.
  intros Hcur Hnone.
  assert (Hnd : is_dir r (cur ++ [name]) = false)
    by (unfold is_dir; rewrite Hnone; reflexivity).
  assert (Hsame : lookup (update r (cur ++ [name]) (Dir [])) (cur ++ [name])
                  = Some (Dir [])).
  { apply lookup_update_same.
    - intros E. apply app_eq_nil in E as [_ E]. discriminate E.
    - rewrite removelast_last. exact Hcur. }
  assert (Hother : forall k', k' <> cur ++ [name] ->
             shape (lookup (update r (cur ++ [name]) (Dir [])) k')
             = shape (lookup r k'))
    by (intros k' Hk; apply lookup_update_other; [reflexivity|exact Hnd|exact Hk]).
  split; [split|split].
  - intros k Hk. unfold is_dir in *.
    destruct (list_eq_dec (list_eq_dec N.eq_dec) k (cur ++ [name])) as [->|Hne];
      [rewrite Hsame; reflexivity|].
    rewrite (shape_dir _ _ (Hother k Hne)). exact Hk.
  - intros k d Hk.
    destruct (list_eq_dec (list_eq_dec N.eq_dec) k (cur ++ [name])) as [->|Hne];
      [congruence|].
    eapply shape_file; [symmetry; apply Hother, Hne|exact Hk].
  - intros k d.
    destruct (list_eq_dec (list_eq_dec N.eq_dec) k (cur ++ [name])) as [->|Hne].
    + rewrite Hsame, Hnone. split; discriminate.
    + split; intros Hk; eapply shape_file; try exact Hk;
        [symmetry|]; apply Hother, Hne.
  - unfold is_dir. rewrite Hsame. reflexivity.
Qed.

(** Resolution of a path still succeeds, with the same result, in a tree
    that has every directory of the first. *)
Lemma walk_dirs (r r' : node) (names : list pystr) :
  (forall k, is_dir r k = true -> is_dir r' k = true) ->
  forall cur k, walk r cur names = Return k -> walk r' cur names = Return k.
Proof.
  intros Hg. induction names as [|name names IH]; intros cur k;
    cbn [walk]; [auto|].
  unfold walk1. destruct (lookup r cur) as [[d|es]|] eqn:E; try discriminate.
  assert (Hd : is_dir r' cur = true)
    by (apply Hg; unfold is_dir; rewrite E; reflexivity).
  apply is_dir_lookup in Hd as (es' & ->).
  destruct (_ || _); [apply IH|].
  destruct (pystr_eqb name (py "..")); apply IH.
Qed.

Lemma walk_grows (r r' : node) (names : list pystr) :
  grows r r' ->
  forall cur k, walk r cur names = Return k -> walk r' cur names = Return k.
Proof. intros (Hg & _). apply walk_dirs, Hg. Qed.

Lemma walk_app (r : node) (l1 l2 : list pystr) :
  forall cur,
    walk r cur (l1 ++ l2)
    = match walk r cur l1 with
      | Return c => walk r c l2
      | Raise e => Raise e
      end.
Proof.
  induction l1 as [|name l1 IH]; intros cur; cbn [app walk]; [reflexivity|].
  destruct (walk1 r cur name); [apply IH|reflexivity].
Qed.

(** A walk that ends at a directory started at one. *)
Lemma walk_from_dir (r : node) (names : list pystr) :
  forall cur k,
    walk r cur names = Return k -> is_dir r k = true -> is_dir r cur = true.
Proof.
  destruct names as [|name names]; intros cur k; cbn [walk].
  - intros [= ->]. auto.
  - unfold walk1, is_dir.
    destruct (lookup r cur) as [[d|es]|]; try discriminate. reflexivity.
Qed.

(** [os.makedirs]: what it keeps, and what it makes. *)
Lemma makedirs_walk_spec (names : list pystr) :
  forall r cur res r',
    makedirs_walk r cur names = (res, r') ->
    grows r r' /\ same_files r r'
    /\ (res = Return tt ->
        exists k, walk r' cur names = Return k /\ is_dir r' k = true).
Proof.
  induction names as [|name names IH]; intros r cur res r'; cbn [makedirs_walk].
  - destruct (lookup r cur) as [[d|es]|] eqn:E; intros [= <- <-];
      (split; [apply grows_refl|split; [apply same_files_refl|]]);
      try discriminate.
    intros _. exists cur. split; [reflexivity|].
    unfold is_dir. rewrite E. reflexivity.
  - destruct (lookup r cur) as [[d|es]|] eqn:E;
      try (intros [= <- <-];
           split; [apply grows_refl|split; [apply same_files_refl|discriminate]]).
    assert (Hcur : is_dir r cur = true) by (unfold is_dir; rewrite E; reflexivity).
    assert (Hstep : forall r1 cur1,
               grows r r1 -> same_files r r1 ->
               (forall r2, grows r1 r2 -> walk1 r2 cur name = Return cur1) ->
               makedirs_walk r1 cur1 names = (res, r') ->
               grows r r' /\ same_files r r'
               /\ (res = Return tt ->
                   exists k, walk r' cur (name :: names) = Return k
                             /\ is_dir r' k = true)).
    { intros r1 cur1 G1 S1 W1 H. apply IH in H as (G2 & S2 & H).
      split; [eapply grows_trans; eassumption|].
      split; [eapply same_files_trans; eassumption|].
      intros Hres. destruct (H Hres) as (k & Hk & Hd). exists k.
      cbn [walk]. rewrite (W1 r' G2). auto. }
    assert (Hw1 : forall r2, grows r r2 ->
               walk1 r2 cur name
               = if pystr_eqb name [] || pystr_eqb name (py ".") then Return cur
                 else if pystr_eqb name (py "..") then Return (removelast cur)
                 else Return (cur ++ [name])).
    { intros r2 (G & _). unfold walk1.
      destruct (proj1 (is_dir_lookup r2 cur) (G _ Hcur)) as (es2 & ->).
      reflexivity. }
    destruct (pystr_eqb name [] || pystr_eqb name (py ".")) eqn:E1.
    { apply Hstep; [apply grows_refl|apply same_files_refl|].
      intros r2 G. rewrite (Hw1 r2 G). reflexivity. }
    destruct (pystr_eqb name (py "..")) eqn:E2.
    { apply Hstep; [apply grows_refl|apply same_files_refl|].
      intros r2 G. rewrite (Hw1 r2 G). reflexivity. }
    destruct (lookup r (cur ++ [name])) as [n|] eqn:E3.
    { apply Hstep; [apply grows_refl|apply same_files_refl|].
      intros r2 G. rewrite (Hw1 r2 G). reflexivity. }
    destruct (mkdir_grows r cur name Hcur E3) as (G1 & S1 & _).
    apply Hstep; [exact G1|exact S1|].
    intros r2 G. rewrite (Hw1 r2 (grows_trans _ _ _ G1 G)). reflexivity.
Qed.

(** No error, and no change, if the directory already exists. *)
Lemma makedirs_walk_exists (names : list pystr) :
  forall r cur k,
    walk r cur names = Return k -> is_dir r k = true ->
    makedirs_walk r cur names = (Return tt, r).
Proof.
  induction names as [|name names IH]; intros r cur k Hw Hk.
  - cbn [walk] in Hw. injection Hw as ->. cbn [makedirs_walk].
    apply is_dir_lookup in Hk as (es & ->). reflexivity.
  - pose proof (walk_from_dir _ _ _ _ Hw Hk) as Hcur.
    cbn [walk] in Hw. cbn [makedirs_walk].
    unfold walk1 in Hw. apply is_dir_lookup in Hcur as (es & E).
    rewrite E in *.
    destruct (pystr_eqb name [] || pystr_eqb name (py "."));
      [eapply IH; eassumption|].
    destruct (pystr_eqb name (py "..")); [eapply IH; eassumption|].
    pose proof (walk_from_dir _ _ _ _ Hw Hk) as Hnext.
    apply is_dir_lookup in Hnext as (es2 & ->). eapply IH; eassumption.
Qed.

End FileTree.

(** ** [os]: reading, writing and making directories *)

Section OsFacts.
Import os.

Lemma split_sep_nonempty (p : pystr) : split_sep p <> [].
Proof.
  destruct p as [|c p]; cbn [split_sep]; [discriminate|].
  destruct (N.eqb c os_path.sep); [discriminate|].
  destruct (split_sep p); discriminate.
Qed.

Lemma split_sep_app_sep (a b : pystr) :
  split_sep (a ++ os_path.sep :: b) = split_sep a ++ split_sep b.
Proof.
  induction a as [|c a IH]; cbn [app split_sep].
  - rewrite N.eqb_refl. reflexivity.
  - destruct (N.eqb c os_path.sep); [rewrite IH; reflexivity|].
    rewrite IH. pose proof (split_sep_nonempty a) as H.
    destruct (split_sep a); [congruence|reflexivity].
Qed.

Lemma split_sep_entry (s : pystr) : ~ In os_path.sep s -> split_sep s = [s].
Proof.
  induction s as [|c s IH]; cbn [split_sep]; [reflexivity|].
  intros H. destruct (N.eqb_spec c os_path.sep) as [->|_];
    [exfalso; apply H; left; reflexivity|].
  rewrite IH; [reflexivity|]. intros Hin. apply H. right. exact Hin.
Qed.

Lemma startswith_nil (s : pystr) : startswith s [] = true.
Proof. destruct s; reflexivity. Qed.

Lemma start_app (fs : filesystem) (a b : pystr) :
  a <> [] -> start fs (a ++ b) = start fs a.
Proof.
  destruct a; [congruence|]. intros _. unfold start.
  cbn [app startswith]. rewrite !startswith_nil. reflexivity.
Qed.

Lemma filesystem_eta (fs : filesystem) :
  {| root := root fs; cwd := cwd fs |} = fs.
Proof. destruct fs; reflexivity. Qed.

(** [os.stat] in a tree that has grown. *)
Lemma resolve_grows (fs fs' : filesystem) (p : pystr) (k : key) :
  cwd fs' = cwd fs -> grows (root fs) (root fs') ->
  resolve fs p = Return k -> resolve fs' p = Return k.
Proof.
  intros Hc Hg. unfold resolve, start. rewrite Hc.
  destruct p; [discriminate|]. apply walk_grows, Hg.
Qed.

Lemma read_grows (fs fs' : filesystem) (p d : pystr) :
  cwd fs' = cwd fs -> grows (root fs) (root fs') ->
  read fs p = Return d -> read fs' p = Return d.
Proof.
  intros Hc Hg. unfold read, stat.
  destruct (resolve fs p) as [k|] eqn:E; [|discriminate].
  rewrite (resolve_grows _ _ _ _ Hc Hg E).
  destruct (lookup (root fs) k) as [[d0|es]|] eqn:El; try discriminate.
  intros [= ->]. rewrite (proj2 Hg _ _ El). reflexivity.
Qed.

Lemma isdir_grows (fs fs' : filesystem) (p : pystr) :
  cwd fs' = cwd fs -> grows (root fs) (root fs') ->
  isdir fs p = true -> isdir fs' p = true.
Proof.
  intros Hc Hg. unfold isdir, stat.
  destruct (resolve fs p) as [k|] eqn:E; [|discriminate].
  rewrite (resolve_grows _ _ _ _ Hc Hg E).
  destruct (lookup (root fs) k) as [[d0|es]|] eqn:El; try discriminate.
  intros _. assert (Hd : is_dir (root fs) k = true)
    by (unfold is_dir; rewrite El; reflexivity).
  apply (proj1 Hg) in Hd. apply is_dir_lookup in Hd as (es' & ->). reflexivity.
Qed.

Lemma isdir_resolve (fs : filesystem) (p : pystr) :
  isdir fs p = true <->
  exists k, resolve fs p = Return k /\ is_dir (root fs) k = true.
Proof.
  unfold isdir, stat, is_dir. destruct (resolve fs p) as [k|e].
  - split.
    + intros H. exists k. split; [reflexivity|].
      destruct (lookup (root fs) k) as [[d|es]|]; try discriminate H;
        reflexivity.
    + intros (k' & [= <-] & H).
      destruct (lookup (root fs) k) as [[d|es]|]; try discriminate H;
        reflexivity.
  - split; [discriminate|]. intros (k & H & _). discriminate H.
Qed.

(** [os.makedirs(p, exist_ok=True)]: it keeps every file and directory,
    changes no file, and when it returns [p] is a directory. *)
Lemma makedirs_spec (fs fs' : filesystem) (p : pystr) (res : outcome unit) :
  makedirs fs p = (res, fs') ->
  cwd fs' = cwd fs
  /\ grows (root fs) (root fs')
  /\ same_files (root fs) (root fs')
  /\ (res = Return tt -> isdir fs' p = true).
Proof.
  unfold makedirs. destruct p as [|c p'].
  { intros [= <- <-]. repeat split; auto; try tauto. discriminate. }
  destruct (makedirs_walk _ _ _) as [res0 r'] eqn:E. intros [= <- <-].
  apply makedirs_walk_spec in E as (G & S & H). cbn [root cwd].
  repeat split; try apply G; try apply S.
  intros Hres. destruct (H Hres) as (k & Hk & Hd).
  apply isdir_resolve. exists k. split; [exact Hk|exact Hd].
Qed.

(** No error if the directory is there already, and nothing changes. *)
Lemma makedirs_exists (fs : filesystem) (p : pystr) :
  isdir fs p = true -> makedirs fs p = (Return tt, fs).
Proof.
  intros H. apply isdir_resolve in H as (k & Hk & Hd).
  unfold makedirs. unfold resolve in Hk. destruct p as [|c p']; [discriminate|].
  rewrite (makedirs_walk_exists _ _ _ _ Hk Hd). rewrite filesystem_eta.
  reflexivity.
Qed.

(** [os.makedirs] fails only on the empty path, on a path whose start is
    missing, or on a file in the way. *)
Lemma makedirs_walk_raises (names : list pystr) :
  forall r cur e r',
    is_dir r cur = true ->
    makedirs_walk r cur names = (Raise e, r') ->
    e = NotADirectoryError \/ e = FileExistsError.
Proof.
  induction names as [|name names IH]; intros r cur e r' Hcur;
    cbn [makedirs_walk].
  - apply is_dir_lookup in Hcur as (es & ->). discriminate.
  - destruct (proj1 (is_dir_lookup _ _) Hcur) as (es & E). rewrite E.
    assert (Hnext : forall r1 cur1,
               (is_dir r1 cur1 = true \/ exists d, lookup r1 cur1 = Some (File d)) ->
               makedirs_walk r1 cur1 names = (Raise e, r') ->
               e = NotADirectoryError \/ e = FileExistsError).
    { intros r1 cur1 [Hd|(d & Hf)]; [apply IH, Hd|].
      destruct names; cbn [makedirs_walk]; rewrite Hf; intros [= <- _]; auto. }
    destruct (pystr_eqb name [] || pystr_eqb name (py "."));
      [apply Hnext; auto|].
    destruct (pystr_eqb name (py "..")).
    { apply Hnext. left. unfold is_dir.
      destruct cur as [|c0 cur0] using rev_ind; [exact Hcur|].
      rewrite removelast_last. rewrite lookup_app in E.
      destruct (lookup r cur0) as [[d|es0]|]; try discriminate; reflexivity. }
    destruct (lookup r (cur ++ [name])) as [[d|es1]|] eqn:E3.
    + apply Hnext. right. eauto.
    + apply Hnext. left. unfold is_dir. rewrite E3. reflexivity.
    + apply Hnext. left. apply mkdir_grows; assumption.
Qed.

(** [open(p, "w")] and [write] *)

Lemma write_raises (fs fs' : filesystem) (p data : pystr) (e : exn) :
  write fs p data = (Raise e, fs') -> fs' = fs.
Proof.
  unfold write. destruct (locate fs p) as [[dir name]|e0]; [|congruence].
  destruct (_ || _); [congruence|].
  destruct (lookup _ _) as [[d|es]|]; congruence.
Qed.

Lemma locate_spec (fs : filesystem) (p : pystr) (dir : key) (name : pystr) :
  locate fs p = Return (dir, name) ->
  p <> []
  /\ walk (root fs) (start fs p) (removelast (split_sep p)) = Return dir
  /\ name = last (split_sep p) []
  /\ is_dir (root fs) dir = true.
Proof.
  unfold locate. destruct p as [|c p']; [discriminate|].
  destruct (walk _ _ _) as [dir0|] eqn:E; [|discriminate].
  destruct (lookup (root fs) dir0) as [[d|es]|] eqn:El; try discriminate.
  intros [= <- <-]. repeat split; [discriminate|].
  unfold is_dir. rewrite El. reflexivity.
Qed.

Lemma write_returns (fs fs' : filesystem) (p data : pystr) :
  write fs p data = (Return tt, fs') ->
  exists dir name,
    locate fs p = Return (dir, name)
    /\ (forall r, is_dir r dir = true ->
                   walk1 r dir name = Return (dir ++ [name]))
    /\ is_dir (root fs) (dir ++ [name]) = false
    /\ fs' = {| root := update (root fs) (dir ++ [name]) (File data);
                cwd := cwd fs |}.
Proof.
  unfold write. destruct (locate fs p) as [[dir name]|e0] eqn:El; [|discriminate].
  destruct (pystr_eqb name [] || pystr_eqb name (py ".")
            || pystr_eqb name (py "..")) eqn:Ep; [discriminate|].
  apply orb_false_elim in Ep as [Ep E2].
  intros H. exists dir, name. split; [reflexivity|]. split; [|split].
  - intros r Hr. unfold walk1. apply is_dir_lookup in Hr as (es & ->).
    rewrite Ep, E2. reflexivity.
  - unfold is_dir. destruct (lookup _ _) as [[d|es]|]; [reflexivity|discriminate|reflexivity].
  - destruct (lookup _ _) as [[d|es]|]; [|discriminate|]; congruence.
Qed.

(** After a write the file holds the data, every other file is as before,
    and the directories are the same. *)
Lemma write_spec (fs fs' : filesystem) (p data : pystr) :
  write fs p data = (Return tt, fs') ->
  cwd fs' = cwd fs
  /\ read fs' p = Return data
  /\ (forall q, isdir fs' q = isdir fs q)
  /\ (forall q d, read fs q = Return d ->
                  read fs' q = Return d \/ read fs' q = Return data)
  /\ (forall q d, read fs' q = Return d ->
                  read fs q = Return d \/ d = data).
Proof.
  intros H. destruct (write_returns _ _ _ _ H) as (dir & name & Hl & Hw1 & Hnd & ->).
  destruct (locate_spec _ _ _ _ Hl) as (Hp & Hw & Hname & Hdir).
  subst name. set (name := last (split_sep p) []) in *.
  set (K := dir ++ [name]) in *.
  set (r := root fs) in *.
  set (r' := update r K (File data)).
  assert (Hsame : lookup r' K = Some (File data)).
  { apply lookup_update_same.
    - unfold K. intros E. apply app_eq_nil in E as [_ E]. discriminate E.
    - unfold K. rewrite removelast_last. exact Hdir. }
  assert (Hother : forall k, k <> K -> shape (lookup r' k) = shape (lookup r k))
    by (intros k Hk; apply lookup_update_other; [exact I|exact Hnd|exact Hk]).
  assert (Hdirs : forall k, is_dir r' k = is_dir r k).
  { intros k. destruct (list_eq_dec (list_eq_dec N.eq_dec) k K) as [->|Hne].
    - rewrite Hnd. unfold is_dir. rewrite Hsame. reflexivity.
    - unfold is_dir. apply shape_dir, Hother, Hne. }
  assert (Hres : forall q k, resolve fs q = Return k ->
             resolve {| root := r'; cwd := cwd fs |} q = Return k).
  { intros q k. unfold resolve, start. cbn [root cwd]. destruct q; [auto|].
    apply walk_dirs. intros k0. rewrite Hdirs. auto. }
  assert (Hres' : forall q k,
             resolve {| root := r'; cwd := cwd fs |} q = Return k ->
             resolve fs q = Return k).
  { intros q k. unfold resolve, start. cbn [root cwd]. destruct q; [auto|].
    apply walk_dirs. intros k0. rewrite Hdirs. auto. }
  assert (Hp' : resolve {| root := r'; cwd := cwd fs |} p = Return K).
  { unfold resolve. destruct p as [|c p0]; [congruence|].
    cbn [root]. change (start _ (c :: p0)) with (start fs (c :: p0)).
    rewrite (app_removelast_last [] (split_sep_nonempty (c :: p0))).
    rewrite walk_app.
    match goal with
    | |- match ?w with _ => _ end = _ =>
        assert (E1 : w = Return dir)
          by (eapply walk_dirs; [|exact Hw]; intros k0; rewrite Hdirs; auto);
        rewrite E1
    end.
    cbn [walk].
    match goal with
    | |- match ?w with _ => _ end = _ =>
        assert (E2 : w = Return K) by (apply Hw1; rewrite Hdirs; exact Hdir);
        rewrite E2
    end.
    reflexivity. }
  split; [reflexivity|]. split; [|split; [|split]].
  - unfold read, stat. rewrite Hp'. cbn [root]. rewrite Hsame. reflexivity.
  - intros q. unfold isdir, stat.
    destruct (resolve fs q) as [k|e] eqn:E.
    + rewrite (Hres _ _ E). cbn [root]. fold r.
      pose proof (Hdirs k) as Hk. unfold is_dir in Hk.
      destruct (lookup r' k) as [[?|?]|], (lookup r k) as [[?|?]|];
        congruence.
    + destruct (resolve {| root := r'; cwd := cwd fs |} q) as [k|e'] eqn:E';
        [|reflexivity].
      rewrite (Hres' _ _ E') in E. discriminate E.
  - intros q d. unfold read, stat.
    destruct (resolve fs q) as [k|e] eqn:E; [|discriminate].
    rewrite (Hres _ _ E). cbn [root]. fold r.
    destruct (list_eq_dec (list_eq_dec N.eq_dec) k K) as [->|Hne].
    + rewrite Hsame. auto.
    + destruct (lookup r k) as [[d0|es]|] eqn:Ek; try discriminate.
      intros [= ->]. left.
      rewrite (shape_file _ _ d (eq_sym (Hother k Hne)) Ek). reflexivity.
  - intros q d. unfold read, stat.
    destruct (resolve {| root := r'; cwd := cwd fs |} q) as [k|e] eqn:E;
      [|discriminate].
    rewrite (Hres' _ _ E). cbn [root]. fold r.
    destruct (list_eq_dec (list_eq_dec N.eq_dec) k K) as [->|Hne].
    + rewrite Hsame. intros [= ->]. auto.
    + destruct (lookup r' k) as [[d0|es]|] eqn:Ek; try discriminate.
      intros [= ->]. left.
      rewrite (shape_file _ _ d (Hother k Hne) Ek). reflexivity.
Qed.

(** A file written into [join(out, name)] is written into the directory
    [out]. *)
Lemma write_join_isdir (fs fs' : filesystem) (out name data : pystr) :
  write fs (os_path.join out name) data = (Return tt, fs') ->
  out <> [] -> ~ In os_path.sep name ->
  isdir fs out = true.
Proof.
  intros H Hout Hname.
  destruct (write_returns _ _ _ _ H) as (dir & name' & Hl & _).
  destruct (locate_spec _ _ _ _ Hl) as (_ & Hw & _ & Hdir).
  apply isdir_resolve. exists dir. split; [|exact Hdir].
  rewrite join_relative in Hw by (apply startswith_sep_notin, Hname).
  unfold resolve. destruct out as [|c0 out0] eqn:Eout; [congruence|].
  rewrite <- Eout in *. clear Eout c0 out0.
  replace (nonempty out) with true in Hw by (destruct out; [congruence|reflexivity]).
  cbn [andb] in Hw.
  destruct (endswith out [os_path.sep]) eqn:Ee; cbn [negb] in Hw.
  - apply endswith_spec in Ee as (o & Eo).
    rewrite start_app in Hw by exact Hout.
    rewrite Eo, <- app_assoc in Hw. cbn [app] in Hw.
    rewrite split_sep_app_sep, (split_sep_entry name Hname) in Hw.
    rewrite removelast_last in Hw. rewrite <- Eo in Hw.
    rewrite Eo at 2. rewrite split_sep_app_sep, walk_app, Hw.
    cbn [split_sep walk]. unfold walk1.
    apply is_dir_lookup in Hdir as (es & ->). reflexivity.
  - rewrite start_app in Hw by exact Hout.
    rewrite split_sep_app_sep, (split_sep_entry name Hname) in Hw.
    rewrite removelast_last in Hw. exact Hw.
Qed.

End OsFacts.

(** ** The directory of a joined path *)

Section JoinedPaths.
Import os.

Lemma rstrip_spec (s : pystr) (c : codepoint) :
  exists k, s = rstrip s c ++ repeat c k.
Proof.
  induction s as [|a s [k IH]]; [exists 0%nat; reflexivity|].
  cbn [rstrip]. destruct (rstrip s c) as [|b r] eqn:E.
  - cbn [app] in IH. destruct (N.eqb_spec a c) as [->|_].
    + exists (S k). cbn [repeat app]. f_equal. exact IH.
    + exists k. cbn [app]. f_equal. exact IH.
  - exists k. cbn [app]. f_equal. exact IH.
Qed.

Lemma rstrip_snoc (s : pystr) (c : codepoint) :
  rstrip (s ++ [c]) c = rstrip s c.
Proof.
  induction s as [|a s IH]; cbn [app rstrip].
  - rewrite N.eqb_refl. reflexivity.
  - rewrite IH. reflexivity.
Qed.

Lemma repeat_snoc (c : codepoint) (k : nat) :
  repeat c k ++ [c] = repeat c (S k).
Proof. induction k as [|k IH]; cbn [repeat app]; [|rewrite IH]; reflexivity. Qed.

Lemma split_sep_seps (k : nat) :
  split_sep (repeat os_path.sep k) = repeat [] (S k).
Proof.
  induction k as [|k IH]; [reflexivity|].
  cbn [repeat split_sep]. rewrite N.eqb_refl, IH. reflexivity.
Qed.

Lemma walk_empties (r : node) (k : nat) (cur key : key) :
  walk r cur (repeat [] k) = Return key -> key = cur.
Proof.
  induction k as [|k IH]; cbn [repeat walk]; [intros [= <-]; reflexivity|].
  unfold walk1. destruct (lookup r cur) as [[d|es]|]; try discriminate.
  cbn [pystr_eqb orb]. exact IH.
Qed.

Lemma resolve_nonempty (fs : filesystem) (p : pystr) :
  p <> [] -> resolve fs p = walk (root fs) (start fs p) (split_sep p).
Proof. destruct p; [congruence|reflexivity]. Qed.

(** Trailing slashes do not change the directory that a path names. *)
Lemma isdir_rstrip (fs : filesystem) (p : pystr) :
  rstrip p os_path.sep <> [] ->
  isdir fs p = true -> isdir fs (rstrip p os_path.sep) = true.
Proof.
  intros Hr H. destruct (rstrip_spec p os_path.sep) as [k Hk].
  destruct k as [|k]; [rewrite app_nil_r in Hk; rewrite <- Hk; exact H|].
  apply isdir_resolve in H as (key & Hres & Hdir).
  apply isdir_resolve. exists key. split; [|exact Hdir].
  assert (Hp : p <> []) by (intros ->; apply Hr; reflexivity).
  rewrite resolve_nonempty in * by assumption.
  rewrite Hk in Hres at 1. rewrite start_app in Hres by exact Hr.
  rewrite Hk in Hres at 2.
  cbn [repeat] in Hres.
  rewrite split_sep_app_sep, split_sep_seps, walk_app in Hres.
  destruct (walk (root fs) (start fs (rstrip p os_path.sep))
              (split_sep (rstrip p os_path.sep))) as [key'|e];
    [|discriminate].
  apply walk_empties in Hres. congruence.
Qed.

Lemma slice_to_snoc (pre post : pystr) (c : codepoint) :
  slice_to (pre ++ c :: post) (len pre + 1) = pre ++ [c].
Proof.
  replace (pre ++ c :: post) with ((pre ++ [c]) ++ post)
    by (rewrite <- app_assoc; reflexivity).
  replace (len pre + 1) with (len (pre ++ [c])); [apply slice_to_app|].
  unfold len. rewrite length_app. cbn [List.length]. lia.
Qed.

Lemma dirname_snoc (pre name : pystr) :
  ~ In os_path.sep name ->
  os_path.dirname (pre ++ os_path.sep :: name)
  = if pystr_eqb (pre ++ [os_path.sep])
         (repeat os_path.sep (List.length (pre ++ [os_path.sep])))
    then pre ++ [os_path.sep]
    else rstrip (pre ++ [os_path.sep]) os_path.sep.
Proof.
  intros Hname. unfold os_path.dirname, os_path.split. cbn [fst].
  rewrite (rfind_last pre name os_path.sep Hname), slice_to_snoc.
  destruct (pre ++ [os_path.sep]) as [|c l] eqn:E;
    [apply app_eq_nil in E as [_ E]; discriminate E|].
  cbn [andb]. destruct (pystr_eqb _ _); reflexivity.
Qed.

(** [os.path.dirname(os.path.join(out, name))] is [out] without its
    trailing slashes, or [out] when it has nothing else. *)
Lemma dirname_join (out name : pystr) :
  out <> [] -> ~ In os_path.sep name ->
  os_path.dirname (os_path.join out name)
  = if pystr_eqb out (repeat os_path.sep (List.length out))
    then out else rstrip out os_path.sep.
Proof.
  intros Hout Hname.
  rewrite join_relative by (apply startswith_sep_notin, Hname).
  replace (nonempty out) with true
    by (destruct out; [congruence|reflexivity]).
  cbn [andb]. destruct (endswith out [os_path.sep]) eqn:Ee; cbn [negb].
  - apply endswith_spec in Ee as (o & ->). rewrite <- app_assoc. cbn [app].
    apply dirname_snoc, Hname.
  - rewrite dirname_snoc by exact Hname. rewrite rstrip_snoc.
    destruct (pystr_eqb (out ++ _) _) eqn:E1.
    + exfalso. apply pystr_eqb_eq in E1.
      rewrite length_app in E1. cbn [List.length] in E1.
      rewrite Nat.add_1_r, <- repeat_snoc in E1.
      apply app_inj_tail in E1 as [E1 _].
      destruct out as [|c out'] using rev_ind; [congruence|].
      assert (Hc : endswith (out' ++ [c]) [os_path.sep] = true).
      { apply endswith_spec. exists out'.
        rewrite length_app in E1. cbn [List.length] in E1.
        rewrite Nat.add_1_r, <- repeat_snoc in E1.
        apply app_inj_tail in E1 as [_ ->]. reflexivity. }
      congruence.
    + destruct (pystr_eqb out _) eqn:E2; [|reflexivity].
      exfalso. apply pystr_eqb_eq in E2.
      apply pystr_eqb_neq in E1. apply E1.
      rewrite length_app. cbn [List.length].
      rewrite Nat.add_1_r, <- repeat_snoc. f_equal. exact E2.
Qed.

(** The destination directory of a result file exists when the output
    directory does. *)
Lemma isdir_dirname_join (fs : filesystem) (out name : pystr) :
  out <> [] -> ~ In os_path.sep name ->
  isdir fs out = true ->
  isdir fs (os_path.dirname (os_path.join out name)) = true.
Proof.
  intros Hout Hname H. rewrite dirname_join by assumption.
  destruct (pystr_eqb out _) eqn:E; [exact H|].
  apply isdir_rstrip; [|exact H]. intros Hr.
  apply pystr_eqb_neq in E. apply E.
  destruct (rstrip_spec out os_path.sep) as [k Hk].
  rewrite Hr in Hk. cbn [app] in Hk. rewrite Hk at 1.
  rewrite Hk, repeat_length. reflexivity.
Qed.

End JoinedPaths.

(** ** Entries of a directory, joined to it *)

Section JoinedEntries.

Lemma dirname_entry (name : pystr) :
  ~ In os_path.sep name -> os_path.dirname name = [].
Proof.
  intros H. unfold os_path.dirname, os_path.split.
  rewrite (rfind_notin _ _ H). reflexivity.
Qed.

Lemma basename_snoc (pre name : pystr) :
  ~ In os_path.sep name ->
  os_path.basename (pre ++ os_path.sep :: name) = name.
Proof.
  intros H. unfold os_path.basename. rewrite rfind_last by exact H.
  replace (pre ++ os_path.sep :: name) with ((pre ++ [os_path.sep]) ++ name)
    by (rewrite <- app_assoc; reflexivity).
  replace (len pre + 1) with (len (pre ++ [os_path.sep]));
    [apply slice_from_app|].
  unfold len. rewrite length_app. cbn [List.length]. lia.
Qed.

(** The file name sent with the audio is the entry of the listing. *)
Lemma basename_join (dir name : pystr) :
  ~ In os_path.sep name ->
  os_path.basename (os_path.join dir name) = name.
Proof.
  intros H. rewrite join_relative by (apply startswith_sep_notin, H).
  destruct dir as [|c dir'] eqn:Ed.
  - cbn [nonempty andb app]. unfold os_path.basename.
    rewrite (rfind_notin _ _ H). reflexivity.
  - rewrite <- Ed. replace (nonempty dir) with true by (subst; reflexivity).
    cbn [andb]. clear Ed c dir'.
    destruct (endswith dir [os_path.sep]) eqn:Ee; cbn [negb].
    + apply endswith_spec in Ee as (o & ->). rewrite <- app_assoc.
      apply basename_snoc, H.
    + apply basename_snoc, H.
Qed.

Lemma map_basename_join (dir : pystr) (names : list pystr) :
  Forall entry_name names ->
  map (fun a => os_path.basename (audio_file_path dir a)) names = names.
Proof.
  induction 1 as [|a l Ha _ IH]; [reflexivity|].
  cbn [map]. rewrite IH. unfold audio_file_path.
  rewrite (basename_join dir a Ha). reflexivity.
Qed.

Lemma Forall_firstn {A} (P : A -> Prop) (n : nat) (l : list A) :
  Forall P l -> Forall P (firstn n l).
Proof.
  intros H. revert n. induction H as [|a l Ha _ IH]; intros [|n];
    cbn [firstn]; constructor; auto.
Qed.

Lemma Forall_filter {A} (P : A -> Prop) (f : A -> bool) (l : list A) :
  Forall P l -> Forall P (filter f l).
Proof.
  induction 1 as [|a l Ha _ IH]; cbn [filter]; [constructor|].
  destruct (f a); [constructor|]; assumption.
Qed.

Lemma filter_partition_length {A} (f : A -> bool) (l : list A) :
  (List.length (filter f l)
   + List.length (filter (fun a => negb (f a)) l))%nat = List.length l.
Proof.
  induction l as [|a l IH]; [reflexivity|].
  cbn [filter]. destruct (f a); cbn [negb List.length]; lia.
Qed.

End JoinedEntries.

(** ** The client, one call at a time *)

Section ClientFacts.
Context {FL : PyFloat}.
Variable server : list request -> request -> option response.

(** [sendRequest], outcome by outcome.  The status code of the response
    appears nowhere. *)
Lemma sendRequest_spec (host : pystr) (port : Z) (fpath mdata : pystr)
    (w : world) :
  sendRequest server host port fpath mdata w =
  match os.read (fs w) fpath with
  | Raise e =>
      (Raise e,
       {| fs := fs w; posted := posted w;
          stdout := stdout w ++ [Requesting fpath] |})
  | Return audio =>
      let req := request_for host port fpath mdata audio in
      match server (posted w) req with
      | None =>
          (Raise ConnectionError,
           {| fs := fs w; posted := posted w ++ [req];
              stdout := stdout w ++ [Requesting fpath] |})
      | Some resp =>
          let w' := {| fs := fs w; posted := posted w ++ [req];
                       stdout := (stdout w ++ [Requesting fpath])
                                 ++ [Response (text resp)] |} in
          match json.loads (text resp) with
          | Some data => (Return data, w')
          | None => (Raise JSONDecodeError, w')
          end
      end
  end.
Proof.
  unfold sendRequest, bind, print, with_fs, requests_post, json_loads,
    request_for. cbn [fs posted stdout fst snd].
  destruct (os.read (fs w) fpath) as [audio|e]; [|reflexivity].
  cbn [fs posted stdout].
  destruct (server _ _) as [resp|]; [|reflexivity].
  cbn [fs posted stdout]. destruct (json.loads (text resp)); reflexivity.
Qed.

(** [saveResult]: [os.makedirs], then the write. *)
Lemma saveResult_spec (data : json.value) (fpath : pystr) (w : world) :
  saveResult data fpath w =
  match os.makedirs (fs w) (os_path.dirname fpath) with
  | (Raise e, fs1) =>
      (Raise e, {| fs := fs1; posted := posted w; stdout := stdout w |})
  | (Return _, fs1) =>
      match os.write fs1 fpath (json.dumps (Some 4%nat) data) with
      | (r, fs2) =>
          (r, {| fs := fs2; posted := posted w; stdout := stdout w |})
      end
  end.
Proof.
  unfold saveResult, bind, with_fs.
  destruct (os.makedirs _ _) as [[[]|e] fs1]; cbn [fs posted stdout];
    [|reflexivity].
  destruct (os.write _ _ _) as [r fs2]. reflexivity.
Qed.

(** What a call of [saveResult] does to the files. *)
Lemma saveResult_files (data : json.value) (fpath : pystr) (w w' : world)
    (r : outcome unit) :
  saveResult data fpath w = (r, w') ->
  posted w' = posted w /\ stdout w' = stdout w
  /\ os.cwd (fs w') = os.cwd (fs w)
  /\ (forall q, os.isdir (fs w) q = true -> os.isdir (fs w') q = true)
  /\ match r with
     | Raise _ =>
         same_files (os.root (fs w)) (os.root (fs w'))
         /\ (forall q d, os.read (fs w) q = Return d ->
                         os.read (fs w') q = Return d)
     | Return _ =>
         os.read (fs w') fpath = Return (json.dumps (Some 4%nat) data)
         /\ (forall q d, os.read (fs w) q = Return d ->
                         os.read (fs w') q = Return d
                         \/ os.read (fs w') q
                            = Return (json.dumps (Some 4%nat) data))
         /\ exists fs1,
              os.makedirs (fs w) (os_path.dirname fpath) = (Return tt, fs1)
              /\ os.isdir fs1 (os_path.dirname fpath) = true
              /\ os.write fs1 fpath (json.dumps (Some 4%nat) data)
                 = (Return tt, fs w')
     end.
Proof.
  rewrite saveResult_spec.
  destruct (os.makedirs _ _) as [r1 fs1] eqn:Em.
  destruct (makedirs_spec _ _ _ _ Em) as (Hc & Hg & Hs & Hd).
  assert (Hdirs1 : forall q, os.isdir (fs w) q = true -> os.isdir fs1 q = true)
    by (intros q Hq; eapply isdir_grows; eassumption).
  assert (Hread1 : forall q d, os.read (fs w) q = Return d ->
                               os.read fs1 q = Return d)
    by (intros q d Hq; eapply read_grows; eassumption).
  destruct r1 as [[]|e].
  - destruct (os.write _ _ _) as [r2 fs2] eqn:Ew. intros [= <- <-].
    cbn [fs posted stdout]. destruct r2 as [[]|e].
    + destruct (write_spec _ _ _ _ Ew) as (Hc2 & Hr & Hi & Ho & _).
      split; [reflexivity|]. split; [reflexivity|].
      split; [congruence|].
      split; [intros q Hq; rewrite Hi; auto|].
      split; [exact Hr|]. split; [intros q d Hq; apply Ho; auto|].
      exists fs1. auto.
    + apply write_raises in Ew. subst fs2.
      split; [reflexivity|]. split; [reflexivity|].
      split; [exact Hc|]. split; [exact Hdirs1|].
      split; [exact Hs|exact Hread1].
  - intros [= <- <-]. cbn [fs posted stdout].
    split; [reflexivity|]. split; [reflexivity|].
    split; [exact Hc|]. split; [exact Hdirs1|].
    split; [exact Hs|exact Hread1].
Qed.

(** What [sendRequest] leaves behind: the files as they were, one line or
    two on the output, and at most one request. *)
Lemma sendRequest_effects (host : pystr) (port : Z) (fpath mdata : pystr)
    (w w' : world) (r : outcome json.value) :
  sendRequest server host port fpath mdata w = (r, w') ->
  fs w' = fs w
  /\ (exists lines, stdout w' = stdout w ++ Requesting fpath :: lines
                    /\ Forall (fun l => match l with
                                        | Requesting _ => False
                                        | Response _ => True
                                        end) lines)
  /\ ((posted w' = posted w /\ exists e, r = Raise e)
      \/ exists audio,
           os.read (fs w) fpath = Return audio
           /\ posted w'
              = posted w ++ [request_for host port fpath mdata audio]).
Proof.
  rewrite sendRequest_spec.
  destruct (os.read (fs w) fpath) as [audio|e].
  - cbv zeta. destruct (server _ _) as [resp|].
    + destruct (json.loads (text resp)); intros [= <- <-];
        cbn [fs posted stdout]; (split; [reflexivity|]);
        (split; [exists [Response (text resp)]; rewrite <- app_assoc;
                 split; [reflexivity|repeat constructor]|]);
        right; exists audio; auto.
    + intros [= <- <-]. cbn [fs posted stdout]. split; [reflexivity|].
      split; [exists []; split; [reflexivity|constructor]|].
      right; exists audio; auto.
  - intros [= <- <-]. cbn [fs posted stdout]. split; [reflexivity|].
    split; [exists []; split; [reflexivity|constructor]|].
    left. split; [reflexivity|eauto].
Qed.

(** The loop body on an entry that is not an audio file does nothing. *)
Lemma loop_body_skip (args : Namespace) (audio_file : pystr) (w : world) :
  is_audio_file audio_file = false ->
  loop_body server args audio_file w = (Return tt, w).
Proof. intros H. unfold loop_body. rewrite H. reflexivity. Qed.

Lemma loop_body_audio (args : Namespace) (audio_file : pystr) (w : world) :
  is_audio_file audio_file = true ->
  loop_body server args audio_file w =
  match sendRequest server (args_host args) (args_port args)
          (audio_file_path (args_i args) audio_file)
          (json.dumps None (make_mdata args)) w with
  | (Return data, w1) =>
      saveResult data
        (result_file_path (output_directory_of args) audio_file) w1
  | (Raise e, w1) => (Raise e, w1)
  end.
Proof. intros H. unfold loop_body. rewrite H. reflexivity. Qed.

(** [for ... in ...] *)

Lemma for_each_app {A} (l1 l2 : list A) (body : A -> io unit) (w : world) :
  for_each (l1 ++ l2) body w =
  match for_each l1 body w with
  | (Return _, w1) => for_each l2 body w1
  | (Raise e, w1) => (Raise e, w1)
  end.
Proof.
  revert w. induction l1 as [|x l1 IH]; intros w; cbn [app for_each];
    [reflexivity|].
  unfold bind. destruct (body x w) as [[[]|e] w1]; [apply IH|reflexivity].
Qed.

(** An error of the loop is the error of one item, raised in the world
    that the items before it left; no item after it runs. *)
Lemma for_each_raises {A} (l : list A) (body : A -> io unit) :
  forall w e w',
    for_each l body w = (Raise e, w') ->
    exists pre x post w1,
      l = pre ++ x :: post
      /\ for_each pre body w = (Return tt, w1)
      /\ body x w1 = (Raise e, w').
Proof.
  induction l as [|x l IH]; intros w e w'; cbn [for_each].
  - discriminate.
  - unfold bind. destruct (body x w) as [[[]|e0] w1] eqn:E.
    + intros H. destruct (IH _ _ _ H) as (pre & y & post & w2 & -> & H1 & H2).
      exists (x :: pre), y, post, w2. split; [reflexivity|].
      split; [|exact H2]. cbn [for_each]. unfold bind. rewrite E. exact H1.
    + intros [= <- <-]. exists [], x, l, w. auto.
Qed.

End ClientFacts.

(** ** The client, over a whole listing *)

Section RunFacts.
Context {FL : PyFloat}.
Variable server : list request -> request -> option response.

Lemma world_eta (w : world) :
  {| fs := fs w; posted := posted w; stdout := stdout w |} = w.
Proof. destruct w; reflexivity. Qed.

(** The script lists the directory once and loops over the listing. *)
Lemma run_spec (args : Namespace) (w : world) :
  run server args w =
  match os.listdir (fs w) (args_i args) with
  | Return listing => for_each listing (loop_body server args) w
  | Raise e => (Raise e, w)
  end.
Proof.
  unfold run, bind, with_fs. rewrite world_eta.
  destruct (os.listdir _ _); reflexivity.
Qed.

Lemma requesting_lines_app (l1 l2 : list line) :
  requesting_lines (l1 ++ l2) = requesting_lines l1 ++ requesting_lines l2.
Proof. apply flat_map_app. Qed.

Lemma requesting_lines_responses (lines : list line) :
  Forall (fun l => match l with
                   | Requesting _ => False
                   | Response _ => True
                   end) lines ->
  requesting_lines lines = [].
Proof.
  induction 1 as [|[p|t] lines H _ IH]; [reflexivity|destruct H|exact IH].
Qed.

(** One turn of the loop on an audio file: one line announcing it, at most
    one request, with the metadata and the URL of the run. *)
Lemma loop_body_trace (args : Namespace) (audio_file : pystr) (w w' : world)
    (r : outcome unit) :
  is_audio_file audio_file = true ->
  loop_body server args audio_file w = (r, w') ->
  requesting_lines (stdout w')
  = requesting_lines (stdout w) ++ [audio_file_path (args_i args) audio_file]
  /\ ((posted w' = posted w /\ exists e, r = Raise e)
      \/ exists req,
           posted w' = posted w ++ [req]
           /\ audio_filename req
              = os_path.basename (audio_file_path (args_i args) audio_file)
           /\ meta req = json.dumps None (make_mdata args)
           /\ url req = analyze_url args).
Proof.
  intros Ha. rewrite loop_body_audio by exact Ha.
  destruct (sendRequest _ _ _ _ _ _) as [r1 w1] eqn:Es.
  destruct (sendRequest_effects _ _ _ _ _ _ _ _ Es)
    as (Hfs & (lines & Hout & Hlines) & Hposted).
  assert (Hreq : requesting_lines (stdout w1)
                 = requesting_lines (stdout w)
                   ++ [audio_file_path (args_i args) audio_file]).
  { rewrite Hout, requesting_lines_app. cbn [requesting_lines flat_map app].
    fold (requesting_lines lines).
    rewrite (requesting_lines_responses _ Hlines). reflexivity. }
  assert (Hp1 : (posted w1 = posted w /\ exists e, r1 = Raise e)
                \/ exists req,
                     posted w1 = posted w ++ [req]
                     /\ audio_filename req
                        = os_path.basename
                            (audio_file_path (args_i args) audio_file)
                     /\ meta req = json.dumps None (make_mdata args)
                     /\ url req = analyze_url args).
  { destruct Hposted as [H|(audio & _ & H)]; [left; exact H|].
    right. eexists. split; [exact H|]. repeat split. }
  destruct r1 as [data|e].
  - intros H. apply saveResult_files in H as (Hp & Ho & _).
    rewrite Hp, Ho. split; [exact Hreq|].
    destruct Hp1 as [(_ & e & He)|H]; [discriminate He|right; exact H].
  - intros [= <- <-]. split; [exact Hreq|].
    destruct Hp1 as [(H & _)|H]; [left; eauto|right; exact H].
Qed.

Lemma loop_body_returns_posts (args : Namespace) (audio_file : pystr)
    (w w' : world) :
  is_audio_file audio_file = true ->
  loop_body server args audio_file w = (Return tt, w') ->
  exists req,
    posted w' = posted w ++ [req]
    /\ audio_filename req
       = os_path.basename (audio_file_path (args_i args) audio_file)
    /\ meta req = json.dumps None (make_mdata args)
    /\ url req = analyze_url args.
Proof.
  intros Ha H. destruct (loop_body_trace _ _ _ _ _ Ha H) as (_ & [(_ & e & He)|Hr]);
    [discriminate He|exact Hr].
Qed.

(** The trace of the loop: the files announced are a prefix of the
    candidates in the order of the listing, the requests sent are for a
    prefix of them, and for all of them when the loop returns. *)
Lemma for_each_trace (args : Namespace) (listing : list pystr) :
  forall w r w',
    for_each listing (loop_body server args) w = (r, w') ->
    exists started reqs,
      requesting_lines (stdout w')
      = requesting_lines (stdout w)
        ++ map (audio_file_path (args_i args)) started
      /\ posted w' = posted w ++ reqs
      /\ started = firstn (List.length started) (candidates listing)
      /\ map audio_filename reqs
         = map (fun a => os_path.basename (audio_file_path (args_i args) a))
               (firstn (List.length reqs) (candidates listing))
      /\ Forall (fun q => meta q = json.dumps None (make_mdata args)
                          /\ url q = analyze_url args) reqs
      /\ (List.length reqs <= List.length started)%nat
      /\ (r = Return tt ->
          started = candidates listing
          /\ List.length reqs = List.length (candidates listing)).
Proof.
  induction listing as [|x l IH]; intros w r w'; cbn [for_each].
  - intros [= <- <-]. exists [], []. cbn. rewrite !app_nil_r.
    repeat split; auto.
  - unfold bind. destruct (is_audio_file x) eqn:Ha.
    + destruct (loop_body server args x w) as [r1 w1] eqn:E1.
      destruct (loop_body_trace _ _ _ _ _ Ha E1) as (Hs1 & Hp1).
      unfold candidates. cbn [filter]. rewrite Ha. fold (candidates l).
      destruct r1 as [[]|e].
      * intros H. destruct (IH _ _ _ H)
          as (started & reqs & Hs & Hp & Hst & Hn & Hm & Hle & Hr).
        destruct Hp1 as [(_ & e & He)|(req & Hq & Hname & Hmeta & Hurl)];
          [discriminate He|].
        exists (x :: started), (req :: reqs). cbn [List.length firstn map].
        rewrite Hs, Hs1, Hp, Hq, <- !app_assoc. cbn [app].
        split; [reflexivity|]. split; [reflexivity|].
        split; [f_equal; exact Hst|].
        split; [f_equal; [exact Hname|exact Hn]|].
        split; [constructor; auto|]. split; [lia|].
        intros Hret. destruct (Hr Hret) as (-> & ->). auto.
      * intros [= <- <-].
        destruct Hp1 as [(Hq & _)|(req & Hq & Hname & Hmeta & Hurl)].
        -- exists [x], []. cbn [List.length firstn map]. rewrite Hs1, Hq, app_nil_r.
           repeat split; auto; discriminate.
        -- exists [x], [req]. cbn [List.length firstn map]. rewrite Hs1, Hq.
           split; [reflexivity|]. split; [reflexivity|].
           split; [reflexivity|]. split; [f_equal; exact Hname|].
           split; [constructor; auto|]. split; [lia|discriminate].
    + rewrite loop_body_skip by exact Ha.
      unfold candidates. cbn [filter]. rewrite Ha. apply IH.
Qed.

(** What a turn of the loop does to the files. *)
Lemma loop_body_files (args : Namespace) (audio_file : pystr) (w w' : world)
    (r : outcome unit) :
  loop_body server args audio_file w = (r, w') ->
  os.cwd (fs w') = os.cwd (fs w)
  /\ (forall q, os.isdir (fs w) q = true -> os.isdir (fs w') q = true)
  /\ match r with
     | Raise _ =>
         same_files (os.root (fs w)) (os.root (fs w'))
         /\ (forall q d, os.read (fs w) q = Return d ->
                         os.read (fs w') q = Return d)
     | Return _ =>
         forall q d, os.read (fs w) q = Return d ->
                     os.read (fs w') q = Return d
                     \/ exists data,
                          os.read (fs w') q
                          = Return (json.dumps (Some 4%nat) data)
     end.
Proof.
  destruct (is_audio_file audio_file) eqn:Ha.
  - rewrite loop_body_audio by exact Ha.
    destruct (sendRequest _ _ _ _ _ _) as [r1 w1] eqn:Es.
    destruct (sendRequest_effects _ _ _ _ _ _ _ _ Es) as (Hfs & _).
    destruct r1 as [data|e].
    + intros H. apply saveResult_files in H as (_ & _ & Hc & Hd & Hr).
      rewrite Hfs in *. split; [exact Hc|]. split; [exact Hd|].
      destruct r as [[]|e].
      * destruct Hr as (_ & Ho & _). intros q d Hq.
        destruct (Ho q d Hq); eauto.
      * exact Hr.
    + intros [= <- <-]. rewrite Hfs.
      split; [reflexivity|]. split; [auto|].
      split; [apply same_files_refl|auto].
  - rewrite loop_body_skip by exact Ha. intros [= <- <-].
    split; [reflexivity|]. split; [auto|]. intros q d Hq. auto.
Qed.

(** A successful turn on an audio file: the response was decoded and its
    dump is in the result file. *)
Lemma loop_body_returns (args : Namespace) (audio_file : pystr)
    (w w' : world) :
  is_audio_file audio_file = true ->
  loop_body server args audio_file w = (Return tt, w') ->
  exists audio resp data fs1,
    os.read (fs w) (audio_file_path (args_i args) audio_file) = Return audio
    /\ server (posted w)
         (request_for (args_host args) (args_port args)
            (audio_file_path (args_i args) audio_file)
            (json.dumps None (make_mdata args)) audio) = Some resp
    /\ json.loads (text resp) = Some data
    /\ os.makedirs (fs w)
         (os_path.dirname
            (result_file_path (output_directory_of args) audio_file))
       = (Return tt, fs1)
    /\ os.isdir fs1
         (os_path.dirname
            (result_file_path (output_directory_of args) audio_file)) = true
    /\ os.write fs1 (result_file_path (output_directory_of args) audio_file)
         (json.dumps (Some 4%nat) data) = (Return tt, fs w')
    /\ os.read (fs w')
         (result_file_path (output_directory_of args) audio_file)
       = Return (json.dumps (Some 4%nat) data).
Proof.
  intros Ha. rewrite loop_body_audio by exact Ha.
  rewrite sendRequest_spec.
  destruct (os.read _ _) as [audio|e]; [|discriminate]. cbv zeta.
  destruct (server _ _) as [resp|] eqn:Esrv; [|discriminate].
  destruct (json.loads (text resp)) as [data|] eqn:El; [|discriminate].
  intros H. apply saveResult_files in H as (_ & _ & _ & _ & Hr & _ & fs1 & H1 & H2 & H3).
  cbn [fs] in *. exists audio, resp, data, fs1. auto 10.
Qed.

(** When the loop returns, every candidate has its result file, holding
    the dump of a decoded response. *)
Lemma for_each_results (args : Namespace) (listing : list pystr) :
  forall w w',
    for_each listing (loop_body server args) w = (Return tt, w') ->
    forall a, In a listing -> is_audio_file a = true ->
    exists data,
      os.read (fs w') (result_file_path (output_directory_of args) a)
      = Return (json.dumps (Some 4%nat) data).
Proof.
  assert (Hkeep : forall l w w' q,
             for_each l (loop_body server args) w = (Return tt, w') ->
             (exists data, os.read (fs w) q
                           = Return (json.dumps (Some 4%nat) data)) ->
             exists data, os.read (fs w') q
                          = Return (json.dumps (Some 4%nat) data)).
  { induction l as [|x l IH]; intros w w' q; cbn [for_each].
    - intros [= <-]. auto.
    - unfold bind. destruct (loop_body server args x w) as [[[]|e] w1] eqn:E;
        [|discriminate].
      intros H (data & Hq). apply (IH _ _ _ H).
      apply loop_body_files in E as (_ & _ & Hf).
      destruct (Hf _ _ Hq) as [H1|H1]; eauto. }
  induction listing as [|x l IH]; intros w w' H a Hin Ha; [destruct Hin|].
  cbn [for_each] in H. unfold bind in H.
  destruct (loop_body server args x w) as [[[]|e] w1] eqn:E; [|discriminate].
  destruct Hin as [->|Hin]; [|eapply IH; eassumption].
  apply (Hkeep _ _ _ _ H).
  destruct (loop_body_returns _ _ _ _ Ha E) as (? & ? & data & ? & ? & ? & ? & ? & ? & ? & Hr).
  eauto.
Qed.

End RunFacts.

(** ** The claims about a run *)

Section Claims.
Context {FL : PyFloat} {FLL : PyFloatLaws FL}.
Variable server : list request -> request -> option response.

(** C1 (amended): in a run that completes, every audio file of the listing
    has a result file at its derived path, holding the dump of a decoded
    response.  The result paths of two entries are equal exactly when
    [os.path.splitext] gives the two names the same root; so two distinct
    entries with the same extension never collide, while [a.wav] and
    [a.mp3] do. *)
Theorem result_files_of_a_completed_run (args : Namespace) (w w' : world)
    (listing : list pystr) :
  os.listdir (fs w) (args_i args) = Return listing ->
  Forall entry_name listing ->
  run server args w = (Return tt, w') ->
  (forall a, In a listing -> is_audio_file a = true ->
     exists data,
       os.read (fs w') (result_file_path (output_directory_of args) a)
       = Return (json.dumps (Some 4%nat) data))
  /\ (forall a b, In a listing -> In b listing ->
        (result_file_path (output_directory_of args) a
         = result_file_path (output_directory_of args) b
         <-> fst (os_path.splitext a) = fst (os_path.splitext b)))
  /\ (forall a b, In a listing -> In b listing -> a <> b ->
        snd (os_path.splitext a) = snd (os_path.splitext b) ->
        result_file_path (output_directory_of args) a
        <> result_file_path (output_directory_of args) b).
Proof.
  intros Hlist Hnames Hrun. rewrite run_spec, Hlist in Hrun.
  rewrite Forall_forall in Hnames. split; [|split].
  - intros a Hin Ha. eapply for_each_results; eassumption.
  - intros a b Ha Hb. apply result_file_path_eq_iff; apply Hnames; assumption.
  - intros a b Ha Hb Hab Hext.
    apply same_extension_no_collision; auto.
Qed.

(** C3: the loop sends one request for each entry of the listing whose name
    ends in [.wav] or [.mp3], compared case-sensitively, in the order of
    the listing and under the name of the entry; when the run completes
    these are exactly N requests for the N such entries.  Any other entry
    leaves the world as it was: no request, no result file. *)
Theorem one_request_per_audio_entry (args : Namespace) (w w' : world)
    (r : outcome unit) (listing : list pystr) :
  os.listdir (fs w) (args_i args) = Return listing ->
  Forall entry_name listing ->
  run server args w = (r, w') ->
  exists reqs,
    posted w' = posted w ++ reqs
    /\ map audio_filename reqs
       = firstn (List.length reqs) (candidates listing)
    /\ (r = Return tt ->
        map audio_filename reqs = candidates listing
        /\ List.length reqs = List.length (candidates listing))
    /\ (List.length (candidates listing)
        + List.length (filter (fun a => negb (is_audio_file a)) listing))%nat
       = List.length listing
    /\ (forall a w0, is_audio_file a = false ->
                     loop_body server args a w0 = (Return tt, w0))
    /\ (forall a, is_audio_file a
                  = endswith a (py ".wav") || endswith a (py ".mp3"))
    /\ is_audio_file (py "CLIP.WAV") = false.
Proof.
  intros Hlist Hnames Hrun. rewrite run_spec, Hlist in Hrun.
  destruct (for_each_trace server args listing _ _ _ Hrun)
    as (started & reqs & _ & Hp & _ & Hn & _ & _ & Hr).
  assert (Hmap : map audio_filename reqs
                 = firstn (List.length reqs) (candidates listing)).
  { rewrite Hn. apply map_basename_join, Forall_firstn, Forall_filter, Hnames. }
  exists reqs. split; [exact Hp|]. split; [exact Hmap|].
  split.
  { intros Hret. destruct (Hr Hret) as (_ & Hlen). split; [|exact Hlen].
    rewrite Hmap, Hlen. apply firstn_all. }
  split; [apply filter_partition_length|].
  split; [intros a w0 Ha; apply loop_body_skip, Ha|].
  split; reflexivity.
Qed.

(** C4: a result file is written to [os.path.join(output_directory, ...)],
    where the output directory is the input directory when [--o] is the
    empty string and the path given with [--o] otherwise.  Before the
    file is written [os.makedirs] has returned and the output directory
    exists, whatever was missing of it having been made; when the
    directory exists already, [os.makedirs] returns without an error and
    changes nothing. *)
Theorem output_directory_is_made_before_the_write (args : Namespace)
    (a : pystr) (w w' : world) :
  entry_name a ->
  is_audio_file a = true ->
  loop_body server args a w = (Return tt, w') ->
  (args_o args = [] -> output_directory_of args = args_i args)
  /\ (args_o args <> [] -> output_directory_of args = args_o args)
  /\ (exists data fs1,
        os.makedirs (fs w)
          (os_path.dirname
             (os_path.join (output_directory_of args) (result_file_name a)))
        = (Return tt, fs1)
        /\ os.isdir fs1 (output_directory_of args) = true
        /\ os.write fs1
             (os_path.join (output_directory_of args) (result_file_name a))
             (json.dumps (Some 4%nat) data)
           = (Return tt, fs w')
        /\ os.read (fs w')
             (os_path.join (output_directory_of args) (result_file_name a))
           = Return (json.dumps (Some 4%nat) data)
        /\ os.isdir (fs w') (output_directory_of args) = true)
  /\ (forall files,
        os.isdir files (output_directory_of args) = true ->
        os.makedirs files
          (os_path.dirname
             (os_path.join (output_directory_of args) (result_file_name a)))
        = (Return tt, files)).
Proof.
  intros Hentry Ha Hloop.
  pose proof (result_file_name_notin_sep a Hentry) as Hname.
  split; [intros H; unfold output_directory_of; rewrite H; reflexivity|].
  split.
  { intros H. unfold output_directory_of.
    destruct (args_o args); [congruence|reflexivity]. }
  destruct (loop_body_returns server _ _ _ _ Ha Hloop)
    as (audio & resp & data & fs1 & _ & _ & _ & Hmk & _ & Hwr & Hrd).
  unfold result_file_path in *.
  assert (Hout : output_directory_of args <> []).
  { intros E. rewrite E in Hmk.
    rewrite join_relative in Hmk by (apply startswith_sep_notin, Hname).
    cbn [nonempty andb app] in Hmk.
    rewrite (dirname_entry _ Hname) in Hmk. discriminate Hmk. }
  pose proof (write_join_isdir _ _ _ _ _ Hwr Hout Hname) as Hdir.
  split.
  { exists data, fs1. split; [exact Hmk|]. split; [exact Hdir|].
    split; [exact Hwr|]. split; [exact Hrd|].
    destruct (write_spec _ _ _ _ Hwr) as (_ & _ & Hsame & _).
    rewrite Hsame. exact Hdir. }
  intros files Hfiles. apply makedirs_exists.
  apply isdir_dirname_join; assumption.
Qed.



(** C7: an error of the run is the error of listing the directory, or the
    error that the body of the loop raised for one audio file; nothing
    catches it.  The entries before that file were processed to the end
    and their result files are still there with their content; requests
    were sent for the audio files up to that one only, and the failing
    turn left every file as it was. *)
Theorem failure_aborts_the_batch (args : Namespace) (w w' : world)
    (e : exn) :
  run server args w = (Raise e, w') ->
  (os.listdir (fs w) (args_i args) = Raise e /\ w' = w)
  \/ exists listing pre x post w1,
       os.listdir (fs w) (args_i args) = Return listing
       /\ listing = pre ++ x :: post
       /\ is_audio_file x = true
       /\ for_each pre (loop_body server args) w = (Return tt, w1)
       /\ loop_body server args x w1 = (Raise e, w')
       /\ requesting_lines (stdout w')
          = requesting_lines (stdout w)
            ++ map (audio_file_path (args_i args)) (candidates pre ++ [x])
       /\ (exists reqs last_req,
             posted w' = posted w ++ reqs ++ last_req
             /\ map audio_filename reqs
                = map (fun a => os_path.basename
                                  (audio_file_path (args_i args) a))
                      (candidates pre)
             /\ (last_req = []
                 \/ exists req,
                      last_req = [req]
                      /\ audio_filename req
                         = os_path.basename
                             (audio_file_path (args_i args) x)))
       /\ same_files (os.root (fs w1)) (os.root (fs w'))
       /\ (forall q d, os.read (fs w1) q = Return d ->
                       os.read (fs w') q = Return d)
       /\ (forall a, In a pre -> is_audio_file a = true ->
             exists data,
               os.read (fs w')
                 (result_file_path (output_directory_of args) a)
               = Return (json.dumps (Some 4%nat) data)).
Proof.
  rewrite run_spec. destruct (os.listdir _ _) as [listing|e0].
  - intros Hrun. right.
    destruct (for_each_raises _ _ _ _ _ Hrun)
      as (pre & x & post & w1 & Hl & Hpre & Hx).
    exists listing, pre, x, post, w1.
    assert (Ha : is_audio_file x = true).
    { destruct (is_audio_file x) eqn:E; [reflexivity|].
      rewrite loop_body_skip in Hx by exact E. discriminate Hx. }
    destruct (for_each_trace server _ _ _ _ _ Hpre)
      as (started & reqs & Hs & Hp & _ & Hn & _ & _ & Hr).
    destruct (Hr eq_refl) as (-> & Hlen).
    rewrite Hlen, firstn_all in Hn.
    destruct (loop_body_trace server _ _ _ _ _ Ha Hx) as (Hsx & Hpx).
    pose proof (loop_body_files server _ _ _ _ _ Hx) as (_ & _ & Hsame & Hkeep).
    split; [reflexivity|]. split; [exact Hl|]. split; [exact Ha|].
    split; [exact Hpre|]. split; [exact Hx|].
    split; [rewrite Hsx, Hs, map_app, <- app_assoc; reflexivity|].
    split.
    { destruct Hpx as [(Hq & _)|(req & Hq & Hname & _)].
      - exists reqs, []. rewrite app_nil_r, Hq.
        split; [exact Hp|]. split; [exact Hn|]. left; reflexivity.
      - exists reqs, [req]. rewrite Hq, Hp, <- app_assoc.
        split; [reflexivity|]. split; [exact Hn|]. right; eauto. }
    split; [exact Hsame|]. split; [exact Hkeep|].
    intros a Hin Haa.
    destruct (for_each_results server _ _ _ _ Hpre a Hin Haa) as (data & Hd).
    exists data. apply Hkeep, Hd.
  - intros [= <- <-]. left. split; reflexivity.
Qed.

(** C8 (amended): the run lists the input directory once and goes through
    the listing once, in the order in which [os.listdir] yields it: the
    audio files are announced, and requested, in the order of the
    listing.  Nothing sorts them. *)
Theorem candidates_are_processed_in_listing_order (args : Namespace)
    (w w' : world) (r : outcome unit) (listing : list pystr) :
  os.listdir (fs w) (args_i args) = Return listing ->
  run server args w = (r, w') ->
  run server args w = for_each listing (loop_body server args) w
  /\ exists n reqs,
       requesting_lines (stdout w')
       = requesting_lines (stdout w)
         ++ map (audio_file_path (args_i args))
                (firstn n (candidates listing))
       /\ posted w' = posted w ++ reqs
       /\ map audio_filename reqs
          = map (fun a => os_path.basename (audio_file_path (args_i args) a))
                (firstn (List.length reqs) (candidates listing))
       /\ (r = Return tt ->
           firstn n (candidates listing) = candidates listing
           /\ firstn (List.length reqs) (candidates listing)
              = candidates listing).
Proof.
  intros Hlist Hrun. rewrite run_spec, Hlist in *.
  split; [reflexivity|].
  destruct (for_each_trace server _ _ _ _ _ Hrun)
    as (started & reqs & Hs & Hp & Hst & Hn & _ & _ & Hr).
  exists (List.length started), reqs. rewrite <- Hst.
  split; [exact Hs|]. split; [exact Hp|]. split; [exact Hn|].
  intros Hret. destruct (Hr Hret) as (Hall & Hlen).
  split; [exact Hall|]. rewrite Hlen. apply firstn_all.
Qed.

(** C9: [sendRequest] never looks at the status of the response: with the
    status of every response replaced by any other it does the same.
    Once the response is there its body is decoded as JSON; a body that
    is not JSON makes [sendRequest], and the turn of the loop, raise the
    decode error, with nothing put in its place and no file written. *)
Theorem status_is_not_inspected (args : Namespace) (a : pystr) (w : world)
    (audio : pystr) (resp : response) :
  is_audio_file a = true ->
  os.read (fs w) (audio_file_path (args_i args) a) = Return audio ->
  server (posted w)
    (request_for (args_host args) (args_port args)
       (audio_file_path (args_i args) a)
       (json.dumps None (make_mdata args)) audio) = Some resp ->
  let fpath := audio_file_path (args_i args) a in
  let mdata := json.dumps None (make_mdata args) in
  let w1 :=
    {| fs := fs w;
       posted := posted w
                 ++ [request_for (args_host args) (args_port args)
                       fpath mdata audio];
       stdout := (stdout w ++ [Requesting fpath])
                 ++ [Response (text resp)] |} in
  (forall code host port p m w0,
     sendRequest (with_status code server) host port p m w0
     = sendRequest server host port p m w0)
  /\ sendRequest server (args_host args) (args_port args) fpath mdata w
     = (match json.loads (text resp) with
        | Some data => Return data
        | None => Raise JSONDecodeError
        end, w1)
  /\ (json.loads (text resp) = None ->
      loop_body server args a w = (Raise JSONDecodeError, w1)).
Proof.
  intros Ha Hread Hsrv fpath mdata w1.
  assert (Hsend : sendRequest server (args_host args) (args_port args)
                    fpath mdata w
                  = (match json.loads (text resp) with
                     | Some data => Return data
                     | None => Raise JSONDecodeError
                     end, w1)).
  { rewrite sendRequest_spec. subst fpath mdata. rewrite Hread. cbv zeta.
    rewrite Hsrv. destruct (json.loads (text resp)); reflexivity. }
  split; [|split; [exact Hsend|]].
  - intros code host port p m w0. rewrite !sendRequest_spec.
    destruct (os.read (fs w0) p) as [au|e0]; [|reflexivity]. cbv zeta.
    unfold with_status.
    destruct (server (posted w0) (request_for host port p m au)) as [rs|];
      reflexivity.
  - intros Hnone. rewrite loop_body_audio by exact Ha.
    fold fpath mdata. rewrite Hsend, Hnone. reflexivity.
Qed.

End Claims.

(** ** The claims on sample runs *)

(** The sample runs take the floats whose value is an integer. *)
#[local] Existing Instance integral_floats.
#[local] Existing Instance integral_floats_laws.

(** C1, as stated, fails in the directory that holds [a.wav] and [a.mp3]:
    both are processed, both derive [a.BirdNET.results.json], and the run
    ends with one result file, which holds the answer for [a.mp3]. *)
Lemma twin_names_share_one_result_file :
  py "a.wav" <> py "a.mp3"
  /\ is_audio_file (py "a.wav") = true
  /\ is_audio_file (py "a.mp3") = true
  /\ result_file_name (py "a.wav") = result_file_name (py "a.mp3")
  /\ exists w',
       main (FL := integral_floats) numbering no_options twins
       = (Return tt, w')
       /\ map audio_filename (posted w') = [py "a.wav"; py "a.mp3"]
       /\ os.listdir (fs w') (py "example/")
          = Return [py "a.wav"; py "a.mp3"; py "a.BirdNET.results.json"]
       /\ os.read (fs w') (py "example/a.BirdNET.results.json")
          = Return (json.dumps (FL := integral_floats) (Some 4%nat)
                      (json.JList [json.JInt 2])).
Proof.
  split; [intros H; vm_compute in H; discriminate H|].
  do 3 (split; [reflexivity|]).
  exists (snd (main (FL := integral_floats) numbering no_options twins)).
  repeat split; reflexivity.
Qed.

Lemma result_files_of_a_completed_run_witness :
  os.listdir (fs recordings)
    (args_i (parse_args (FL := integral_floats) no_options))
  = Return [py "clip1.wav"; py "notes.txt"; py "clip2.mp3"]
  /\ Forall entry_name [py "clip1.wav"; py "notes.txt"; py "clip2.mp3"]
  /\ (exists w',
        run (FL := integral_floats) (answering 200 detection_body)
          (parse_args no_options) recordings = (Return tt, w')
        /\ exists data,
             os.read (fs w')
               (result_file_path
                  (output_directory_of (parse_args no_options))
                  (py "clip2.mp3"))
             = Return (json.dumps (Some 4%nat) data)).
Proof.
  assert (Hlist : os.listdir (fs recordings)
                    (args_i (parse_args (FL := integral_floats) no_options))
                  = Return [py "clip1.wav"; py "notes.txt"; py "clip2.mp3"])
    by (reflexivity).
  assert (Hnames : Forall entry_name
                     [py "clip1.wav"; py "notes.txt"; py "clip2.mp3"])
    by (repeat constructor; vm_compute; intuition discriminate).
  split; [exact Hlist|]. split; [exact Hnames|].
  exists (snd (run (FL := integral_floats) (answering 200 detection_body)
                 (parse_args no_options) recordings)).
  assert (Hrun : run (FL := integral_floats) (answering 200 detection_body)
                   (parse_args no_options) recordings
                 = (Return tt,
                    snd (run (FL := integral_floats)
                           (answering 200 detection_body)
                           (parse_args no_options) recordings)))
    by (reflexivity).
  split; [exact Hrun|].
  apply (proj1 (result_files_of_a_completed_run
                  (answering 200 detection_body) _ _ _ _ Hlist Hnames Hrun)).
  - right; right; left; reflexivity.
  - reflexivity.
Defined.

Lemma one_request_per_audio_entry_witness :
  os.listdir (fs recordings)
    (args_i (parse_args (FL := integral_floats) no_options))
  = Return [py "clip1.wav"; py "notes.txt"; py "clip2.mp3"]
  /\ Forall entry_name [py "clip1.wav"; py "notes.txt"; py "clip2.mp3"]
  /\ (exists w',
        run (FL := integral_floats) (answering 200 detection_body)
          (parse_args no_options) recordings = (Return tt, w')
        /\ exists reqs,
             posted w' = posted recordings ++ reqs
             /\ map audio_filename reqs
                = candidates [py "clip1.wav"; py "notes.txt"; py "clip2.mp3"]
             /\ List.length reqs = 2%nat).
Proof.
  assert (Hlist : os.listdir (fs recordings)
                    (args_i (parse_args (FL := integral_floats) no_options))
                  = Return [py "clip1.wav"; py "notes.txt"; py "clip2.mp3"])
    by (reflexivity).
  assert (Hnames : Forall entry_name
                     [py "clip1.wav"; py "notes.txt"; py "clip2.mp3"])
    by (repeat constructor; vm_compute; intuition discriminate).
  split; [exact Hlist|]. split; [exact Hnames|].
  exists (snd (run (FL := integral_floats) (answering 200 detection_body)
                 (parse_args no_options) recordings)).
  assert (Hrun : run (FL := integral_floats) (answering 200 detection_body)
                   (parse_args no_options) recordings
                 = (Return tt,
                    snd (run (FL := integral_floats)
                           (answering 200 detection_body)
                           (parse_args no_options) recordings)))
    by (reflexivity).
  split; [exact Hrun|].
  destruct (one_request_per_audio_entry
              (answering 200 detection_body) _ _ _ _ _ Hlist Hnames Hrun)
    as (reqs & Hp & _ & Hr & _).
  exists reqs. split; [exact Hp|]. exact (Hr eq_refl).
Defined.

Lemma output_directory_is_made_before_the_write_witness :
  entry_name (py "clip1.wav")
  /\ is_audio_file (py "clip1.wav") = true
  /\ os.isdir (fs recordings) (py "out/new") = false
  /\ (exists w',
        loop_body (FL := integral_floats) (answering 200 detection_body)
          (parse_args (only_o (py "out/new"))) (py "clip1.wav") recordings
        = (Return tt, w')
        /\ os.isdir (fs w') (py "out/new") = true
        /\ exists data,
             os.read (fs w')
               (os_path.join (py "out/new")
                  (result_file_name (py "clip1.wav")))
             = Return (json.dumps (Some 4%nat) data)).
Proof.
  assert (Hname : entry_name (py "clip1.wav"))
    by (vm_compute; intuition discriminate).
  split; [exact Hname|]. split; [reflexivity|].
  split; [reflexivity|].
  exists (snd (loop_body (FL := integral_floats)
                 (answering 200 detection_body)
                 (parse_args (only_o (py "out/new"))) (py "clip1.wav")
                 recordings)).
  assert (Hloop : loop_body (FL := integral_floats)
                    (answering 200 detection_body)
                    (parse_args (only_o (py "out/new"))) (py "clip1.wav")
                    recordings
                  = (Return tt,
                     snd (loop_body (FL := integral_floats)
                            (answering 200 detection_body)
                            (parse_args (only_o (py "out/new")))
                            (py "clip1.wav") recordings)))
    by (reflexivity).
  split; [exact Hloop|].
  destruct (output_directory_is_made_before_the_write
              (answering 200 detection_body) _ _ _ _ Hname eq_refl Hloop)
    as (_ & _ & (data & fs1 & _ & _ & _ & Hread & Hdir) & _).
  split; [exact Hdir|]. exists data. exact Hread.
Defined.




Lemma failure_aborts_the_batch_witness :
  exists w',
    run (FL := integral_floats) failing_on_clip2 (parse_args no_options)
      three_recordings = (Raise JSONDecodeError, w')
    /\ exists listing pre x post w1,
         os.listdir (fs three_recordings) (args_i (parse_args no_options))
         = Return listing
         /\ listing = pre ++ x :: post
         /\ loop_body failing_on_clip2 (parse_args no_options) x w1
            = (Raise JSONDecodeError, w')
         /\ same_files (os.root (fs w1)) (os.root (fs w')).
Proof.
  exists (snd (run (FL := integral_floats) failing_on_clip2
                 (parse_args no_options) three_recordings)).
  assert (Hrun : run (FL := integral_floats) failing_on_clip2
                   (parse_args no_options) three_recordings
                 = (Raise JSONDecodeError,
                    snd (run (FL := integral_floats) failing_on_clip2
                           (parse_args no_options) three_recordings)))
    by (reflexivity).
  split; [exact Hrun|].
  destruct (failure_aborts_the_batch failing_on_clip2 _ _ _ _ Hrun)
    as [(Hlist & _)
       |(listing & pre & x & post & w1 & Hlist & Hl & _ & _ & Hx & _ & _
         & Hsame & _)].
  - change (Return [py "clip1.wav"; py "clip2.mp3"; py "clip3.wav"]
            = Raise JSONDecodeError) in Hlist.
    discriminate Hlist.
  - exists listing, pre, x, post, w1. auto.
Defined.

(** C8, as stated, fails in a directory that lists [b.wav] before
    [a.wav]: the files are requested in that order, which is not the
    sorted one. *)
Lemma unsorted_listing_is_processed_unsorted :
  os.listdir (fs unsorted) (py "example/")
  = Return [py "b.wav"; py "a.wav"]
  /\ exists w',
       main (FL := integral_floats) (answering 200 (py "[]")) no_options
         unsorted = (Return tt, w')
       /\ requesting_lines (stdout w')
          = [py "example/b.wav"; py "example/a.wav"]
       /\ map audio_filename (posted w') = [py "b.wav"; py "a.wav"]
       /\ sorted (map audio_filename (posted w')) = false.
Proof.
  split; [reflexivity|].
  exists (snd (main (FL := integral_floats) (answering 200 (py "[]"))
                 no_options unsorted)).
  repeat split; reflexivity.
Qed.

Lemma candidates_are_processed_in_listing_order_witness :
  os.listdir (fs unsorted)
    (args_i (parse_args (FL := integral_floats) no_options))
  = Return [py "b.wav"; py "a.wav"]
  /\ exists r w' n,
       run (FL := integral_floats) (answering 200 (py "[]"))
         (parse_args no_options) unsorted = (r, w')
       /\ requesting_lines (stdout w')
          = requesting_lines (stdout unsorted)
            ++ map (audio_file_path (args_i (parse_args no_options)))
                   (firstn n (candidates [py "b.wav"; py "a.wav"])).
Proof.
  assert (Hlist : os.listdir (fs unsorted)
                    (args_i (parse_args (FL := integral_floats) no_options))
                  = Return [py "b.wav"; py "a.wav"])
    by (reflexivity).
  split; [exact Hlist|].
  exists (fst (run (FL := integral_floats) (answering 200 (py "[]"))
                 (parse_args no_options) unsorted)),
         (snd (run (FL := integral_floats) (answering 200 (py "[]"))
                 (parse_args no_options) unsorted)).
  assert (Hrun : run (FL := integral_floats) (answering 200 (py "[]"))
                   (parse_args no_options) unsorted
                 = (fst (run (FL := integral_floats)
                           (answering 200 (py "[]"))
                           (parse_args no_options) unsorted),
                    snd (run (FL := integral_floats)
                           (answering 200 (py "[]"))
                           (parse_args no_options) unsorted)))
    by apply surjective_pairing.
  destruct (candidates_are_processed_in_listing_order
              (answering 200 (py "[]")) _ _ _ _ _ Hlist Hrun)
    as (_ & n & reqs & Hs & _).
  exists n. split; [exact Hrun|exact Hs].
Defined.

Lemma status_is_not_inspected_witness :
  is_audio_file (py "clip1.wav") = true
  /\ os.read (fs recordings) (py "example/clip1.wav") = Return (py "RIFF")
  /\ json.loads (FL := integral_floats) (py "<html>Server Error</html>")
     = None
  /\ fst (loop_body (FL := integral_floats)
            (answering 500 (py "<html>Server Error</html>"))
            (parse_args no_options) (py "clip1.wav") recordings)
     = Raise JSONDecodeError.
Proof.
  assert (Hread : os.read (fs recordings) (py "example/clip1.wav")
                  = Return (py "RIFF")) by reflexivity.
  assert (Hnone : json.loads (FL := integral_floats)
                    (py "<html>Server Error</html>") = None)
    by reflexivity.
  split; [reflexivity|]. split; [exact Hread|]. split; [exact Hnone|].
  pose proof (status_is_not_inspected
                (FL := integral_floats)
                (answering 500 (py "<html>Server Error</html>"))
                (parse_args no_options) (py "clip1.wav") recordings
                (py "RIFF")
                {| status_code := 500;
                   text := py "<html>Server Error</html>" |}
                eq_refl Hread eq_refl) as H.
  cbv zeta in H. destruct H as (_ & _ & Hloop).
  rewrite (Hloop Hnone). reflexivity.
Defined.

(** ** More on paths and on the file tree *)

Section MoreFileTree.
Import os.

Lemma walk1_raises (r : node) (cur : key) (name : pystr) (e : exn) :
  walk1 r cur name = Raise e ->
  e = FileNotFoundError \/ e = NotADirectoryError.
Proof.
  unfold walk1. destruct (lookup r cur) as [[d|es]|].
  - intros [= <-]. auto.
  - destruct (_ || _); [discriminate|].
    destruct (pystr_eqb name (py "..")); discriminate.
  - intros [= <-]. auto.
Qed.

Lemma walk_raises (r : node) (names : list pystr) :
  forall cur e,
    walk r cur names = Raise e ->
    e = FileNotFoundError \/ e = NotADirectoryError.
Proof.
  induction names as [|name names IH]; intros cur e; cbn [walk];
    [discriminate|].
  destruct (walk1 r cur name) as [c|e0] eqn:E; [apply IH|].
  intros [= <-]. eapply walk1_raises, E.
Qed.

Lemma is_dir_removelast (r : node) (k : key) :
  is_dir r k = true -> is_dir r (removelast k) = true.
Proof.
  destruct k as [|x k'] using rev_ind; [auto|].
  rewrite removelast_last. unfold is_dir. rewrite lookup_app.
  destruct (lookup r k') as [[d|es]|]; [discriminate|reflexivity|discriminate].
Qed.

(** A step that ends on a file went down by the name it was given. *)
Lemma walk1_file_last (r : node) (cur k : key) (name d : pystr) :
  walk1 r cur name = Return k ->
  lookup r k = Some (File d) ->
  k = cur ++ [name].
Proof.
  unfold walk1. destruct (lookup r cur) as [[d0|es]|] eqn:E; try discriminate.
  destruct (pystr_eqb name [] || pystr_eqb name (py ".")).
  - intros [= <-] H. congruence.
  - destruct (pystr_eqb name (py "..")).
    + intros [= <-] H. exfalso.
      assert (Hd : is_dir r (removelast cur) = true)
        by (apply is_dir_removelast; unfold is_dir; rewrite E; reflexivity).
      unfold is_dir in Hd. rewrite H in Hd. discriminate Hd.
    + intros [= <-] _. reflexivity.
Qed.

Lemma walk_file_last (r : node) (names : list pystr) (cur k : key)
    (d : pystr) :
  names <> [] ->
  walk r cur names = Return k ->
  lookup r k = Some (File d) ->
  exists dir, k = dir ++ [last names []].
Proof.
  intros Hne Hw Hk. rewrite (app_removelast_last [] Hne), walk_app in Hw.
  match type of Hw with
  | match ?x with _ => _ end = _ => destruct x as [c|e]; [|discriminate Hw]
  end.
  cbn [walk] in Hw.
  match type of Hw with
  | match ?x with _ => _ end = _ =>
      destruct x as [k'|e] eqn:E; [|discriminate Hw]
  end.
  injection Hw as ->. exists c. eapply walk1_file_last; eassumption.
Qed.

(** The path of a file that can be read ends with the name of the file. *)
Lemma read_key (fs : filesystem) (q d : pystr) :
  read fs q = Return d ->
  exists dir,
    resolve fs q = Return (dir ++ [last_name q])
    /\ lookup (root fs) (dir ++ [last_name q]) = Some (File d).
Proof.
  unfold read, stat. destruct (resolve fs q) as [k|e] eqn:E; [|discriminate].
  destruct (lookup (root fs) k) as [[d0|es]|] eqn:Ek; try discriminate.
  intros [= ->].
  assert (Hq : q <> []) by (intros ->; discriminate E).
  rewrite resolve_nonempty in E by exact Hq.
  destruct (walk_file_last _ _ _ _ _ (split_sep_nonempty q) E Ek) as (dir & ->).
  exists dir. split; [reflexivity|exact Ek].
Qed.

(** Putting a file where no directory is leaves the directories as they
    are. *)
Lemma update_file_dirs (r : node) (K : key) (data : pystr) :
  K <> [] ->
  is_dir r (removelast K) = true ->
  is_dir r K = false ->
  forall k, is_dir (update r K (File data)) k = is_dir r k.
Proof.
  intros HK Hparent Hnd k.
  destruct (list_eq_dec (list_eq_dec N.eq_dec) k K) as [->|Hne].
  - rewrite Hnd. unfold is_dir.
    rewrite lookup_update_same by assumption. reflexivity.
  - unfold is_dir. apply shape_dir.
    apply lookup_update_other; [exact I|exact Hnd|exact Hne].
Qed.

(** A write changes no file of another name. *)
Lemma write_other_name (fs fs' : filesystem) (p data q d : pystr) :
  write fs p data = (Return tt, fs') ->
  last_name q <> last_name p ->
  read fs q = Return d ->
  read fs' q = Return d.
Proof.
  intros H Hne Hq.
  destruct (write_returns _ _ _ _ H) as (dir & name & Hl & _ & Hnd & ->).
  destruct (locate_spec _ _ _ _ Hl) as (_ & _ & Hname & Hdir).
  destruct (read_key _ _ _ Hq) as (dq & Hres & Hk).
  assert (HK : dir ++ [name] <> [])
    by (intros E; apply app_eq_nil in E as [_ E]; discriminate E).
  assert (Hdirs : forall k,
             is_dir (update (root fs) (dir ++ [name]) (File data)) k
             = is_dir (root fs) k).
  { apply update_file_dirs; [exact HK| |exact Hnd].
    rewrite removelast_last. exact Hdir. }
  assert (Hkey : dq ++ [last_name q] <> dir ++ [name]).
  { intros E. apply app_inj_tail in E as [_ E]. apply Hne.
    rewrite E, Hname. reflexivity. }
  unfold read, stat.
  assert (Hres' : resolve {| root := update (root fs) (dir ++ [name])
                                       (File data);
                             cwd := cwd fs |} q
                  = Return (dq ++ [last_name q])).
  { revert Hres. unfold resolve, start. cbn [root cwd].
    destruct q; [auto|]. apply walk_dirs. intros k0. rewrite Hdirs. auto. }
  rewrite Hres'. cbn [root].
  assert (Hshape : shape (lookup (update (root fs) (dir ++ [name])
                                    (File data)) (dq ++ [last_name q]))
                   = shape (lookup (root fs) (dq ++ [last_name q])))
    by (apply lookup_update_other; [exact I|exact Hnd|exact Hkey]).
  rewrite (shape_file _ _ d (eq_sym Hshape) Hk).
  reflexivity.
Qed.

(** [os.makedirs] on the path of a file: the file exists, and nothing is
    made. *)
Lemma makedirs_walk_file (names : list pystr) :
  forall r cur k d,
    walk r cur names = Return k ->
    lookup r k = Some (File d) ->
    makedirs_walk r cur names = (Raise FileExistsError, r).
Proof.
  induction names as [|name names IH]; intros r cur k d; cbn [walk].
  - intros [= <-] H. cbn [makedirs_walk]. rewrite H. reflexivity.
  - destruct (walk1 r cur name) as [c|e] eqn:E; [|discriminate].
    intros Hw Hk. revert E. unfold walk1. cbn [makedirs_walk].
    destruct (lookup r cur) as [[d0|es]|]; try discriminate.
    destruct (pystr_eqb name [] || pystr_eqb name (py ".")).
    + intros [= <-]. eapply IH; eassumption.
    + destruct (pystr_eqb name (py "..")).
      * intros [= <-]. eapply IH; eassumption.
      * intros [= <-].
        destruct (lookup r (cur ++ [name])) as [n|] eqn:En;
          [eapply IH; eassumption|].
        exfalso. destruct names as [|n0 names0]; cbn [walk] in Hw.
        -- injection Hw as <-. congruence.
        -- unfold walk1 in Hw. rewrite En in Hw. discriminate Hw.
Qed.

(** *** The last component of a path *)

Lemma last_app_nonempty {A} (l1 l2 : list A) (d : A) :
  l2 <> [] -> last (l1 ++ l2) d = last l2 d.
Proof.
  intros H. rewrite (app_removelast_last d H), app_assoc, !last_last.
  reflexivity.
Qed.

Lemma last_name_entry (s : pystr) : ~ In os_path.sep s -> last_name s = s.
Proof. intros H. unfold last_name. rewrite split_sep_entry by exact H. reflexivity. Qed.

Lemma last_name_after_sep (pre b : pystr) :
  last_name (pre ++ os_path.sep :: b) = last_name b.
Proof.
  unfold last_name. rewrite split_sep_app_sep.
  apply last_app_nonempty, split_sep_nonempty.
Qed.

(** A path is its last component, after nothing or after a slash. *)
Lemma last_name_spec (p : pystr) :
  ~ In os_path.sep (last_name p)
  /\ (p = last_name p \/ exists pre, p = pre ++ os_path.sep :: last_name p).
Proof.
  induction p as [|c p (Hn & IH)].
  - split; [intros []|left; reflexivity].
  - destruct (N.eq_dec c os_path.sep) as [->|Hc].
    + change (os_path.sep :: p) with ([] ++ os_path.sep :: p).
      rewrite last_name_after_sep. split; [exact Hn|]. right.
      destruct IH as [E|(pre & E)].
      * exists []. cbn [app]. rewrite <- E. reflexivity.
      * exists (os_path.sep :: pre). cbn [app]. rewrite <- E. reflexivity.
    + destruct IH as [E|(pre & E)].
      * assert (Hs : ~ In os_path.sep (c :: p)).
        { rewrite E. intros [H|H]; [congruence|exact (Hn H)]. }
        rewrite (last_name_entry _ Hs). split; [exact Hs|left; reflexivity].
      * assert (El : last_name (c :: p) = last_name p).
        { rewrite E at 1.
          change (c :: pre ++ os_path.sep :: last_name p)
            with ((c :: pre) ++ os_path.sep :: last_name p).
          rewrite last_name_after_sep. apply last_name_entry, Hn. }
        rewrite El. split; [exact Hn|]. right. exists (c :: pre).
        cbn [app]. rewrite <- E. reflexivity.
Qed.

Lemma last_name_suffix (x suffix : pystr) :
  ~ In os_path.sep suffix ->
  last_name (x ++ suffix) = last_name x ++ suffix.
Proof.
  intros Hs. destruct (last_name_spec x) as (Hn & [E|(pre & E)]).
  - rewrite E at 1. apply last_name_entry. intros H.
    apply in_app_or in H as [H|H]; [exact (Hn H)|exact (Hs H)].
  - rewrite E at 1. rewrite <- app_assoc. cbn [app].
    rewrite last_name_after_sep. apply last_name_entry. intros H.
    apply in_app_or in H as [H|H]; [exact (Hn H)|exact (Hs H)].
Qed.

(** [os.path.join] keeps the last component of its second argument. *)
Lemma last_name_join (a b : pystr) :
  last_name (os_path.join a b) = last_name b.
Proof.
  unfold os_path.join. destruct (startswith b [os_path.sep]); [reflexivity|].
  destruct a as [|c a'] eqn:Ea; [reflexivity|]. rewrite <- Ea.
  cbn [orb]. destruct (endswith a [os_path.sep]) eqn:Ee.
  - apply endswith_spec in Ee as (o & ->). rewrite <- app_assoc.
    apply last_name_after_sep.
  - apply last_name_after_sep.
Qed.

(** *** Names of recordings and names of result files *)

Lemma endswith_suffix (x suffix : pystr) : endswith (x ++ suffix) suffix = true.
Proof. apply endswith_spec. exists x. reflexivity. Qed.

Lemma endswith_last (s suffix : pystr) (c d : codepoint) :
  c <> d -> endswith (s ++ [c]) (suffix ++ [d]) = false.
Proof.
  intros H. destruct (endswith _ _) eqn:E; [|reflexivity].
  apply endswith_spec in E as (r & E). rewrite app_assoc in E.
  apply app_inj_tail in E as [_ E]. congruence.
Qed.

(** No result file has the name of a recording. *)
Lemma result_suffix_not_audio (x : pystr) :
  is_audio_file (x ++ py ".BirdNET.results.json") = false.
Proof.
  unfold is_audio_file.
  change (py ".BirdNET.results.json")
    with (py ".BirdNET.results.jso" ++ [ch "n"]).
  change (py ".wav") with (py ".wa" ++ [ch "v"]).
  change (py ".mp3") with (py ".mp" ++ [ch "3"]).
  rewrite app_assoc, !endswith_last by (vm_compute; discriminate).
  reflexivity.
Qed.

Lemma audio_last_name (a : pystr) :
  is_audio_file a = true -> is_audio_file (last_name a) = true.
Proof.
  unfold is_audio_file. rewrite !orb_true_iff, !endswith_spec.
  intros [(r & ->)|(r & ->)];
    rewrite last_name_suffix by (vm_compute; intuition discriminate);
    [left|right]; eexists; reflexivity.
Qed.

Lemma result_path_last_name (out a : pystr) :
  is_audio_file (last_name (result_file_path out a)) = false.
Proof.
  unfold result_file_path, result_file_name. rewrite last_name_join.
  rewrite last_name_suffix by (vm_compute; intuition discriminate).
  apply result_suffix_not_audio.
Qed.

End MoreFileTree.

(** ** More on [saveResult] *)

Section MoreSaving.
Context {FL : PyFloat}.
Import os.

Lemma resolve_rstrip (fs : filesystem) (p : pystr) (k : key) :
  rstrip p os_path.sep <> [] ->
  resolve fs p = Return k ->
  resolve fs (rstrip p os_path.sep) = Return k.
Proof.
  intros Hr H. destruct (rstrip_spec p os_path.sep) as [n Hn].
  destruct n as [|n]; [rewrite app_nil_r in Hn; rewrite <- Hn; exact H|].
  assert (Hp : p <> []) by (intros ->; apply Hr; reflexivity).
  rewrite resolve_nonempty in * by assumption.
  rewrite Hn in H at 1. rewrite start_app in H by exact Hr.
  rewrite Hn in H at 2. cbn [repeat] in H.
  rewrite split_sep_app_sep, split_sep_seps, walk_app in H.
  destruct (walk (root fs) (start fs (rstrip p os_path.sep))
              (split_sep (rstrip p os_path.sep))) as [k'|e];
    [|discriminate].
  apply walk_empties in H. congruence.
Qed.




(** A file that was written once can be written again. *)
Lemma write_again (fs fs' : filesystem) (p data data' : pystr) :
  write fs p data = (Return tt, fs') ->
  exists fs'', write fs' p data' = (Return tt, fs'').
Proof.
  intros H.
  destruct (write_spec _ _ _ _ H) as (_ & Hread & _).
  destruct (write_returns _ _ _ _ H) as (dir & name & Hl & _ & Hnd & Efs).
  destruct (locate_spec _ _ _ _ Hl) as (Hp & Hw & Hname & Hdir).
  assert (HK : dir ++ [name] <> [])
    by (intros E; apply app_eq_nil in E as [_ E]; discriminate E).
  assert (Hdirs : forall k,
             is_dir (update (root fs) (dir ++ [name]) (File data)) k
             = is_dir (root fs) k).
  { apply update_file_dirs; [exact HK| |exact Hnd].
    rewrite removelast_last. exact Hdir. }
  assert (Hsame : lookup (root fs') (dir ++ [name]) = Some (File data)).
  { rewrite Efs. cbn [root]. apply lookup_update_same; [exact HK|].
    rewrite removelast_last. exact Hdir. }
  assert (Hl' : locate fs' p = Return (dir, name)).
  { unfold locate. destruct p as [|c p0] eqn:Ep; [congruence|].
    rewrite <- Ep in *. cbv zeta.
    assert (Hw' : walk (root fs') (start fs' p) (removelast (split_sep p))
                  = Return dir).
    { rewrite Efs. cbn [root]. unfold start. cbn [cwd]. fold (start fs p).
      eapply walk_dirs; [|exact Hw]. intros k0. rewrite Hdirs. auto. }
    rewrite Hw'.
    assert (Hd' : is_dir (root fs') dir = true)
      by (rewrite Efs; cbn [root]; rewrite Hdirs; exact Hdir).
    apply is_dir_lookup in Hd' as (es & ->). rewrite Hname. reflexivity. }
  revert H. unfold write. rewrite Hl, Hl'.
  destruct (pystr_eqb name [] || pystr_eqb name (py ".")
            || pystr_eqb name (py "..")); [discriminate|].
  intros _. rewrite Hsame. eexists. reflexivity.
Qed.

(** X6: [saveResult] on a path that has no directory part raises
    [FileNotFoundError] and changes nothing: [os.path.dirname] gives the
    empty string, which [os.makedirs] does not accept. *)
Theorem saveResult_needs_a_directory_part (data : json.value) (fpath : pystr)
    (w : world) :
  ~ In os_path.sep fpath ->
  saveResult data fpath w = (Raise FileNotFoundError, w).
Proof.
  intros H. rewrite saveResult_spec, (dirname_entry _ H).
  cbn [makedirs]. destruct w; reflexivity.
Qed.

(** X7: saving again where a result was saved succeeds and replaces the
    content of the file by the dump of the new value; no directory comes
    or goes. *)
Theorem saveResult_overwrites (d1 d2 : json.value) (fpath : pystr)
    (w w1 : world) :
  saveResult d1 fpath w = (Return tt, w1) ->
  exists w2,
    saveResult d2 fpath w1 = (Return tt, w2)
    /\ read (fs w2) fpath = Return (json.dumps (Some 4%nat) d2)
    /\ (forall q, isdir (fs w2) q = isdir (fs w1) q)
    /\ posted w2 = posted w /\ stdout w2 = stdout w.
Proof.
  intros H.
  destruct (saveResult_files _ _ _ _ _ H)
    as (Hp & Ho & _ & _ & _ & _ & fs1 & _ & Hd1 & Hw1).
  destruct (write_spec _ _ _ _ Hw1) as (_ & _ & Hdirs1 & _).
  destruct (write_again _ _ _ _ (json.dumps (Some 4%nat) d2) Hw1)
    as (fs2 & Hw2).
  destruct (write_spec _ _ _ _ Hw2) as (_ & Hread2 & Hdirs2 & _).
  exists {| fs := fs2; posted := posted w1; stdout := stdout w1 |}.
  split; [|cbn [fs posted stdout]; auto].
  rewrite saveResult_spec.
  rewrite makedirs_exists by (rewrite Hdirs1; exact Hd1).
  rewrite Hw2. reflexivity.
Qed.


Lemma saveResult_under_a_file (data : json.value) (out name d0 : pystr)
    (w : world) :
  ~ In os_path.sep name ->
  read (fs w) out = Return d0 ->
  saveResult data (os_path.join out name) w = (Raise FileExistsError, w).
Proof.
  intros Hname Hread.
  destruct (read_key _ _ _ Hread) as (dir & Hres & Hk).
  assert (Hout : out <> []) by (intros ->; discriminate Hres).
  rewrite saveResult_spec, dirname_join by assumption.
  destruct (pystr_eqb out _) eqn:Eall.
  - exfalso. apply pystr_eqb_eq in Eall.
    rewrite resolve_nonempty in Hres by exact Hout.
    rewrite Eall in Hres at 2. rewrite split_sep_seps in Hres.
    cbn [repeat walk] in Hres. unfold walk1 in Hres at 1.
    destruct (lookup (root (fs w)) (start (fs w) out)) as [[d|es]|] eqn:El;
      try discriminate Hres.
    cbn [pystr_eqb orb] in Hres. apply walk_empties in Hres.
    rewrite Hres in Hk. congruence.
  - assert (Hr : rstrip out os_path.sep <> []).
    { intros Hr. apply pystr_eqb_neq in Eall. apply Eall.
      destruct (rstrip_spec out os_path.sep) as [n Hn].
      rewrite Hr in Hn. cbn [app] in Hn. rewrite Hn at 1.
      rewrite Hn, repeat_length. reflexivity. }
    pose proof (resolve_rstrip _ _ _ Hr Hres) as Hres'.
    rewrite resolve_nonempty in Hres' by exact Hr.
    unfold makedirs. destruct (rstrip out os_path.sep) as [|c t] eqn:E;
      [congruence|]. rewrite <- E in *.
    rewrite (makedirs_walk_file _ _ _ _ _ Hres' Hk).
    destruct w as [[r c0] ps so]; reflexivity.
Qed.

(** X14: when the output directory is the path of a regular file,
    [saveResult] raises [FileExistsError] (from [os.makedirs]) and changes
    nothing. *)
Theorem saving_under_a_file (data : json.value) (out name d0 : pystr)
    (w : world) :
  ~ In os_path.sep name ->
  read (fs w) out = Return d0 ->
  saveResult data (os_path.join out name) w = (Raise FileExistsError, w).
Proof. apply saveResult_under_a_file. Qed.

End MoreSaving.

(** ** More on the loop and on the run *)

Section MoreRuns.
Context {FL : PyFloat} {FLL : PyFloatLaws FL}.
Variable server : list request -> request -> option response.

Lemma saveResult_keeps_other_names (data : json.value) (fpath : pystr)
    (w w' : world) (r : outcome unit) (q d : pystr) :
  saveResult data fpath w = (r, w') ->
  last_name q <> last_name fpath ->
  os.read (fs w) q = Return d ->
  os.read (fs w') q = Return d.
Proof.
  rewrite saveResult_spec.
  destruct (os.makedirs _ _) as [o fs1] eqn:Em.
  destruct (makedirs_spec _ _ _ _ Em) as (Hcwd & Hgrows & _).
  intros H Hne Hq.
  pose proof (read_grows _ _ _ _ Hcwd Hgrows Hq) as Hq1.
  destruct o as [[]|e].
  - destruct (os.write _ _ _) as [r2 fs2] eqn:Ew.
    injection H as <- <-. cbn [fs]. destruct r2 as [[]|e].
    + eapply write_other_name; eassumption.
    + rewrite (write_raises _ _ _ _ _ Ew). exact Hq1.
  - injection H as <- <-. exact Hq1.
Qed.

Lemma loop_body_keeps_other_names (args : Namespace) (a : pystr)
    (w w' : world) (r : outcome unit) (q d : pystr) :
  loop_body server args a w = (r, w') ->
  last_name q <> last_name (result_file_path (output_directory_of args) a) ->
  os.read (fs w) q = Return d ->
  os.read (fs w') q = Return d.
Proof.
  destruct (is_audio_file a) eqn:Ha.
  - rewrite loop_body_audio by exact Ha.
    destruct (sendRequest _ _ _ _ _ _) as [r1 w1] eqn:Es.
    destruct (sendRequest_effects _ _ _ _ _ _ _ _ Es) as (Hfs & _).
    destruct r1 as [data|e].
    + intros H Hne Hq. rewrite <- Hfs in Hq.
      eapply saveResult_keeps_other_names; eassumption.
    + intros [= <- <-] _ Hq. rewrite Hfs. exact Hq.
  - rewrite loop_body_skip by exact Ha. intros [= <- <-] _ Hq. exact Hq.
Qed.

Lemma result_path_ends_in_suffix (out a : pystr) :
  endswith (last_name (result_file_path out a)) (py ".BirdNET.results.json")
  = true.
Proof.
  unfold result_file_path, result_file_name.
  rewrite last_name_join, last_name_suffix
    by (vm_compute; intuition discriminate).
  apply endswith_suffix.
Qed.

Lemma for_each_keeps_other_files (args : Namespace) (listing : list pystr) :
  forall w r w' q d,
    for_each listing (loop_body server args) w = (r, w') ->
    endswith (last_name q) (py ".BirdNET.results.json") = false ->
    os.read (fs w) q = Return d ->
    os.read (fs w') q = Return d.
Proof.
  induction listing as [|a l IH]; intros w r w' q d; cbn [for_each].
  - intros [= <- <-] _ Hq. exact Hq.
  - unfold bind. destruct (loop_body server args a w) as [r1 w1] eqn:E.
    intros H Hne Hq.
    assert (Hq1 : os.read (fs w1) q = Return d).
    { eapply loop_body_keeps_other_names; [exact E| |exact Hq].
      intros Eq. rewrite Eq, result_path_ends_in_suffix in Hne.
      discriminate Hne. }
    destruct r1 as [[]|e].
    + eapply IH; eassumption.
    + injection H as <- <-. exact Hq1.
Qed.

(** X1: a run, completed or not, writes only to files whose name ends in
    [.BirdNET.results.json]: any file of another name that could be read
    before the run reads the same after it.  In particular no file named
    as a recording ([.wav], [.mp3]) is changed. *)
Theorem run_changes_only_result_files (args : Namespace) (w w' : world)
    (r : outcome unit) :
  run server args w = (r, w') ->
  (forall q d,
      endswith (last_name q) (py ".BirdNET.results.json") = false ->
      os.read (fs w) q = Return d -> os.read (fs w') q = Return d)
  /\ (forall q d,
        is_audio_file (last_name q) = true ->
        os.read (fs w) q = Return d -> os.read (fs w') q = Return d).
Proof.
  rewrite run_spec. intros H.
  assert (Hgen : forall q d,
             endswith (last_name q) (py ".BirdNET.results.json") = false ->
             os.read (fs w) q = Return d -> os.read (fs w') q = Return d).
  { destruct (os.listdir _ _) as [listing|e].
    - intros q d. eapply for_each_keeps_other_files, H.
    - injection H as <- <-. auto. }
  split; [exact Hgen|].
  intros q d Ha. apply Hgen.
  destruct (endswith _ _) eqn:E; [|reflexivity].
  apply endswith_spec in E as (x & E). rewrite E in Ha.
  rewrite result_suffix_not_audio in Ha. discriminate Ha.
Qed.

(** X2: the name derived for a result file never passes the filter of the
    loop, so the result files that a run leaves in the input directory are
    not sent to the server by a later run. *)
Theorem result_file_is_never_a_candidate :
  (forall a, is_audio_file (result_file_name a) = false)
  /\ (forall listing names,
        candidates (listing ++ map result_file_name names)
        = candidates listing).
Proof.
  assert (H : forall a, is_audio_file (result_file_name a) = false)
    by (intros a; apply result_suffix_not_audio).
  split; [exact H|].
  intros listing names. unfold candidates. rewrite filter_app.
  replace (filter is_audio_file (map result_file_name names)) with (@nil pystr);
    [apply app_nil_r|].
  induction names as [|a l IH]; [reflexivity|].
  cbn [map filter]. rewrite H. exact IH.
Qed.

Lemma for_each_skips (args : Namespace) (listing : list pystr) (w : world) :
  candidates listing = [] ->
  for_each listing (loop_body server args) w = (Return tt, w).
Proof.
  induction listing as [|a l IH]; [reflexivity|].
  unfold candidates. cbn [filter for_each].
  destruct (is_audio_file a) eqn:Ha; [discriminate|].
  intros H. unfold bind. rewrite loop_body_skip by exact Ha. apply IH, H.
Qed.

(** X3: in a directory where no name ends in [.wav] or [.mp3] the run
    completes and does nothing at all: no request, no output, no file, and
    the output directory is not created. *)
Theorem run_without_recordings (args : Namespace) (w : world)
    (listing : list pystr) :
  os.listdir (fs w) (args_i args) = Return listing ->
  candidates listing = [] ->
  run server args w = (Return tt, w).
Proof.
  intros Hl Hc. rewrite run_spec, Hl. apply for_each_skips, Hc.
Qed.

(** X4: when the input path is not a directory the run raises
    [FileNotFoundError] or [NotADirectoryError] from [os.listdir], before
    anything is sent, printed or written. *)
Theorem run_needs_the_input_directory (args : Namespace) (w : world) :
  os.isdir (fs w) (args_i args) = false ->
  exists e,
    run server args w = (Raise e, w)
    /\ (e = FileNotFoundError \/ e = NotADirectoryError).
Proof.
  rewrite run_spec. unfold os.isdir, os.listdir, os.stat.
  destruct (os.resolve (fs w) (args_i args)) as [k|e] eqn:E.
  - destruct (os.lookup _ k) as [[d|es]|]; [|discriminate|]; eauto.
  - intros _. exists e. split; [reflexivity|].
    unfold os.resolve in E. destruct (args_i args); [injection E as <-; auto|].
    eapply walk_raises, E.
Qed.

(** X5: the filter of the loop looks at the name only.  An entry named
    as a recording that is a directory stops the run with
    [IsADirectoryError] when it is opened: its path is announced, no
    request is sent and no file is written. *)
Theorem candidate_that_is_a_directory (args : Namespace) (a : pystr)
    (w : world) :
  is_audio_file a = true ->
  os.isdir (fs w) (audio_file_path (args_i args) a) = true ->
  loop_body server args a w
  = (Raise IsADirectoryError,
     {| fs := fs w; posted := posted w;
        stdout := stdout w
                  ++ [Requesting (audio_file_path (args_i args) a)] |}).
Proof.
  intros Ha Hd. rewrite loop_body_audio by exact Ha.
  rewrite sendRequest_spec.
  replace (os.read (fs w) (audio_file_path (args_i args) a))
    with (@Raise pystr IsADirectoryError); [reflexivity|].
  revert Hd. unfold os.isdir, os.read.
  destruct (os.stat _ _) as [[d|es]|e]; try discriminate. reflexivity.
Qed.


(** X12: in a run that completes, the result file of a recording holds
    the dump of the decoded response to the request for that very
    recording, unless a recording later in the listing derives the same
    result name. *)
Theorem result_file_holds_the_answer_for_its_recording (args : Namespace)
    (w w' : world) (pre post : list pystr) (a : pystr) :
  os.listdir (fs w) (args_i args) = Return (pre ++ a :: post) ->
  Forall entry_name (a :: post) ->
  is_audio_file a = true ->
  (forall b, In b post -> is_audio_file b = true ->
             result_file_name b <> result_file_name a) ->
  run server args w = (Return tt, w') ->
  exists w1 audio resp data,
    for_each pre (loop_body server args) w = (Return tt, w1)
    /\ os.read (fs w1) (audio_file_path (args_i args) a) = Return audio
    /\ server (posted w1)
         (request_for (args_host args) (args_port args)
            (audio_file_path (args_i args) a)
            (json.dumps None (make_mdata args)) audio) = Some resp
    /\ json.loads (text resp) = Some data
    /\ os.read (fs w')
         (result_file_path (output_directory_of args) a)
       = Return (json.dumps (Some 4%nat) data).
Proof.
  intros Hl Hnames Ha Hlater. rewrite run_spec, Hl, for_each_app.
  destruct (for_each pre _ w) as [[[]|e] w1] eqn:Epre; [|discriminate].
  cbn [for_each]. unfold bind.
  destruct (loop_body server args a w1) as [[[]|e] w2] eqn:Ea; [|discriminate].
  intros Hpost.
  destruct (loop_body_returns server _ _ _ _ Ha Ea)
    as (audio & resp & data & fs1 & Hr & Hs & Hd & _ & _ & _ & Hres).
  exists w1, audio, resp, data. repeat (split; [auto; fail|]).
  inversion Hnames as [|? ? Hna Hnpost]; subst.
  clear Hl Epre Ea Hnames. revert w2 Hpost Hres.
  induction post as [|b post IH]; intros w2; cbn [for_each].
  - intros [= <-] Hres. exact Hres.
  - unfold bind. destruct (loop_body server args b w2) as [[[]|e] w3] eqn:Eb;
      [|discriminate].
    inversion Hnpost as [|? ? Hnb Hnpost']; subst.
    intros Hpost Hres. apply (IH (fun c Hc => Hlater c (or_intror Hc)) Hnpost' w3 Hpost).
    destruct (is_audio_file b) eqn:Hb.
    + eapply loop_body_keeps_other_names; [exact Eb| |exact Hres].
      unfold result_file_path. rewrite !last_name_join.
      rewrite !last_name_entry by (apply result_file_name_notin_sep; assumption).
      intros E. apply (Hlater b (or_introl eq_refl) Hb). symmetry. exact E.
    + rewrite loop_body_skip in Eb by exact Hb. injection Eb as <-. exact Hres.
Qed.

(** X16: the output directory is looked at only after the request.  When
    [--o] is the path of a regular file, the recording is still sent and
    its response printed and decoded; then saving raises
    [FileExistsError], and the response is in no file. *)
Theorem request_goes_out_before_the_output_is_checked (args : Namespace)
    (a : pystr) (w : world) (d0 audio : pystr) (resp : response)
    (data : json.value) :
  entry_name a ->
  is_audio_file a = true ->
  os.read (fs w) (args_o args) = Return d0 ->
  os.read (fs w) (audio_file_path (args_i args) a) = Return audio ->
  server (posted w)
    (request_for (args_host args) (args_port args)
       (audio_file_path (args_i args) a)
       (json.dumps None (make_mdata args)) audio) = Some resp ->
  json.loads (text resp) = Some data ->
  loop_body server args a w
  = (Raise FileExistsError,
     {| fs := fs w;
        posted := posted w
                  ++ [request_for (args_host args) (args_port args)
                        (audio_file_path (args_i args) a)
                        (json.dumps None (make_mdata args)) audio];
        stdout := (stdout w
                   ++ [Requesting (audio_file_path (args_i args) a)])
                  ++ [Response (text resp)] |}).
Proof.
  intros Hname Ha Hout Hread Hsrv Hloads.
  rewrite loop_body_audio by exact Ha.
  rewrite sendRequest_spec, Hread. cbv zeta. rewrite Hsrv, Hloads.
  assert (Eo : output_directory_of args = args_o args).
  { unfold output_directory_of. destruct (args_o args); [|reflexivity].
    discriminate Hout. }
  rewrite Eo. unfold result_file_path.
  apply (saveResult_under_a_file data (args_o args) (result_file_name a) d0).
  - apply result_file_name_notin_sep, Hname.
  - exact Hout.
Qed.

End MoreRuns.

(** ** The requests of a run *)

Section MoreRequests.
Context {FL : PyFloat} {FLL : PyFloatLaws FL}.
Variable server : list request -> request -> option response.


(** *** A slash at the end of the input directory *)

Lemma join_after_slash (d b : pystr) :
  d <> [] -> endswith d [os_path.sep] = false ->
  os_path.join (d ++ [os_path.sep]) b = os_path.join d b.
Proof.
  intros Hd He. unfold os_path.join.
  destruct (startswith b [os_path.sep]); [reflexivity|].
  rewrite endswith_suffix, He, orb_true_r.
  destruct d as [|c d']; [congruence|]. cbn [orb].
  rewrite <- app_assoc. reflexivity.
Qed.

Lemma listdir_after_slash (files : os.filesystem) (d : pystr) :
  d <> [] ->
  os.listdir files (d ++ [os_path.sep]) = os.listdir files d.
Proof.
  intros Hd. unfold os.listdir, os.stat.
  rewrite !resolve_nonempty
    by (try exact Hd; intros E; apply app_eq_nil in E as [_ E]; discriminate E).
  rewrite start_app by exact Hd.
  rewrite split_sep_app_sep, walk_app. cbn [os.split_sep os.walk].
  destruct (os.walk _ _ (os.split_sep d)) as [c|e]; [|reflexivity].
  unfold os.walk1. cbn [pystr_eqb orb].
  destruct (os.lookup (os.root files) c) as [[x|es]|] eqn:E;
    [reflexivity|rewrite E; reflexivity|reflexivity].
Qed.

Lemma for_each_ext {A} (f g : A -> io unit) (l : list A) :
  (forall x w, f x w = g x w) ->
  forall w, for_each l f w = for_each l g w.
Proof.
  intros H. induction l as [|x l IH]; intros w; [reflexivity|].
  cbn [for_each]. unfold bind. rewrite H.
  destruct (g x w) as [[[]|e] w1]; [apply IH|reflexivity].
Qed.

(** X13: a slash at the end of the input directory makes no difference:
    [--i d/] and [--i d] list the same entries, and [os.path.join] builds
    the same paths for the recordings and for the result files, so the
    two runs are the same. *)
Theorem slash_after_input_directory (args : Namespace) (d : pystr)
    (w : world) :
  d <> [] ->
  endswith d [os_path.sep] = false ->
  run server (with_i (d ++ [os_path.sep]) args) w
  = run server (with_i d args) w.
Proof.
  intros Hd He. rewrite !run_spec. cbn [with_i args_i].
  rewrite listdir_after_slash by exact Hd.
  destruct (os.listdir (fs w) d) as [listing|e]; [|reflexivity].
  apply for_each_ext. intros a w0. unfold loop_body.
  destruct (is_audio_file a); [|reflexivity].
  unfold audio_file_path, result_file_path, output_directory_of, make_mdata.
  cbn [with_i args_i args_o args_host args_port args_lat args_lon args_week
       args_overlap args_sensitivity args_sf_thresh args_pmode
       args_num_results args_save].
  rewrite join_after_slash by assumption.
  destruct (nonempty (args_o args)); [reflexivity|].
  rewrite join_after_slash by assumption. reflexivity.
Qed.

(** *** What a request carries *)

Lemma recordings_kept_refl (r : os.node) : recordings_kept r r.
Proof. split; auto. Qed.

Lemma recordings_kept_trans (r0 r1 r2 : os.node) :
  recordings_kept r0 r1 -> recordings_kept r1 r2 -> recordings_kept r0 r2.
Proof. intros (A1 & B1) (A2 & B2). split; auto. Qed.

Lemma saveResult_recordings_kept (data : json.value) (out a : pystr)
    (w w' : world) (r : outcome unit) :
  saveResult data (result_file_path out a) w = (r, w') ->
  os.cwd (fs w') = os.cwd (fs w)
  /\ recordings_kept (os.root (fs w)) (os.root (fs w')).
Proof.
  rewrite saveResult_spec.
  destruct (os.makedirs _ _) as [o fs1] eqn:Em.
  destruct (makedirs_spec _ _ _ _ Em) as (Hcwd & (Hd & _) & Hsame & _).
  assert (H1 : recordings_kept (os.root (fs w)) (os.root fs1)).
  { split; [exact Hd|]. intros k d _ Hk. apply Hsame, Hk. }
  destruct o as [[]|e]; [|intros [= <- <-]; auto].
  destruct (os.write _ _ _) as [[[]|e] fs2] eqn:Ew.
  - intros [= <- <-]. cbn [fs].
    destruct (write_returns _ _ _ _ Ew) as (dir & name & Hl & _ & Hnd & ->).
    destruct (locate_spec _ _ _ _ Hl) as (_ & _ & Hname & Hdir).
    cbn [os.cwd os.root]. split; [exact Hcwd|].
    apply (recordings_kept_trans _ _ _ H1).
    assert (HK : dir ++ [name] <> [])
      by (intros E; apply app_eq_nil in E as [_ E]; discriminate E).
    split.
    + intros k Hk. rewrite update_file_dirs; auto.
      rewrite removelast_last. exact Hdir.
    + intros k d Ha Hk.
      assert (Hne : k <> dir ++ [name]).
      { intros ->. rewrite last_last, Hname in Ha.
        fold (last_name (result_file_path out a)) in Ha.
        rewrite result_path_last_name in Ha. discriminate Ha. }
      assert (Hshape : shape (os.lookup (os.update (os.root fs1)
                                           (dir ++ [name])
                                           (os.File (json.dumps
                                                       (Some 4%nat) data)))
                                  k)
                       = shape (os.lookup (os.root fs1) k))
        by (apply lookup_update_other; [exact I|exact Hnd|exact Hne]).
      apply (shape_file _ _ d Hshape Hk).
  - intros [= <- <-]. cbn [fs]. rewrite (write_raises _ _ _ _ _ Ew). auto.
Qed.

(** One turn of the loop sends nothing, or the request for its recording
    with the content that the file has then. *)
Lemma loop_body_request (args : Namespace) (a : pystr) (w w' : world)
    (r : outcome unit) :
  is_audio_file a = true ->
  loop_body server args a w = (r, w') ->
  (posted w' = posted w /\ exists e, r = Raise e)
  \/ exists audio,
       os.read (fs w) (audio_file_path (args_i args) a) = Return audio
       /\ posted w'
          = posted w
            ++ [request_for (args_host args) (args_port args)
                  (audio_file_path (args_i args) a)
                  (json.dumps None (make_mdata args)) audio].
Proof.
  intros Ha. rewrite loop_body_audio by exact Ha.
  destruct (sendRequest _ _ _ _ _ _) as [r1 w1] eqn:Es.
  destruct (sendRequest_effects _ _ _ _ _ _ _ _ Es) as (_ & _ & Hp).
  destruct r1 as [data|e].
  - intros H. apply saveResult_files in H as (Hp2 & _). rewrite Hp2.
    destruct Hp as [(_ & e & He)|Hp]; [discriminate He|right; exact Hp].
  - intros [= <- <-]. destruct Hp as [(Hp & _)|Hp]; [left; eauto|right; exact Hp].
Qed.

Lemma loop_body_recordings_kept (args : Namespace) (a : pystr)
    (w w' : world) (r : outcome unit) :
  loop_body server args a w = (r, w') ->
  os.cwd (fs w') = os.cwd (fs w)
  /\ recordings_kept (os.root (fs w)) (os.root (fs w')).
Proof.
  destruct (is_audio_file a) eqn:Ha.
  - rewrite loop_body_audio by exact Ha.
    destruct (sendRequest _ _ _ _ _ _) as [r1 w1] eqn:Es.
    destruct (sendRequest_effects _ _ _ _ _ _ _ _ Es) as (Hfs & _).
    destruct r1 as [data|e].
    + intros H. rewrite <- Hfs. eapply saveResult_recordings_kept, H.
    + intros [= <- <-]. rewrite Hfs. split; [reflexivity|apply recordings_kept_refl].
  - rewrite loop_body_skip by exact Ha. intros [= <- <-].
    split; [reflexivity|apply recordings_kept_refl].
Qed.

Lemma audio_name_is_plain (a : pystr) :
  is_audio_file a = true ->
  pystr_eqb a [] || pystr_eqb a (py ".") || pystr_eqb a (py "..") = false.
Proof.
  intros Ha.
  assert (Hlen : (4 <= List.length a)%nat).
  { revert Ha. unfold is_audio_file. rewrite orb_true_iff, !endswith_spec.
    intros [(r & ->)|(r & ->)]; rewrite length_app; cbn; lia. }
  destruct (pystr_eqb a []) eqn:E1;
    [apply pystr_eqb_eq in E1; subst; cbn in Hlen; lia|].
  destruct (pystr_eqb a (py ".")) eqn:E2;
    [apply pystr_eqb_eq in E2; subst; cbn in Hlen; lia|].
  destruct (pystr_eqb a (py "..")) eqn:E3;
    [apply pystr_eqb_eq in E3; subst; cbn in Hlen; lia|].
  reflexivity.
Qed.

(** The path of a recording in a directory names the entry of that
    directory. *)
Lemma resolve_recording (files : os.filesystem) (d a : pystr) (kd : os.key) :
  os.resolve files d = Return kd ->
  os.is_dir (os.root files) kd = true ->
  entry_name a -> is_audio_file a = true ->
  os.resolve files (os_path.join d a) = Return (kd ++ [a]).
Proof.
  intros Hres Hdir Hname Ha.
  assert (Hd : d <> []) by (intros ->; discriminate Hres).
  pose proof (audio_name_is_plain a Ha) as Hplain.
  apply orb_false_elim in Hplain as [Hplain E3].
  assert (Hstep : os.walk1 (os.root files) kd a = Return (kd ++ [a])).
  { unfold os.walk1. apply is_dir_lookup in Hdir as (es & ->).
    rewrite Hplain, E3. reflexivity. }
  rewrite resolve_nonempty in Hres by exact Hd.
  rewrite join_relative by (apply startswith_sep_notin, Hname).
  replace (nonempty d) with true by (destruct d; [congruence|reflexivity]).
  cbn [andb].
  destruct (endswith d [os_path.sep]) eqn:Ee; cbn [negb].
  - apply endswith_spec in Ee as (o & Eo).
    rewrite resolve_nonempty
      by (intros E; apply app_eq_nil in E as [E _]; exact (Hd E)).
    rewrite start_app by exact Hd.
    rewrite Eo in Hres at 2. rewrite split_sep_app_sep, walk_app in Hres.
    rewrite Eo at 2. rewrite <- app_assoc. cbn [app].
    rewrite split_sep_app_sep, (split_sep_entry a Hname), walk_app.
    destruct (os.walk _ _ (os.split_sep o)) as [c|e]; [|discriminate Hres].
    cbn [os.split_sep os.walk] in Hres. cbn [os.walk].
    assert (c = kd).
    { revert Hres. unfold os.walk1.
      destruct (os.lookup _ c) as [[x|es]|]; try discriminate.
      cbn [pystr_eqb orb]. congruence. }
    subst c. rewrite Hstep. reflexivity.
  - rewrite resolve_nonempty
      by (intros E; apply app_eq_nil in E as [E _]; exact (Hd E)).
    rewrite start_app by exact Hd.
    rewrite split_sep_app_sep, (split_sep_entry a Hname), walk_app, Hres.
    cbn [os.walk]. rewrite Hstep. reflexivity.
Qed.

Lemma for_each_requests (args : Namespace) (w0 : world) (kd : os.key) :
  os.resolve (fs w0) (args_i args) = Return kd ->
  os.is_dir (os.root (fs w0)) kd = true ->
  forall listing, Forall entry_name listing ->
  forall w r w',
    os.cwd (fs w) = os.cwd (fs w0) ->
    recordings_kept (os.root (fs w0)) (os.root (fs w)) ->
    for_each listing (loop_body server args) w = (r, w') ->
    exists reqs,
      posted w' = posted w ++ reqs
      /\ Forall2 (fun a q =>
           exists audio,
             os.read (fs w0) (audio_file_path (args_i args) a) = Return audio
             /\ q = request_for (args_host args) (args_port args)
                      (audio_file_path (args_i args) a)
                      (json.dumps None (make_mdata args)) audio)
           (firstn (List.length reqs) (candidates listing)) reqs
      /\ (r = Return tt ->
          List.length reqs = List.length (candidates listing)).
Proof.
  intros Hres0 Hdir0. induction 1 as [|a l Hname _ IH];
    intros w r w' Hcwd Hkept; cbn [for_each].
  - intros [= <- <-]. exists []. rewrite app_nil_r.
    split; [reflexivity|]. split; [constructor|reflexivity].
  - unfold bind. destruct (loop_body server args a w) as [r1 w1] eqn:E1.
    destruct (loop_body_recordings_kept _ _ _ _ _ E1) as (Hcwd1 & Hkept1).
    assert (Hcwd' : os.cwd (fs w1) = os.cwd (fs w0)) by congruence.
    pose proof (recordings_kept_trans _ _ _ Hkept Hkept1) as Hkept'.
    unfold candidates. cbn [filter]. fold (candidates l).
    destruct (is_audio_file a) eqn:Ha.
    + assert (Hsent : forall audio,
                 os.read (fs w) (audio_file_path (args_i args) a)
                 = Return audio ->
                 os.read (fs w0) (audio_file_path (args_i args) a)
                 = Return audio).
      { intros audio. unfold audio_file_path, os.read, os.stat.
        assert (Hres : os.resolve (fs w) (args_i args) = Return kd).
        { revert Hres0. unfold os.resolve, os.start. rewrite Hcwd.
          destruct (args_i args); [auto|].
          apply walk_dirs. apply Hkept. }
        rewrite (resolve_recording _ _ _ _ Hres (proj1 Hkept _ Hdir0)
                   Hname Ha).
        rewrite (resolve_recording _ _ _ _ Hres0 Hdir0 Hname Ha).
        destruct (os.lookup (os.root (fs w)) (kd ++ [a])) as [[x|es]|] eqn:Ek;
          try discriminate.
        intros [= ->].
        rewrite (proj2 Hkept (kd ++ [a]) audio); [reflexivity| |exact Ek].
        rewrite last_last. exact Ha. }
      destruct (loop_body_request _ _ _ _ _ Ha E1)
        as [(Hp & e & ->)|(audio & Hread & Hp)].
      * intros [= <- <-]. exists []. rewrite app_nil_r.
        split; [exact Hp|]. split; [constructor|discriminate].
      * destruct r1 as [[]|e].
        -- intros H. destruct (IH _ _ _ Hcwd' Hkept' H) as (reqs & Hq & HF & Hr).
           exists (request_for (args_host args) (args_port args)
                     (audio_file_path (args_i args) a)
                     (json.dumps None (make_mdata args)) audio :: reqs).
           rewrite Hq, Hp, <- app_assoc. split; [reflexivity|].
           cbn [List.length firstn]. split.
           ++ constructor; [|exact HF]. exists audio. split; [|reflexivity].
              apply Hsent, Hread.
           ++ intros Hret. rewrite (Hr Hret). reflexivity.
        -- intros [= <- <-].
           exists [request_for (args_host args) (args_port args)
                     (audio_file_path (args_i args) a)
                     (json.dumps None (make_mdata args)) audio].
           split; [exact Hp|]. cbn [List.length firstn]. split.
           ++ constructor; [|constructor]. exists audio.
              split; [|reflexivity]. apply Hsent, Hread.
           ++ discriminate.
    + rewrite loop_body_skip in E1 by exact Ha. injection E1 as <- <-.
      apply IH; assumption.
Qed.

(** X11: every request of a run is the one that [sendRequest] builds for a
    recording of the listing, in the order of the listing: to
    [http://host:port/analyze], under the name of the entry's path, with
    the metadata of the run and with the content that the file had when
    the run started.  When the run completes there is one for each
    recording. *)
Theorem requests_carry_the_recordings (args : Namespace) (w w' : world)
    (r : outcome unit) (listing : list pystr) :
  os.listdir (fs w) (args_i args) = Return listing ->
  Forall entry_name listing ->
  run server args w = (r, w') ->
  exists reqs,
    posted w' = posted w ++ reqs
    /\ Forall2 (fun a q =>
         exists audio,
           os.read (fs w) (audio_file_path (args_i args) a) = Return audio
           /\ q = request_for (args_host args) (args_port args)
                    (audio_file_path (args_i args) a)
                    (json.dumps None (make_mdata args)) audio)
         (firstn (List.length reqs) (candidates listing)) reqs
    /\ (r = Return tt -> List.length reqs = List.length (candidates listing)).
Proof.
  intros Hl Hnames. rewrite run_spec, Hl.
  revert Hl. unfold os.listdir, os.stat.
  destruct (os.resolve (fs w) (args_i args)) as [kd|e] eqn:Hres;
    [|discriminate].
  destruct (os.lookup (os.root (fs w)) kd) as [[x|es]|] eqn:Hk;
    try discriminate.
  intros _. apply (for_each_requests args w kd Hres); auto.
  - unfold os.is_dir. rewrite Hk. reflexivity.
  - apply recordings_kept_refl.
Qed.

End MoreRequests.

(** ** [json.dumps] writes ASCII *)

Section AsciiOutput.
Context {FL : PyFloat} {FLL : PyFloatLaws FL}.
Import json.
Local Open Scope N_scope.

Lemma ascii_only_app (a b : pystr) :
  ascii_only (a ++ b) = ascii_only a && ascii_only b.
Proof. apply forallb_app. Qed.

Lemma ascii_only_digits (ds : pystr) :
  Forall (fun c => is_digit c = true) ds -> ascii_only ds = true.
Proof.
  intros H. apply forallb_forall. rewrite Forall_forall in H.
  intros c Hc. apply H, is_digit_spec in Hc. apply N.ltb_lt. lia.
Qed.

Lemma intstr_ascii (z : Z) : ascii_only (intstr z) = true.
Proof.
  destruct z as [|p|p]; cbn [intstr]; [reflexivity| |].
  - apply ascii_only_digits, (proj1 (N_digits_spec _)).
  - change (ch "-" :: N_digits (N.pos p)) with ([ch "-"] ++ N_digits (N.pos p)).
    rewrite ascii_only_app.
    rewrite (ascii_only_digits (N_digits (N.pos p)))
      by apply (proj1 (N_digits_spec _)).
    reflexivity.
Qed.

Lemma span_digits_digits (s : pystr) :
  Forall (fun c => is_digit c = true) (fst (span_digits s)).
Proof.
  induction s as [|c s IH]; cbn [span_digits]; [constructor|].
  destruct (is_digit c) eqn:E; [|constructor].
  destruct (span_digits s) as [d r]. cbn [fst] in *. constructor; assumption.
Qed.

Lemma match_integer_ascii (s i r : pystr) :
  match_integer s = Some (i, r) -> ascii_only i = true.
Proof.
  unfold match_integer.
  assert (Hsign : forall sign s1,
             match s with
             | c :: s' => if N.eqb c (ch "-") then ([c], s') else ([], s)
             | [] => ([], s)
             end = (sign, s1) -> ascii_only sign = true).
  { intros sign s1. destruct s as [|c s']; [intros [= <- _]; reflexivity|].
    destruct (N.eqb_spec c (ch "-")) as [->|_]; intros [= <- _]; reflexivity. }
  destruct (match s with [] => _ | _ => _ end) as [sign s1] eqn:Es.
  specialize (Hsign _ _ eq_refl).
  destruct s1 as [|c s2]; [discriminate|].
  destruct (N.eqb_spec c (ch "0")) as [->|_].
  - intros [= <- _]. rewrite ascii_only_app, Hsign. reflexivity.
  - destruct (is_digit c) eqn:Ec; [|discriminate].
    pose proof (span_digits_digits s2) as Hd.
    destruct (span_digits s2) as [d r']. intros [= <- _].
    rewrite ascii_only_app, Hsign. cbn [andb].
    apply ascii_only_digits. constructor; assumption.
Qed.

Lemma match_frac_ascii (s : pystr) : ascii_only (fst (match_frac s)) = true.
Proof.
  unfold match_frac. destruct s as [|c s']; [reflexivity|].
  destruct (N.eqb_spec c (ch ".")) as [->|_]; [|reflexivity].
  pose proof (span_digits_digits s') as Hd.
  destruct (span_digits s') as [[|d0 d] r]; [reflexivity|].
  cbn [fst] in *. change (ch "." :: d0 :: d) with ([ch "."] ++ d0 :: d).
  rewrite ascii_only_app, (ascii_only_digits _ Hd). reflexivity.
Qed.

Lemma match_exp_ascii (s : pystr) : ascii_only (fst (match_exp s)) = true.
Proof.
  unfold match_exp. destruct s as [|c s']; [reflexivity|].
  destruct (N.eqb c (ch "e") || N.eqb c (ch "E")) eqn:Ec; [|reflexivity].
  assert (Hc : (c <? 128) = true).
  { apply orb_true_iff in Ec as [E|E]; apply N.eqb_eq in E; subst;
      reflexivity. }
  assert (Hsign : forall sign s'',
             match s' with
             | c2 :: t =>
                 if N.eqb c2 (ch "-") || N.eqb c2 (ch "+") then ([c2], t)
                 else ([], s')
             | [] => ([], s')
             end = (sign, s'') -> ascii_only sign = true).
  { intros sign s''. destruct s' as [|c2 t]; [intros [= <- _]; reflexivity|].
    destruct (N.eqb c2 (ch "-") || N.eqb c2 (ch "+")) eqn:E2;
      [|intros [= <- _]; reflexivity].
    intros [= <- _]. cbn [ascii_only forallb]. rewrite andb_true_r.
    apply orb_true_iff in E2 as [E|E]; apply N.eqb_eq in E; subst;
      reflexivity. }
  destruct (match s' with [] => _ | _ => _ end) as [sign s''] eqn:Es.
  specialize (Hsign _ _ eq_refl).
  pose proof (span_digits_digits s'') as Hd.
  destruct (span_digits s'') as [[|d0 d] r]; [reflexivity|].
  cbn [fst] in *. change (c :: sign ++ d0 :: d) with ([c] ++ sign ++ d0 :: d).
  rewrite !ascii_only_app, Hsign, (ascii_only_digits _ Hd).
  cbn [ascii_only forallb]. rewrite Hc. reflexivity.
Qed.

(** A float literal is made of digits, signs, a dot and an [e]. *)
Lemma float_literal_ascii (s : pystr) :
  is_float_literal s = true -> ascii_only s = true.
Proof.
  intros H. destruct (float_literal_app s [] H I) as (i & f & e & Hm & -> & _).
  rewrite app_nil_r in Hm. revert Hm. unfold match_number.
  destruct (match_integer _) as [[i' s1]|] eqn:Ei; [|discriminate].
  pose proof (match_frac_ascii s1) as Hf.
  destruct (match_frac s1) as [f' s2].
  pose proof (match_exp_ascii s2) as He.
  destruct (match_exp s2) as [e' s3]. cbn [fst] in *.
  intros [= -> -> -> _].
  rewrite !ascii_only_app, (match_integer_ascii _ _ _ Ei), Hf, He.
  reflexivity.
Qed.

Lemma floatstr_ascii (f : pyfloat finite) : ascii_only (floatstr f) = true.
Proof.
  destruct f as [|[|]|x]; try reflexivity.
  apply float_literal_ascii, float_repr_literal.
Qed.

Lemma hex_digit_ascii (n : N) : (hex_digit (n mod 16) <? 128) = true.
Proof.
  unfold hex_digit. pose proof (N.mod_lt n 16 ltac:(discriminate)).
  apply N.ltb_lt. destruct (N.ltb_spec (n mod 16) 10); lia.
Qed.

Lemma hex4_ascii (n : N) : ascii_only (hex4 n) = true.
Proof.
  unfold hex4. cbn [ascii_only forallb]. rewrite !hex_digit_ascii.
  reflexivity.
Qed.

Lemma escape_char_ascii (c : codepoint) : ascii_only (escape_char c) = true.
Proof.
  unfold escape_char.
  repeat match goal with
         | |- context [if ?b then _ else _] => destruct b; [reflexivity|]
         end.
  destruct (c <? _).
  - change (ascii_only (ch "\" :: ch "u" :: hex4 c))
      with (ascii_only ([ch "\"; ch "u"] ++ hex4 c)).
    rewrite ascii_only_app, hex4_ascii. reflexivity.
  - cbv zeta.
    match goal with
    | |- ascii_only ((_ :: _ :: hex4 ?a) ++ _ :: _ :: hex4 ?b) = true =>
        change (ascii_only (([ch "\"; ch "u"] ++ hex4 a)
                            ++ [ch "\"; ch "u"] ++ hex4 b) = true)
    end.
    rewrite !ascii_only_app, !hex4_ascii. reflexivity.
Qed.

Lemma encode_char_ascii (c : codepoint) : ascii_only (encode_char c) = true.
Proof.
  unfold encode_char.
  destruct (N.eqb c (ch "\") || N.eqb c 34
            || negb (N.leb 32 c && N.leb c 126)) eqn:E;
    [apply escape_char_ascii|].
  apply orb_false_elim in E as [_ E]. apply negb_false_iff in E.
  apply andb_true_iff in E as [_ E]. apply N.leb_le in E.
  cbn [ascii_only forallb]. rewrite andb_true_r. apply N.ltb_lt. lia.
Qed.

Lemma encode_basestring_ascii_is_ascii (s : pystr) :
  ascii_only (encode_basestring_ascii s) = true.
Proof.
  unfold encode_basestring_ascii.
  change (ascii_only ([34] ++ flat_map encode_char s ++ [34]) = true).
  rewrite !ascii_only_app. cbn [ascii_only forallb andb].
  rewrite andb_true_r.
  induction s as [|c s IH]; [reflexivity|].
  cbn [flat_map]. fold (ascii_only (encode_char c ++ flat_map encode_char s)).
  rewrite ascii_only_app, encode_char_ascii. exact IH.
Qed.

Lemma newline_indent_ascii (indent : option nat) (level : nat) :
  ascii_only (newline_indent indent level) = true.
Proof.
  destruct indent as [n|]; [|reflexivity]. cbn [newline_indent ascii_only forallb].
  cbn [N.ltb N.compare Pos.compare Pos.compare_cont andb].
  induction (n * level)%nat as [|k IH]; [reflexivity|]. exact IH.
Qed.

Lemma item_separator_ascii (indent : option nat) :
  ascii_only (item_separator indent) = true.
Proof. destruct indent; reflexivity. Qed.

Lemma join_chunks_ascii (sep : pystr) (chunks : list pystr) :
  ascii_only sep = true ->
  Forall (fun c => ascii_only c = true) chunks ->
  ascii_only (join_chunks sep chunks) = true.
Proof.
  intros Hs. induction 1 as [|c cs Hc Hcs IH]; [reflexivity|].
  cbn [join_chunks]. destruct cs as [|c' cs']; [exact Hc|].
  rewrite !ascii_only_app, Hc, Hs. exact IH.
Qed.

Lemma iterencode_ascii (indent : option nat) (v : value) :
  forall level, ascii_only (iterencode indent level v) = true.
Proof.
  induction v as [|b|z|f|s|l IH|d IH] using value_induction; intros level.
  - reflexivity.
  - destruct b; reflexivity.
  - apply intstr_ascii.
  - apply floatstr_ascii.
  - apply encode_basestring_ascii_is_ascii.
  - destruct l as [|x l']; [reflexivity|].
    cbn [iterencode]. rewrite !ascii_only_app, !newline_indent_ascii.
    rewrite join_chunks_ascii; [reflexivity| |].
    + rewrite ascii_only_app, item_separator_ascii, newline_indent_ascii.
      reflexivity.
    + apply Forall_map. eapply Forall_impl; [|exact IH]. auto.
  - destruct d as [|x d']; [reflexivity|].
    cbn [iterencode]. rewrite !ascii_only_app, !newline_indent_ascii.
    rewrite join_chunks_ascii; [reflexivity| |].
    + rewrite ascii_only_app, item_separator_ascii, newline_indent_ascii.
      reflexivity.
    + apply Forall_map. eapply Forall_impl; [|exact IH].
      intros [k x0] H. cbn [snd] in H.
      rewrite !ascii_only_app, encode_basestring_ascii_is_ascii, H.
      reflexivity.
Qed.

End AsciiOutput.

Section AsciiFiles.
Context {FL : PyFloat} {FLL : PyFloatLaws FL}.
Variable server : list request -> request -> option response.

(** X10: the [meta] field of every request of a run holds ASCII
    characters only, and so does every result file of a run that
    completes, whatever the server answered: [json.dumps] and [json.dump]
    escape every other character. *)
Theorem sent_and_saved_text_is_ascii (args : Namespace) (w w' : world)
    (r : outcome unit) (listing : list pystr) :
  os.listdir (fs w) (args_i args) = Return listing ->
  run server args w = (r, w') ->
  (exists reqs,
     posted w' = posted w ++ reqs
     /\ Forall (fun q => ascii_only (meta q) = true) reqs)
  /\ (r = Return tt ->
      forall a, In a listing -> is_audio_file a = true ->
        exists content,
          os.read (fs w') (result_file_path (output_directory_of args) a)
          = Return content
          /\ ascii_only content = true).
Proof.
  intros Hl Hrun. rewrite run_spec, Hl in Hrun. split.
  - destruct (for_each_trace server _ listing _ _ _ Hrun)
      as (started & reqs & _ & Hp & _ & _ & Hm & _).
    exists reqs. split; [exact Hp|].
    eapply Forall_impl; [|exact Hm]. intros q (Hq & _). rewrite Hq.
    apply iterencode_ascii.
  - intros -> a Hin Ha.
    destruct (for_each_results server _ _ _ _ Hrun a Hin Ha) as (data & Hd).
    eexists. split; [exact Hd|]. apply iterencode_ascii.
Qed.

End AsciiFiles.

(** ** More sample runs *)

Lemma run_changes_only_result_files_witness :
  exists r w',
    run (answering 200 detection_body) (parse_args no_options) recordings
    = (r, w')
    /\ os.read (fs recordings) (py "example/notes.txt")
       = Return (py "field notes")
    /\ os.read (fs w') (py "example/notes.txt") = Return (py "field notes")
    /\ os.read (fs w') (py "example/clip1.wav") = Return (py "RIFF").
Proof.
  exists (fst (run (answering 200 detection_body) (parse_args no_options)
                 recordings)),
         (snd (run (answering 200 detection_body) (parse_args no_options)
                 recordings)).
  assert (Hrun : run (answering 200 detection_body) (parse_args no_options)
                   recordings
                 = (fst (run (answering 200 detection_body)
                           (parse_args no_options) recordings),
                    snd (run (answering 200 detection_body)
                           (parse_args no_options) recordings)))
    by apply surjective_pairing.
  split; [exact Hrun|]. split; [reflexivity|].
  destruct (run_changes_only_result_files _ _ _ _ _ Hrun) as (Hother & Haudio).
  split.
  - apply Hother; reflexivity.
  - apply Haudio; reflexivity.
Defined.

Lemma run_without_recordings_witness :
  os.listdir (fs only_notes) (args_i (parse_args (only_o (py "out"))))
  = Return [py "notes.txt"; py "README"]
  /\ candidates [py "notes.txt"; py "README"] = []
  /\ run unreachable (parse_args (only_o (py "out"))) only_notes
     = (Return tt, only_notes).
Proof.
  split; [reflexivity|]. split; [reflexivity|].
  apply (run_without_recordings unreachable _ _
           [py "notes.txt"; py "README"]); reflexivity.
Defined.

Lemma run_needs_the_input_directory_witness :
  os.isdir (fs recordings) (py "nowhere") = false
  /\ exists e,
       run unreachable (with_i (py "nowhere") (parse_args no_options))
         recordings = (Raise e, recordings)
       /\ (e = FileNotFoundError \/ e = NotADirectoryError).
Proof.
  split; [reflexivity|].
  apply (run_needs_the_input_directory unreachable
           (with_i (py "nowhere") (parse_args no_options)) recordings).
  reflexivity.
Defined.

Lemma candidate_that_is_a_directory_witness :
  is_audio_file (py "takes.wav") = true
  /\ os.isdir (fs directory_named_as_recording) (py "example/takes.wav")
     = true
  /\ fst (loop_body unreachable (parse_args no_options) (py "takes.wav")
            directory_named_as_recording)
     = Raise IsADirectoryError.
Proof.
  split; [reflexivity|]. split; [reflexivity|].
  rewrite (candidate_that_is_a_directory unreachable (parse_args no_options)
             (py "takes.wav") directory_named_as_recording eq_refl eq_refl).
  reflexivity.
Defined.

Lemma saveResult_needs_a_directory_part_witness :
  ~ In os_path.sep (py "results.json")
  /\ saveResult json.JNull (py "results.json") recordings
     = (Raise FileNotFoundError, recordings).
Proof.
  assert (H : ~ In os_path.sep (py "results.json"))
    by (vm_compute; intuition discriminate).
  split; [exact H|].
  apply (saveResult_needs_a_directory_part json.JNull _ recordings H).
Defined.

Lemma saveResult_overwrites_witness :
  exists w1 w2,
    saveResult (json.JInt 1) (py "example/r.json") recordings
    = (Return tt, w1)
    /\ saveResult (json.JInt 2) (py "example/r.json") w1 = (Return tt, w2)
    /\ os.read (fs w2) (py "example/r.json")
       = Return (json.dumps (Some 4%nat) (json.JInt 2)).
Proof.
  exists (snd (saveResult (json.JInt 1) (py "example/r.json") recordings)).
  assert (H1 : saveResult (json.JInt 1) (py "example/r.json") recordings
               = (Return tt,
                  snd (saveResult (json.JInt 1) (py "example/r.json")
                         recordings))) by reflexivity.
  destruct (saveResult_overwrites (json.JInt 1) (json.JInt 2) _ _ _ H1)
    as (w2 & H2 & Hread & _).
  exists w2. auto.
Defined.



Lemma sent_and_saved_text_is_ascii_witness :
  os.listdir (fs recordings) (args_i (parse_args no_options))
  = Return [py "clip1.wav"; py "notes.txt"; py "clip2.mp3"]
  /\ exists w' content,
       run (answering 200 detection_body) (parse_args no_options) recordings
       = (Return tt, w')
       /\ os.read (fs w')
            (result_file_path (output_directory_of (parse_args no_options))
               (py "clip1.wav"))
          = Return content
       /\ ascii_only content = true.
Proof.
  assert (Hl : os.listdir (fs recordings) (args_i (parse_args no_options))
               = Return [py "clip1.wav"; py "notes.txt"; py "clip2.mp3"])
    by reflexivity.
  split; [exact Hl|].
  exists (snd (run (answering 200 detection_body) (parse_args no_options)
                 recordings)).
  assert (Hrun : run (answering 200 detection_body) (parse_args no_options)
                   recordings
                 = (Return tt,
                    snd (run (answering 200 detection_body)
                           (parse_args no_options) recordings)))
    by reflexivity.
  destruct (sent_and_saved_text_is_ascii (answering 200 detection_body)
              _ _ _ _ _ Hl Hrun) as (_ & Hsaved).
  destruct (Hsaved eq_refl (py "clip1.wav") (or_introl eq_refl) eq_refl)
    as (content & Hread & Hascii).
  exists content. auto.
Defined.

Lemma requests_carry_the_recordings_witness :
  os.listdir (fs recordings) (args_i (parse_args no_options))
  = Return [py "clip1.wav"; py "notes.txt"; py "clip2.mp3"]
  /\ Forall entry_name [py "clip1.wav"; py "notes.txt"; py "clip2.mp3"]
  /\ exists w' reqs,
       run (answering 200 detection_body) (parse_args no_options) recordings
       = (Return tt, w')
       /\ posted w' = posted recordings ++ reqs
       /\ List.length reqs = 2%nat.
Proof.
  assert (Hl : os.listdir (fs recordings) (args_i (parse_args no_options))
               = Return [py "clip1.wav"; py "notes.txt"; py "clip2.mp3"])
    by reflexivity.
  assert (Hnames : Forall entry_name
                     [py "clip1.wav"; py "notes.txt"; py "clip2.mp3"])
    by (repeat constructor; vm_compute; intuition discriminate).
  split; [exact Hl|]. split; [exact Hnames|].
  exists (snd (run (answering 200 detection_body) (parse_args no_options)
                 recordings)).
  assert (Hrun : run (answering 200 detection_body) (parse_args no_options)
                   recordings
                 = (Return tt,
                    snd (run (answering 200 detection_body)
                           (parse_args no_options) recordings)))
    by reflexivity.
  destruct (requests_carry_the_recordings (answering 200 detection_body)
              _ _ _ _ _ Hl Hnames Hrun) as (reqs & Hp & _ & Hlen).
  exists reqs. split; [exact Hrun|]. split; [exact Hp|].
  exact (Hlen eq_refl).
Defined.

Lemma result_file_holds_the_answer_for_its_recording_witness :
  exists w' data,
    run echoing_name (parse_args no_options) recordings = (Return tt, w')
    /\ json.loads (quoted (py "clip1.wav")) = Some data
    /\ os.read (fs w')
         (result_file_path (output_directory_of (parse_args no_options))
            (py "clip1.wav"))
       = Return (json.dumps (Some 4%nat) data).
Proof.
  exists (snd (run echoing_name (parse_args no_options) recordings)).
  assert (Hrun : run echoing_name (parse_args no_options) recordings
                 = (Return tt,
                    snd (run echoing_name (parse_args no_options)
                           recordings))) by reflexivity.
  assert (Hnames : Forall entry_name
                     [py "clip1.wav"; py "notes.txt"; py "clip2.mp3"])
    by (repeat constructor; vm_compute; intuition discriminate).
  assert (Hlater : forall b, In b [py "notes.txt"; py "clip2.mp3"] ->
                   is_audio_file b = true ->
                   result_file_name b <> result_file_name (py "clip1.wav")).
  { intros b [<-|[<-|[]]] _ E; vm_compute in E; discriminate E. }
  destruct (result_file_holds_the_answer_for_its_recording echoing_name
              (parse_args no_options) recordings _ [] _ (py "clip1.wav")
              eq_refl Hnames eq_refl Hlater Hrun)
    as (w1 & audio & resp & data & Hpre & Hread & Hsrv & Hloads & Hres).
  exists data. split; [exact Hrun|]. split; [|exact Hres].
  injection Hpre as <-. injection Hsrv as <-. exact Hloads.
Defined.

Lemma slash_after_input_directory_witness :
  py "example" <> []
  /\ endswith (py "example") [os_path.sep] = false
  /\ run (answering 200 detection_body)
       (with_i (py "example" ++ [os_path.sep]) (parse_args no_options))
       recordings
     = run (answering 200 detection_body)
         (with_i (py "example") (parse_args no_options)) recordings.
Proof.
  assert (H : py "example" <> []) by discriminate.
  split; [exact H|]. split; [reflexivity|].
  apply (slash_after_input_directory (answering 200 detection_body)
           (parse_args no_options) (py "example") recordings H eq_refl).
Defined.

Lemma saving_under_a_file_witness :
  ~ In os_path.sep (py "r.json")
  /\ os.read (fs recordings) (py "example/notes.txt")
     = Return (py "field notes")
  /\ saveResult json.JNull
       (os_path.join (py "example/notes.txt") (py "r.json")) recordings
     = (Raise FileExistsError, recordings).
Proof.
  assert (H : ~ In os_path.sep (py "r.json"))
    by (vm_compute; intuition discriminate).
  split; [exact H|]. split; [reflexivity|].
  apply (saving_under_a_file json.JNull _ _ (py "field notes") recordings H).
  reflexivity.
Defined.


Lemma request_goes_out_before_the_output_is_checked_witness :
  entry_name (py "clip1.wav")
  /\ os.read (fs recordings) (args_o (parse_args (only_o (py "example/notes.txt"))))
     = Return (py "field notes")
  /\ fst (loop_body (answering 200 (py "[]"))
            (parse_args (only_o (py "example/notes.txt"))) (py "clip1.wav")
            recordings) = Raise FileExistsError
  /\ List.length
       (posted (snd (loop_body (answering 200 (py "[]"))
                       (parse_args (only_o (py "example/notes.txt")))
                       (py "clip1.wav") recordings))) = 1%nat.
Proof.
  assert (H : entry_name (py "clip1.wav"))
    by (vm_compute; intuition discriminate).
  split; [exact H|]. split; [reflexivity|].
  rewrite (request_goes_out_before_the_output_is_checked
             (answering 200 (py "[]"))
             (parse_args (only_o (py "example/notes.txt"))) (py "clip1.wav")
             recordings (py "field notes") (py "RIFF")
             {| status_code := 200; text := py "[]" |} (json.JList [])
             H eq_refl eq_refl eq_refl eq_refl eq_refl).
  split; reflexivity.
Defined.
